(** * SpendWise expense API: a shallow embedding of [backend/index.js]

    The four request handlers of the Express application (create, list,
    total, delete) are embedded as programs over three effects: a call to
    [pool.query], a response sent with [res.status(..).json(..)] and a line
    on the console.  A program is run against any pool, and in particular
    against a model of the table of [backend/init.sql].

    The JavaScript built-ins the handlers rely on ([String.prototype.trim],
    [parseFloat], [parseInt], [isNaN], [Array.prototype.includes],
    ToString, ToBoolean) follow ECMA-262.  Numbers are IEEE binary64 values,
    with the specification of floating point of the standard library
    ([SpecFloat]): [parseFloat] and Number::toString round as the language
    does.  A request is served as Express 5 serves it: an exception that
    escapes a handler reaches the final handler of the framework. *)

From Stdlib Require Import ZArith NArith List Bool String Ascii Lia.
From Stdlib Require Import Floats.SpecFloat Sorting.Sorted.
Import ListNotations.

Local Open Scope Z_scope.

Set Warnings "-register-all".

(** ** Strings

    A JavaScript string is a sequence of UTF-16 code units. *)

Definition code_unit := N.
Definition JsString := list code_unit.

(** The string written by an ASCII literal of the source. *)
Definition lit (s : string) : JsString :=
  map N_of_ascii (list_ascii_of_string s).

Definition code_unit_eqb : code_unit -> code_unit -> bool := N.eqb.

Fixpoint js_string_eqb (a b : JsString) : bool :=
  match a, b with
  | [], [] => true
  | x :: a', y :: b' => code_unit_eqb x y && js_string_eqb a' b'
  | _, _ => false
  end.

(** WhiteSpace and LineTerminator code points of ECMA-262 (12.2, 12.3): the
    characters removed by [trim] and skipped by [parseFloat] and
    [parseInt]. *)
Definition is_white_space (c : code_unit) : bool :=
  let c := Z.of_N c in
  (c =? 9) || (c =? 10) || (c =? 11) || (c =? 12) || (c =? 13) || (c =? 32)
  || (c =? 160) || (c =? 5760) || ((8192 <=? c) && (c <=? 8202))
  || (c =? 8232) || (c =? 8233) || (c =? 8239) || (c =? 8287)
  || (c =? 12288) || (c =? 65279).

Fixpoint trim_start (s : JsString) : JsString :=
  match s with
  | [] => []
  | c :: r => if is_white_space c then trim_start r else s
  end.

Definition trim_end (s : JsString) : JsString := rev (trim_start (rev s)).

(** [String.prototype.trim] *)
Definition trim (s : JsString) : JsString := trim_end (trim_start s).

Fixpoint starts_with (p s : JsString) : bool :=
  match p, s with
  | [], _ => true
  | x :: p', y :: s' => code_unit_eqb x y && starts_with p' s'
  | _ :: _, [] => false
  end.

(** ** Numbers

    The Number type is IEEE 754 binary64: 53 bits of precision, exponents
    below 1024. *)

Definition Number := spec_float.

Definition prec : Z := 53.
Definition emax : Z := 1024.

Definition NaN : Number := S754_nan.
Definition Infinity : Number := S754_infinity false.
Definition pos_zero : Number := S754_zero false.
Definition neg_zero : Number := S754_zero true.

(** The global [isNaN], on an argument that is already a Number. *)
Definition isNaN (x : Number) : bool :=
  match x with
  | S754_nan => true
  | _ => false
  end.

Definition is_finite (x : Number) : bool :=
  match x with
  | S754_zero _ | S754_finite _ _ _ => true
  | _ => false
  end.

(** [x < y] and [x <= y] on Numbers: false as soon as one side is NaN. *)
Definition js_lt (x y : Number) : bool := SFltb x y.
Definition js_le (x y : Number) : bool := SFleb x y.

(** The Number value of the integer [m]: rounded to nearest, ties to even. *)
Definition number_of_Z (m : Z) : Number :=
  binary_normalize prec emax m 0 false.

(** The Number value of the decimal [(-1)^neg * m * 10^e10], rounded to
    nearest, ties to even.  A negative exponent is a division of two
    integers, rounded once. *)
Definition number_of_decimal (neg : bool) (m : N) (e10 : Z) : Number :=
  match m with
  | N0 => S754_zero neg
  | Npos p =>
      if 0 <=? e10
      then binary_round prec emax neg (p * Z.to_pos (10 ^ e10)) 0
      else SFdiv prec emax (S754_finite neg p 0)
                 (S754_finite false (Z.to_pos (10 ^ (- e10))) 0)
  end.

(** *** Reading digits *)

Definition is_digit (c : code_unit) : bool :=
  (48 <=? c)%N && (c <=? 57)%N.

Definition digit_value (c : code_unit) : N := (c - 48)%N.

(** The longest prefix of decimal digits, and what follows it. *)
Fixpoint span_digits (s : JsString) : JsString * JsString :=
  match s with
  | c :: r =>
      if is_digit c
      then let '(ds, rest) := span_digits r in (c :: ds, rest)
      else ([], s)
  | [] => ([], [])
  end.

Definition digits_value (ds : JsString) : N :=
  fold_left (fun acc c => (acc * 10 + digit_value c)%N) ds 0%N.

(** An optional sign: whether it is a minus, and what follows it. *)
Definition read_sign (s : JsString) : bool * JsString :=
  match s with
  | c :: r =>
      if (c =? 43)%N then (false, r)
      else if (c =? 45)%N then (true, r)
      else (false, s)
  | [] => (false, s)
  end.

(** ExponentPart: [e] or [E], an optional sign and at least one digit.  An
    incomplete exponent is not part of the literal. *)
Definition read_exponent (s : JsString) : Z * JsString :=
  match s with
  | c :: r =>
      if (c =? 101)%N || (c =? 69)%N then
        let '(neg, r1) := read_sign r in
        match span_digits r1 with
        | ([], _) => (0, s)
        | (ds, rest) =>
            let v := Z.of_N (digits_value ds) in
            ((if neg then - v else v), rest)
        end
      else (0, s)
  | [] => (0, s)
  end.

(** The result of reading a StrDecimalLiteral at the head of a string. *)
Inductive decimal_literal :=
| DecInfinity (neg : bool)
| DecFinite (neg : bool) (m : N) (e10 : Z).

(** The longest prefix that is a StrDecimalLiteral (ECMA-262 7.1.4.1), with
    the rest of the string, or [None] when no prefix is one. *)
Definition read_decimal_literal (s : JsString)
  : option (decimal_literal * JsString) :=
  let '(neg, s1) := read_sign s in
  if starts_with (lit "Infinity") s1
  then Some (DecInfinity neg, skipn 8 s1)
  else
    let '(int_digits, s2) := span_digits s1 in
    let '(frac_digits, s3) :=
      match s2 with
      | c :: r => if (c =? 46)%N then span_digits r else ([], s2)
      | [] => ([], s2)
      end in
    match int_digits ++ frac_digits with
    | [] => None
    | ds =>
        let '(e, s4) := read_exponent s3 in
        Some (DecFinite neg (digits_value ds)
                (e - Z.of_nat (List.length frac_digits)), s4)
    end.

Definition number_of_literal (d : decimal_literal) : Number :=
  match d with
  | DecInfinity neg => S754_infinity neg
  | DecFinite neg m e10 => number_of_decimal neg m e10
  end.

(** [parseFloat] on a string (ECMA-262 19.2.4): leading white space is
    skipped, the longest prefix that is a decimal literal is converted, and
    anything after it is ignored. *)
Definition parseFloat_string (s : JsString) : Number :=
  match read_decimal_literal (trim_start s) with
  | None => NaN
  | Some (d, _) => number_of_literal d
  end.

(** *** parseInt *)

Definition hex_digit_value (c : code_unit) : option N :=
  if is_digit c then Some (c - 48)%N
  else if (97 <=? c)%N && (c <=? 102)%N then Some (c - 87)%N
  else if (65 <=? c)%N && (c <=? 70)%N then Some (c - 55)%N
  else None.

Definition radix_digit_value (radix : N) (c : code_unit) : option N :=
  if (radix =? 16)%N then hex_digit_value c
  else if is_digit c then Some (digit_value c) else None.

(** The value of the longest prefix of digits in the radix, [None] when
    that prefix is empty. *)
Fixpoint read_radix_digits (radix : N) (s : JsString) (acc : option N)
  : option N :=
  match s with
  | c :: r =>
      match radix_digit_value radix c with
      | Some d =>
          read_radix_digits radix r
            (Some (match acc with Some a => a * radix + d | None => d end)%N)
      | None => acc
      end
  | [] => acc
  end.

(** [parseInt(string)] without a radix (ECMA-262 19.2.5): white space, a
    sign, an optional [0x] or [0X] prefix that selects radix 16, then the
    longest prefix of digits; NaN when there is no digit. *)
Definition parseInt_string (s : JsString) : Number :=
  let '(neg, s1) := read_sign (trim_start s) in
  let '(radix, s2) :=
    if starts_with (lit "0x") s1 || starts_with (lit "0X") s1
    then (16%N, skipn 2 s1) else (10%N, s1) in
  match read_radix_digits radix s2 None with
  | None => NaN
  | Some N0 => S754_zero neg
  | Some (Npos p) => binary_round prec emax neg p 0
  end.

(** *** Number::toString *)

Definition digit_char (d : Z) : code_unit := Z.to_N (48 + d).

Fixpoint decimal_digits_fuel (fuel : nat) (n : Z) (acc : JsString)
  : JsString :=
  match fuel with
  | O => acc
  | S f =>
      if n <? 10 then digit_char n :: acc
      else decimal_digits_fuel f (n / 10) (digit_char (n mod 10) :: acc)
  end.

(** The decimal representation of a natural number, without leading
    zeros. *)
Definition decimal_digits (n : Z) : JsString :=
  decimal_digits_fuel (S (Z.to_nat (Z.log2 n))) n [].

Definition number_eqb (x y : Number) : bool :=
  match x, y with
  | S754_zero a, S754_zero b => Bool.eqb a b
  | S754_infinity a, S754_infinity b => Bool.eqb a b
  | S754_finite a m e, S754_finite b m' e' =>
      Bool.eqb a b && (m =? m')%positive && (e =? e')
  | _, _ => false
  end.

(** The value [m * 2^e] as a fraction of two positive integers. *)
Definition exact_fraction (m : positive) (e : Z) : Z * Z :=
  if 0 <=? e then (Zpos m * 2 ^ e, 1) else (Zpos m, 2 ^ (- e)).

(** The integer [n] with [10^(n-1) <= num/den < 10^n]. *)
Definition decimal_exponent (num den : Z) : Z :=
  if den <=? num
  then Z.of_nat (List.length (decimal_digits (num / den)))
  else 1 - Z.of_nat (List.length (decimal_digits (den / num))).

(** [floor (num/den / 10^p)] *)
Definition scaled_floor (num den p : Z) : Z :=
  if 0 <=? p then num / (den * 10 ^ p) else (num * 10 ^ (- p)) / den.

(** How [num/den] compares with [(2s+1)/2 * 10^p], the middle of [s * 10^p]
    and [(s+1) * 10^p]. *)
Definition compare_with_middle (num den s p : Z) : comparison :=
  if 0 <=? p
  then Z.compare (2 * num) ((2 * s + 1) * 10 ^ p * den)
  else Z.compare (2 * num * 10 ^ (- p)) ((2 * s + 1) * den).

(** The [k]-digit decimals [s * 10^(n-k)] whose Number value is [x], the one
    nearest to [x] when both neighbours qualify. *)
Definition shortest_candidate (x : Number) (num den n k : Z)
  : option (Z * Z) :=
  let lo := scaled_floor num den (n - k) in
  let '(hi, hi_n) :=
    if lo + 1 =? 10 ^ k then (10 ^ (k - 1), n + 1) else (lo + 1, n) in
  let ok_lo := number_eqb (number_of_decimal false (Z.to_N lo) (n - k)) x in
  let ok_hi := number_eqb (number_of_decimal false (Z.to_N hi) (hi_n - k)) x in
  match ok_lo, ok_hi with
  | true, true =>
      match compare_with_middle num den lo (n - k) with
      | Lt => Some (lo, n)
      | Gt => Some (hi, hi_n)
      | Eq => if Z.even lo then Some (lo, n) else Some (hi, hi_n)
      end
  | true, false => Some (lo, n)
  | false, true => Some (hi, hi_n)
  | false, false => None
  end.

(** The least number of digits [k] that identifies [x], with the digits [s]
    and the exponent [n]: step 5 of Number::toString. *)
Fixpoint shortest_digits (fuel : nat) (x : Number) (num den n k : Z)
  : Z * Z * Z :=
  match shortest_candidate x num den n k with
  | Some (s, n') => (s, n', k)
  | None =>
      match fuel with
      | O => (scaled_floor num den (n - k), n, k)
      | S f => shortest_digits f x num den n (k + 1)
      end
  end.

Definition zeros (n : Z) : JsString := repeat 48%N (Z.to_nat n).

(** Steps 6 to 11 of Number::toString: the layout of the digits. *)
Definition layout_digits (s n k : Z) : JsString :=
  let ds := decimal_digits s in
  let exponent (e : Z) : JsString :=
    101%N :: (if 0 <=? e then 43%N else 45%N) :: decimal_digits (Z.abs e) in
  if (k <=? n) && (n <=? 21) then ds ++ zeros (n - k)
  else if (0 <? n) && (n <=? 21)
  then firstn (Z.to_nat n) ds ++ 46%N :: skipn (Z.to_nat n) ds
  else if (-6 <? n) && (n <=? 0)
  then 48%N :: 46%N :: zeros (- n) ++ ds
  else if k =? 1 then ds ++ exponent (n - 1)
  else firstn 1 ds ++ 46%N :: skipn 1 ds ++ exponent (n - 1).

(** Number::toString in radix 10 (ECMA-262 6.1.6.1.20). *)
Definition number_to_string (x : Number) : JsString :=
  match x with
  | S754_nan => lit "NaN"
  | S754_zero _ => lit "0"
  | S754_infinity neg =>
      (if neg then lit "-" else []) ++ lit "Infinity"
  | S754_finite neg m e =>
      let magnitude := binary_round prec emax false m e in
      let '(num, den) := exact_fraction m e in
      let '(s, n, k) :=
        shortest_digits 17 magnitude num den (decimal_exponent num den) 1 in
      (if neg then lit "-" else []) ++ layout_digits s n k
  end.

(** ** Values

    The values a handler meets: what [express.json()] and the query parser
    put in the request, and what the database driver puts in a result row (a
    [TIMESTAMP] column arrives as a Date, here its time value in
    milliseconds).  An object is the list of its own properties, each key
    once. *)

Inductive JsValue :=
| JUndefined
| JNull
| JBool (b : bool)
| JNum (x : Number)
| JStr (s : JsString)
| JArr (items : list JsValue)
| JObj (props : list (JsString * JsValue))
| JDate (t : Z).

(** What a JavaScript exception carries: a TypeError raised by the language,
    or the reason a promise was rejected with. *)
Inductive Thrown :=
| TypeError
| Rejection (reason : JsValue).

(** The completion of an expression: a value, or an exception. *)
Inductive Completion (A : Type) :=
| Normal (a : A)
| Abrupt (e : Thrown).

Arguments Normal {A} a.
Arguments Abrupt {A} e.

Definition cbind {A B} (c : Completion A) (k : A -> Completion B)
  : Completion B :=
  match c with
  | Normal a => k a
  | Abrupt e => Abrupt e
  end.

(** ToBoolean (ECMA-262 7.1.2) *)
Definition ToBoolean (v : JsValue) : bool :=
  match v with
  | JUndefined | JNull => false
  | JBool b => b
  | JNum x =>
      match x with
      | S754_zero _ | S754_nan => false
      | _ => true
      end
  | JStr s => match s with [] => false | _ => true end
  | JArr _ | JObj _ | JDate _ => true
  end.

Fixpoint lookup (key : JsString) (props : list (JsString * JsValue))
  : option JsValue :=
  match props with
  | [] => None
  | (k, v) :: rest => if js_string_eqb k key then Some v else lookup key rest
  end.

(** Reading the property [key] of [v], for the keys the handlers read
    ([itemName], [amount], [category], [total]): none of them is a property
    of a prototype, so only an object can have one, as an own property.
    Reading a property of [undefined] or [null] throws. *)
Definition get_property (v : JsValue) (key : JsString) : Completion JsValue :=
  match v with
  | JUndefined | JNull => Abrupt TypeError
  | JObj props =>
      match lookup key props with
      | Some x => Normal x
      | None => Normal JUndefined
      end
  | _ => Normal JUndefined
  end.

(** *** Date.prototype.toString, for a host in UTC *)

Definition pad2 (n : Z) : JsString :=
  [digit_char (n / 10); digit_char (n mod 10)].

Definition pad4 (n : Z) : JsString :=
  let ds := decimal_digits n in
  zeros (4 - Z.of_nat (List.length ds)) ++ ds.

Definition day_names : list string :=
  ["Sun"; "Mon"; "Tue"; "Wed"; "Thu"; "Fri"; "Sat"]%string.

Definition month_names : list string :=
  ["Jan"; "Feb"; "Mar"; "Apr"; "May"; "Jun";
   "Jul"; "Aug"; "Sep"; "Oct"; "Nov"; "Dec"]%string.

(** Year, month (from 0) and day of the month of a day number counted from
    1970-01-01, in the proleptic Gregorian calendar. *)
Definition civil_from_days (day : Z) : Z * Z * Z :=
  let z := day + 719468 in
  let era := z / 146097 in
  let doe := z - era * 146097 in
  let yoe := (doe - doe / 1460 + doe / 36524 - doe / 146096) / 365 in
  let doy := doe - (365 * yoe + yoe / 4 - yoe / 100) in
  let mp := (5 * doy + 2) / 153 in
  let d := doy - (153 * mp + 2) / 5 + 1 in
  let m := if mp <? 10 then mp + 2 else mp - 10 in
  let y := yoe + era * 400 + (if m <=? 1 then 1 else 0) in
  (y, m, d).

Definition date_to_string (t : Z) : JsString :=
  if (t <? -8640000000000000) || (8640000000000000 <? t)
  then lit "Invalid Date"
  else
    let day := t / 86400000 in
    let ms := t mod 86400000 in
    let '(y, m, d) := civil_from_days day in
    lit (nth (Z.to_nat ((day + 4) mod 7)) day_names EmptyString) ++ lit " "
    ++ lit (nth (Z.to_nat m) month_names EmptyString) ++ lit " "
    ++ pad2 d ++ lit " "
    ++ (if y <? 0 then lit "-" else []) ++ pad4 (Z.abs y) ++ lit " "
    ++ pad2 (ms / 3600000) ++ lit ":" ++ pad2 (ms / 60000 mod 60) ++ lit ":"
    ++ pad2 (ms / 1000 mod 60)
    ++ lit " GMT+0000 (Coordinated Universal Time)".

(** *** ToString (ECMA-262 7.1.17)

    An array is joined with commas, [undefined] and [null] elements giving
    the empty string.  An object made from JSON has no callable property of
    its own: with an own [toString] property the conversion finds no method
    that returns a primitive and throws, without one it inherits
    [Object.prototype.toString]. *)
Definition join_with (to_string : JsValue -> Completion JsString)
  : list JsValue -> bool -> Completion JsString :=
  fix join (l : list JsValue) (first : bool) : Completion JsString :=
    match l with
    | [] => Normal []
    | x :: r =>
        cbind (match x with
               | JUndefined | JNull => Normal []
               | _ => to_string x
               end)
          (fun sx =>
             cbind (join r false)
               (fun sr =>
                  Normal ((if first then [] else lit ",") ++ sx ++ sr)))
    end.

Fixpoint ToString (v : JsValue) : Completion JsString :=
  match v with
  | JUndefined => Normal (lit "undefined")
  | JNull => Normal (lit "null")
  | JBool b => Normal (if b then lit "true" else lit "false")
  | JNum x => Normal (number_to_string x)
  | JStr s => Normal s
  | JArr items => join_with ToString items true
  | JObj props =>
      match lookup (lit "toString") props with
      | Some _ => Abrupt TypeError
      | None => Normal (lit "[object Object]")
      end
  | JDate t => Normal (date_to_string t)
  end.

(** The global [parseFloat]: the argument is converted with ToString
    first. *)
Definition parseFloat (v : JsValue) : Completion Number :=
  cbind (ToString v) (fun s => Normal (parseFloat_string s)).

(** [receiver.trim()]: the method of a string; any other value that is
    neither [undefined] nor [null] has no callable [trim], and the call
    throws, as does reading the property of [undefined] or [null]. *)
Definition call_trim (receiver : JsValue) : Completion JsString :=
  match receiver with
  | JStr s => Normal (trim s)
  | _ => Abrupt TypeError
  end.

(** [x === y] where [x] is a string. *)
Definition strict_equals_string (x : JsString) (y : JsValue) : bool :=
  match y with
  | JStr s => js_string_eqb x s
  | _ => false
  end.

(** [array.includes(v)] on an array of strings. *)
Definition includes (array : list JsString) (v : JsValue) : bool :=
  existsb (fun x => strict_equals_string x v) array.

Definition is_nullish (v : JsValue) : bool :=
  match v with
  | JUndefined | JNull => true
  | _ => false
  end.

(** ** Handler programs

    A handler is an [async] function: it calls [pool.query] and waits for the
    answer, sends responses with [res.status(code).json(body)], writes to the
    console, and ends by returning or by throwing (its promise is then
    rejected). *)

(** What [await pool.query(text, params)] gives: the rows of the result, or
    the reason the promise was rejected with. *)
Inductive QueryOutcome :=
| Resolved (rows : list JsValue)
| Failed (reason : JsValue).

Inductive Prog (A : Type) :=
| Ret (a : A)
| Throw (e : Thrown)
| Query (text : JsString) (params : list JsValue) (k : QueryOutcome -> Prog A)
| Send (status : Z) (body : JsValue) (k : Prog A)
| Log (label : JsString) (e : Thrown) (k : Prog A).

Arguments Ret {A} a.
Arguments Throw {A} e.
Arguments Query {A} text params k.
Arguments Send {A} status body k.
Arguments Log {A} label e k.

Fixpoint bind {A B} (p : Prog A) (f : A -> Prog B) : Prog B :=
  match p with
  | Ret a => f a
  | Throw e => Throw e
  | Query text params k => Query text params (fun o => bind (k o) f)
  | Send status body k => Send status body (bind k f)
  | Log label e k => Log label e (bind k f)
  end.

(** [try { p } catch (error) { handler error }] *)
Fixpoint try_catch {A} (p : Prog A) (handler : Thrown -> Prog A) : Prog A :=
  match p with
  | Ret a => Ret a
  | Throw e => handler e
  | Query text params k =>
      Query text params (fun o => try_catch (k o) handler)
  | Send status body k => Send status body (try_catch k handler)
  | Log label e k => Log label e (try_catch k handler)
  end.

Definition lift {A} (c : Completion A) : Prog A :=
  match c with
  | Normal a => Ret a
  | Abrupt e => Throw e
  end.

(** [await pool.query(text, params)]: a rejected promise throws its reason
    at the [await]. *)
Definition await_query (text : JsString) (params : list JsValue)
  : Prog (list JsValue) :=
  Query text params
    (fun o =>
       match o with
       | Resolved rows => Ret rows
       | Failed reason => Throw (Rejection reason)
       end).

(** [res.status(code).json(body)] *)
Definition respond (status : Z) (body : JsValue) : Prog unit :=
  Send status body (Ret tt).

(** [console.error(label, error)] *)
Definition console_error (label : string) (e : Thrown) : Prog unit :=
  Log (lit label) e (Ret tt).

Declare Scope prog_scope.
Delimit Scope prog_scope with prog.
Notation "x <- p ;; q" := (bind p (fun x => q))
  (at level 61, p at next level, right associativity) : prog_scope.
Notation "' pat <- p ;; q" := (bind p (fun x => match x with pat => q end))
  (at level 61, pat pattern, p at next level, right associativity)
  : prog_scope.
Notation "p ;; q" := (bind p (fun _ => q))
  (at level 61, right associativity) : prog_scope.

(** The body [{ error: message }] and its like. *)
Definition error_body (message : string) : JsValue :=
  JObj [(lit "error", JStr (lit message))].

(** [rows[0]] *)
Definition first_row (rows : list JsValue) : JsValue :=
  nth 0 rows JUndefined.

(** ** The handlers of [backend/index.js] *)

Definition validCategories : list JsString :=
  [lit "Food"; lit "Transport"; lit "Entertainment"; lit "Shopping";
   lit "Bills"; lit "Other"].

(** [category && validCategories.includes(category) ? category : 'Other'] *)
Definition expenseCategory (category : JsValue) : JsValue :=
  if ToBoolean category && includes validCategories category
  then category else JStr (lit "Other").

Definition insert_text : JsString :=
  lit "INSERT INTO expenses (item_name, amount, category) VALUES ($1, $2, $3) RETURNING *".

(** [const { itemName, amount, category } = req.body] *)
Definition destructure_body (body : JsValue)
  : Completion (JsValue * JsValue * JsValue) :=
  cbind (get_property body (lit "itemName")) (fun itemName =>
  cbind (get_property body (lit "amount")) (fun amount =>
  cbind (get_property body (lit "category")) (fun category =>
  Normal (itemName, amount, category)))).

(** [!itemName || itemName.trim() === ''] *)
Definition item_name_missing (itemName : JsValue) : Completion bool :=
  if negb (ToBoolean itemName) then Normal true
  else cbind (call_trim itemName) (fun t => Normal (js_string_eqb t [])).

Local Open Scope prog_scope.

(** [app.post('/api/expenses', ...)], lines 104 to 148. *)
Definition post_expenses (body : JsValue) : Prog unit :=
  '(itemName, amount, category) <- lift (destructure_body body) ;;
  missing <- lift (item_name_missing itemName) ;;
  if missing
  then respond 400 (error_body "Item name is required and cannot be empty")
  else
    if is_nullish amount
    then respond 400 (error_body "Amount is required")
    else
      numAmount <- lift (parseFloat amount) ;;
      if isNaN numAmount || js_lt numAmount pos_zero
      then respond 400 (error_body "Amount must be a positive number")
      else
        try_catch
          (trimmed <- lift (call_trim itemName) ;;
           rows <- await_query insert_text
                     [JStr trimmed; JNum numAmount; expenseCategory category] ;;
           respond 201
             (JObj [(lit "message", JStr (lit "Expense added successfully"));
                    (lit "expense", first_row rows)]))
          (fun error =>
             console_error "Error adding expense:" error ;;
             respond 500 (error_body "Failed to add expense to database")).

(** The text and the parameters of the list query, lines 155 to 163. *)
Definition list_query (category : JsValue) : JsString * list JsValue :=
  let query := lit "SELECT * FROM expenses" in
  let params := [] in
  let '(query, params) :=
    if ToBoolean category
    then (query ++ lit " WHERE category = $1", params ++ [category])
    else (query, params) in
  (query ++ lit " ORDER BY created_at DESC", params).

(** [app.get('/api/expenses', ...)], lines 151 to 176; [category] is
    [req.query.category]. *)
Definition get_expenses (category : JsValue) : Prog unit :=
  try_catch
    (let '(query, params) := list_query category in
     rows <- await_query query params ;;
     respond 200 (JObj [(lit "expenses", JArr rows)]))
    (fun error =>
       console_error "Error fetching expenses:" error ;;
       respond 500 (error_body "Failed to fetch expenses from database")).

(** The text and the parameters of the total query, lines 183 to 189. *)
Definition total_query (category : JsValue) : JsString * list JsValue :=
  let query := lit "SELECT COALESCE(SUM(amount), 0) as total FROM expenses" in
  let params := [] in
  if ToBoolean category
  then (query ++ lit " WHERE category = $1", params ++ [category])
  else (query, params).

(** [app.get('/api/expenses/total', ...)], lines 179 to 204. *)
Definition get_total (category : JsValue) : Prog unit :=
  try_catch
    (let '(query, params) := total_query category in
     rows <- await_query query params ;;
     field <- lift (get_property (first_row rows) (lit "total")) ;;
     total <- lift (parseFloat field) ;;
     respond 200 (JObj [(lit "total", JNum total)]))
    (fun error =>
       console_error "Error calculating total spending:" error ;;
       respond 500 (error_body "Failed to calculate total spending")).

Definition select_by_id_text : JsString :=
  lit "SELECT * FROM expenses WHERE id = $1".

Definition delete_text : JsString :=
  lit "DELETE FROM expenses WHERE id = $1".

(** [app.delete('/api/expenses/:id', ...)], lines 207 to 247; [id] is the
    path parameter, always a string, which [parseInt] reads as it is. *)
Definition delete_expense (id : JsString) : Prog unit :=
  let expenseId := parseInt_string id in
  if isNaN expenseId || js_le expenseId pos_zero
  then respond 400 (error_body "Invalid expense ID")
  else
    try_catch
      (checkResult <- await_query select_by_id_text [JNum expenseId] ;;
       if (List.length checkResult =? 0)%nat
       then respond 404 (error_body "Expense not found")
       else
         await_query delete_text [JNum expenseId] ;;
         respond 200
           (JObj [(lit "message", JStr (lit "Expense deleted successfully"));
                  (lit "id", JNum expenseId)]))
      (fun error =>
         console_error "Error deleting expense:" error ;;
         respond 500 (error_body "Failed to delete expense from database")).

Local Close Scope prog_scope.

(** ** Running a handler

    What a request leaves behind, in order: the statements sent to the pool
    with their answers, the responses, the console lines. *)

Inductive Event :=
| EQuery (text : JsString) (params : list JsValue) (answer : QueryOutcome)
| ESend (status : Z) (body : JsValue)
| ELog (label : JsString) (e : Thrown)
| EErrorPage (status : Z).

(** The status codes of the responses among the events. *)
Fixpoint responses (evs : list Event) : list Z :=
  match evs with
  | [] => []
  | ESend status _ :: r => status :: responses r
  | EErrorPage status :: r => status :: responses r
  | _ :: r => responses r
  end.

(** The responses sent with [res.status(..).json(..)], with their bodies. *)
Fixpoint responses_sent (evs : list Event) : list (Z * JsValue) :=
  match evs with
  | [] => []
  | ESend status body :: r => (status, body) :: responses_sent r
  | _ :: r => responses_sent r
  end.

(** The statements among the events. *)
Fixpoint queries (evs : list Event) : list (JsString * list JsValue) :=
  match evs with
  | [] => []
  | EQuery text params _ :: r => (text, params) :: queries r
  | _ :: r => queries r
  end.

(** The console lines among the events. *)
Fixpoint logged (evs : list Event) : list Thrown :=
  match evs with
  | [] => []
  | ELog _ e :: r => e :: logged r
  | _ :: r => logged r
  end.

(** The integer a Number is, if it is one. *)
Definition Z_of_number (x : Number) : option Z :=
  match x with
  | S754_zero _ => Some 0
  | S754_finite neg m e =>
      let v := if 0 <=? e then Some (Zpos m * 2 ^ e)
               else if Zpos m mod 2 ^ (- e) =? 0
                    then Some (Zpos m / 2 ^ (- e)) else None in
      option_map (fun z => if neg then - z else z) v
  | _ => None
  end.

(** The status the final handler of Express answers an error with: the
    [status] or [statusCode] of the error when it is a 4xx or 5xx code,
    500 otherwise. *)
Definition error_status (e : Thrown) : Z :=
  match e with
  | TypeError => 500
  | Rejection reason =>
      let code (key : string) : option Z :=
        match get_property reason (lit key) with
        | Normal (JNum x) =>
            match Z_of_number x with
            | Some z => if (400 <=? z) && (z <? 600) then Some z else None
            | None => None
            end
        | _ => None
        end in
      match code "status"%string, code "statusCode"%string with
      | Some z, _ => z
      | None, Some z => z
      | None, None => 500
      end
  end.

Section Run.

(** The pool: any state, and any answer to a statement. *)
Context {St : Type}.
Variable pool_query : St -> JsString -> list JsValue -> QueryOutcome * St.

Fixpoint run {A} (p : Prog A) (st : St)
  : list Event * Completion A * St :=
  match p with
  | Ret a => ([], Normal a, st)
  | Throw e => ([], Abrupt e, st)
  | Query text params k =>
      let '(o, st1) := pool_query st text params in
      let '(evs, c, st2) := run (k o) st1 in
      (EQuery text params o :: evs, c, st2)
  | Send status body k =>
      let '(evs, c, st1) := run k st in
      (ESend status body :: evs, c, st1)
  | Log label e k =>
      let '(evs, c, st1) := run k st in
      (ELog label e :: evs, c, st1)
  end.

(** A request served by Express 5 (the version the README names): the
    router calls the handler and, when the promise it returns is rejected,
    passes the reason to the final handler, which answers with an error
    page, if no response has been sent yet, and then writes the reason to
    the console. *)
Definition serve (handler : Prog unit) (st : St) : list Event * St :=
  let '(evs, c, st1) := run handler st in
  match c with
  | Normal _ => (evs, st1)
  | Abrupt e =>
      (evs
       ++ match responses evs with
          | [] => [EErrorPage (error_status e)]
          | _ => []
          end
       ++ [ELog [] e], st1)
  end.

End Run.

(** ** The table of [backend/init.sql]

    A model of the [expenses] table behind the pool, as PostgreSQL 16 and
    the [pg] driver present it to the handlers.  It interprets the statements
    the handlers issue and rejects any other text.  An amount is kept in
    hundredths, the scale of [NUMERIC(10, 2)]; the special value NaN of the
    column type, which no handler binds, is not part of the model.  Of the
    text values only those of the insert are checked for the character
    U+0000, which the engine refuses. *)

Module Table.

Record Expense := {
  id : Z;                       (* SERIAL PRIMARY KEY *)
  item_name : JsString;         (* VARCHAR(255) NOT NULL *)
  amount : Z;                   (* NUMERIC(10, 2) NOT NULL CHECK (amount >= 0) *)
  category : option JsString;   (* VARCHAR(50) DEFAULT 'Other' *)
  created_at : Z                (* TIMESTAMP, in microseconds *)
}.

Record Database := {
  expenses : list Expense;      (* in insertion order *)
  next_id : Z;                  (* the sequence behind [id] *)
  now : Z                       (* CURRENT_TIMESTAMP *)
}.

(** The table after [init.sql]: no row, the sequence at its start. *)
Definition empty : Database :=
  {| expenses := []; next_id := 1; now := 0 |}.

(** *** Values across the driver *)

(** The text of a [NUMERIC(10, 2)] value: [25.50]. *)
Definition numeric_out (hundredths : Z) : JsString :=
  (if hundredths <? 0 then lit "-" else [])
  ++ decimal_digits (Z.abs hundredths / 100)
  ++ lit "." ++ pad2 (Z.abs hundredths mod 100).

(** The row as the driver delivers it: [id] as a number, the [NUMERIC]
    amount as its text, the timestamp as a Date. *)
Definition row_value (r : Expense) : JsValue :=
  JObj [(lit "id", JNum (number_of_Z (id r)));
        (lit "item_name", JStr (item_name r));
        (lit "amount", JStr (numeric_out (amount r)));
        (lit "category",
          match category r with Some c => JStr c | None => JNull end);
        (lit "created_at", JDate (created_at r / 1000))].

(** [escapeElement] of the driver, for the elements of an array
    parameter. *)
Definition escape_element (s : JsString) : JsString :=
  34%N :: flat_map (fun c => if (c =? 92)%N || (c =? 34)%N
                             then [92%N; c] else [c]) s ++ [34%N].

(** [prepareValue] of the driver: the text a parameter is sent as, [Some
    None] for NULL.  Objects and dates, which no handler binds under the
    default query parser, are left out ([None]). *)
Fixpoint prepare_value (v : JsValue) : option (option JsString) :=
  match v with
  | JUndefined | JNull => Some None
  | JBool b => Some (Some (if b then lit "true" else lit "false"))
  | JNum x => Some (Some (number_to_string x))
  | JStr s => Some (Some s)
  | JArr items =>
      option_map (fun s => Some (lit "{" ++ s ++ lit "}"))
        ((fix elements (l : list JsValue) (first : bool)
            : option JsString :=
            match l with
            | [] => Some []
            | x :: r =>
                match
                  match x with
                  | JUndefined | JNull => Some (lit "NULL")
                  | JArr _ =>
                      match prepare_value x with
                      | Some (Some s) => Some s
                      | _ => None
                      end
                  | _ =>
                      match prepare_value x with
                      | Some (Some s) => Some (escape_element s)
                      | _ => None
                      end
                  end, elements r false
                with
                | Some sx, Some sr =>
                    Some ((if first then [] else lit ",") ++ sx ++ sr)
                | _, _ => None
                end
            end) items true)
  | JObj _ | JDate _ => None
  end.

(** The error object a failed statement rejects with. *)
Definition pg_error (message : string) : JsValue :=
  JObj [(lit "message", JStr (lit message))].

(** *** Input of the column types *)

Definition is_high_surrogate (c : code_unit) : bool :=
  (55296 <=? c)%N && (c <=? 56319)%N.

Definition is_low_surrogate (c : code_unit) : bool :=
  (56320 <=? c)%N && (c <=? 57343)%N.

(** The number of characters of a string: a surrogate pair is one. *)
Fixpoint characters_from (after_high : bool) (s : JsString) : Z :=
  match s with
  | [] => 0
  | c :: r =>
      (if after_high && is_low_surrogate c then 0 else 1)
      + characters_from (is_high_surrogate c) r
  end.

Definition characters (s : JsString) : Z := characters_from false s.

(** Input of [NUMERIC(10, 2)]: the decimal text, rounded half away from
    zero to two places; an error on text that is no number, on an infinity
    and on a magnitude of [10^8] or more. *)
Definition numeric_10_2_in (text : JsString) : option Z :=
  match read_decimal_literal text with
  | Some (DecFinite neg m e10, []) =>
      let m := Z.of_N m in
      let magnitude :=
        if -2 <=? e10 then m * 10 ^ (e10 + 2)
        else (m + 10 ^ (- e10 - 2) / 2) / 10 ^ (- e10 - 2) in
      if magnitude <? 10 ^ 10
      then Some (if neg then - magnitude else magnitude)
      else None
  | _ => None
  end.

(** Input of [INTEGER]: a sign and digits, within 32 bits. *)
Definition int4_in (text : JsString) : option Z :=
  let '(neg, s) := read_sign text in
  match span_digits s with
  | (c :: ds, []) =>
      let v := Z.of_N (digits_value (c :: ds)) in
      let v := if neg then - v else v in
      if (-2147483648 <=? v) && (v <=? 2147483647) then Some v else None
  | _ => None
  end.

(** *** The statements *)

(** [ORDER BY created_at DESC]: a stable insertion sort, rows of equal
    time in insertion order. *)
Fixpoint insert_desc (r : Expense) (l : list Expense) : list Expense :=
  match l with
  | [] => [r]
  | x :: l' =>
      if created_at x <=? created_at r then r :: l
      else x :: insert_desc r l'
  end.

Definition order_by_created_at_desc (l : list Expense) : list Expense :=
  fold_right insert_desc [] l.

(** [WHERE category = $1]: a NULL on either side selects nothing. *)
Definition category_is (param : option JsString) (r : Expense) : bool :=
  match param, category r with
  | Some p, Some c => js_string_eqb c p
  | _, _ => false
  end.

(** [SUM(amount)]: NULL over no row. *)
Definition sql_sum (rows : list Expense) : option Z :=
  match rows with
  | [] => None
  | _ => Some (fold_right (fun r acc => amount r + acc) 0 rows)
  end.

(** [COALESCE(SUM(amount), 0) as total]: the one row of the aggregate.
    The sum keeps the scale of the column; the literal [0] has none. *)
Definition total_row (rows : list Expense) : JsValue :=
  JObj [(lit "total",
          JStr match sql_sum rows with
               | Some s => numeric_out s
               | None => lit "0"
               end)].

(** The character U+0000, which the engine refuses in a text value. *)
Definition has_nul (s : JsString) : bool :=
  existsb (fun c => (c =? 0)%N) s.

(** The insert statement.  A value the column types do not take is refused
    when the parameters are bound, before a row is formed: the table and
    the sequence stay as they were.  The [CHECK] on the amount is tested on
    the row, after the sequence gave its value. *)
Definition insert (db : Database) (p1 p2 p3 : JsValue)
  : QueryOutcome * Database :=
  let advanced :=
    {| expenses := expenses db; next_id := next_id db + 1; now := now db |} in
  match prepare_value p1, prepare_value p2, prepare_value p3 with
  | Some (Some name), Some (Some amount_text), Some category_text =>
      if has_nul name
         || (match category_text with
             | Some c => has_nul c
             | None => false
             end)
      then (Failed (pg_error "invalid byte sequence for encoding UTF8"), db)
      else
        match numeric_10_2_in amount_text with
        | Some hundredths =>
            if (characters name <=? 255)
               && (match category_text with
                   | Some c => characters c <=? 50
                   | None => true
                   end)
            then
              if 0 <=? hundredths
              then
                let r := {| id := next_id db; item_name := name;
                            amount := hundredths; category := category_text;
                            created_at := now db |} in
                (Resolved [row_value r],
                 {| expenses := expenses db ++ [r];
                    next_id := next_id db + 1; now := now db |})
              else (Failed (pg_error "check constraint violated"), advanced)
            else
              (Failed (pg_error "value too long for type character varying"),
               db)
        | None => (Failed (pg_error "numeric field overflow"), db)
        end
  | _, _, _ => (Failed (pg_error "invalid parameter"), db)
  end.

(** [WHERE id = $1]: the parameter read as an INTEGER; [None] when the
    text is not one, [Some None] for NULL. *)
Definition id_param (p : JsValue) : option (option Z) :=
  match prepare_value p with
  | Some (Some t) => option_map Some (int4_in t)
  | Some None => Some None
  | None => None
  end.

Definition id_is (param : option Z) (r : Expense) : bool :=
  match param with
  | Some i => id r =? i
  | None => false
  end.

Definition statement_is (text : JsString) (statement : string) : bool :=
  js_string_eqb text (lit statement).

(** A statement that fails leaves the table as it was. *)
Definition failure (db : Database) (message : string)
  : QueryOutcome * Database :=
  (Failed (pg_error message), db).

(** The answer of the pool to [pool.query(text, params)]. *)
Definition query (db : Database) (text : JsString) (params : list JsValue)
  : QueryOutcome * Database :=
  let select (rows : list Expense) :=
    (Resolved (map row_value (order_by_created_at_desc rows)), db) in
  if statement_is text "INSERT INTO expenses (item_name, amount, category) VALUES ($1, $2, $3) RETURNING *"
  then
    match params with
    | [p1; p2; p3] => insert db p1 p2 p3
    | _ => failure db "wrong number of parameters"
    end
  else if statement_is text "SELECT * FROM expenses ORDER BY created_at DESC" then
    match params with
    | [] => select (expenses db)
    | _ => failure db "wrong number of parameters"
    end
  else if statement_is text "SELECT * FROM expenses WHERE category = $1 ORDER BY created_at DESC"
  then
    match params with
    | [p] =>
        match prepare_value p with
        | Some c => select (filter (category_is c) (expenses db))
        | None => failure db "invalid parameter"
        end
    | _ => failure db "wrong number of parameters"
    end
  else if statement_is text "SELECT COALESCE(SUM(amount), 0) as total FROM expenses" then
    match params with
    | [] => (Resolved [total_row (expenses db)], db)
    | _ => failure db "wrong number of parameters"
    end
  else if statement_is text "SELECT COALESCE(SUM(amount), 0) as total FROM expenses WHERE category = $1"
  then
    match params with
    | [p] =>
        match prepare_value p with
        | Some c =>
            (Resolved [total_row (filter (category_is c) (expenses db))], db)
        | None => failure db "invalid parameter"
        end
    | _ => failure db "wrong number of parameters"
    end
  else if statement_is text "SELECT * FROM expenses WHERE id = $1" then
    match params with
    | [p] =>
        match id_param p with
        | Some i =>
            (Resolved (map row_value (filter (id_is i) (expenses db))), db)
        | None => failure db "invalid input syntax for type integer"
        end
    | _ => failure db "wrong number of parameters"
    end
  else if statement_is text "DELETE FROM expenses WHERE id = $1" then
    match params with
    | [p] =>
        match id_param p with
        | Some i =>
            (Resolved [],
             {| expenses :=
                  filter (fun r => negb (id_is i r)) (expenses db);
                next_id := next_id db; now := now db |})
        | None => failure db "invalid input syntax for type integer"
        end
    | _ => failure db "wrong number of parameters"
    end
  else failure db "syntax error".

End Table.

(** ** The health route and the metrics middleware of [backend/index.js] *)

(** [app.get('/api/health', ...)], lines 99 to 101: [res.json] without a
    status answers 200. *)
Definition get_health : Prog unit :=
  respond 200
    (JObj [(lit "status", JStr (lit "ok"));
           (lit "message", JStr (lit "SpendWise API is running"))]).

Module Metrics.

(** The labels of the two counters: method, route and status code. *)
Definition Labels : Type := JsString * JsString * JsString.

Definition labels_eqb (a b : Labels) : bool :=
  let '(m1, r1, s1) := a in
  let '(m2, r2, s2) := b in
  js_string_eqb m1 m2 && js_string_eqb r1 r2 && js_string_eqb s1 s2.

(** A counter of [prom-client]: a value for each set of labels it has
    seen. *)
Definition Counter : Type := list (Labels * nat).

(** [counter.inc(labels)] *)
Fixpoint inc (l : Labels) (c : Counter) : Counter :=
  match c with
  | [] => [(l, 1%nat)]
  | (l', n) :: r =>
      if labels_eqb l l' then (l', S n) :: r else (l', n) :: inc l r
  end.

(** The value of the counter for a set of labels, zero when it has not seen
    them. *)
Fixpoint value (l : Labels) (c : Counter) : nat :=
  match c with
  | [] => O
  | (l', n) :: r => if labels_eqb l l' then n else value l r
  end.

(** The sum of the values of the counter over all labels. *)
Fixpoint total (c : Counter) : nat :=
  match c with
  | [] => O
  | (_, n) :: r => (n + total r)%nat
  end.

(** The three metrics of lines 15 to 35; of the histogram, the durations
    observed with their labels, the last first. *)
Record State := {
  httpRequestsTotal : Counter;
  httpErrorsTotal : Counter;
  httpRequestDuration : list (JsString * JsString * Number)
}.

Definition empty : State :=
  {| httpRequestsTotal := []; httpErrorsTotal := [];
     httpRequestDuration := [] |}.

(** What the [finish] callback reads: the method, the path of the matched
    route if a route matched, the path of the request, the status of the
    response, and the two integers of [process.hrtime(start)]. *)
Record Finished := {
  method : JsString;
  route_path : option JsString;
  path : JsString;
  statusCode : Z;
  seconds : Z;
  nanoseconds : Z
}.

(** [seconds + nanoseconds / 1e9] *)
Definition duration (r : Finished) : Number :=
  SFadd prec emax (number_of_Z (seconds r))
    (SFdiv prec emax (number_of_Z (nanoseconds r))
       (number_of_decimal false 1 9)).

(** [req.route?.path ?? req.path] *)
Definition route (r : Finished) : JsString :=
  match route_path r with
  | Some p => p
  | None => path r
  end.

(** The callback of [res.on('finish', ...)], lines 55 to 74. *)
Definition on_finish (m : State) (r : Finished) : State :=
  let status_code := number_to_string (number_of_Z (statusCode r)) in
  let labels := (method r, route r, status_code) in
  {| httpRequestsTotal := inc labels (httpRequestsTotal m);
     httpErrorsTotal :=
       if 400 <=? statusCode r
       then inc labels (httpErrorsTotal m)
       else httpErrorsTotal m;
     httpRequestDuration :=
       (method r, route r, duration r) :: httpRequestDuration m |}.

End Metrics.

(** ** Vocabulary of the statements *)

(** The optional [category] query parameter: absent, or a string. *)
Definition category_param (c : option JsString) : JsValue :=
  match c with
  | None => JUndefined
  | Some s => JStr s
  end.

(** A request body with the three fields of a create request; an absent
    field is left out. *)
Definition create_body (itemName amount category : JsValue) : JsValue :=
  let field (name : string) (v : JsValue) :=
    match v with
    | JUndefined => []
    | _ => [(lit name, v)]
    end in
  JObj (field "itemName"%string itemName ++ field "amount"%string amount
        ++ field "category"%string category).

(** ASCII letters compared without their case. *)
Definition lower (c : code_unit) : code_unit :=
  if (65 <=? c)%N && (c <=? 90)%N then (c + 32)%N else c.

Definition same_ignoring_case (a b : JsString) : bool :=
  js_string_eqb (map lower a) (map lower b).

(** What follows the leading white space and the sign of an identifier. *)
Definition after_sign (id : JsString) : JsString :=
  snd (read_sign (trim_start id)).

(** An identifier with a minus sign after its leading white space. *)
Definition starts_with_minus (id : JsString) : Prop :=
  match trim_start id with
  | c :: _ => c = 45%N
  | [] => False
  end.

(** An identifier without a number to read: nothing, or a character that is
    no digit, follows the white space and the sign. *)
Definition no_leading_digit (id : JsString) : Prop :=
  match after_sign id with
  | c :: _ => is_digit c = false
  | [] => True
  end.

(** An identifier that reads as zero: a [0] follows the white space and the
    sign, and after it nothing, or a character that is no digit and not the
    [x] of a hexadecimal prefix. *)
Definition reads_zero (id : JsString) : Prop :=
  match after_sign id with
  | c :: s =>
      c = 48%N
      /\ match s with
         | d :: _ => is_digit d = false /\ d <> 120%N /\ d <> 88%N
         | [] => True
         end
  | [] => False
  end.

(** The responses of the accepted path of a create request, after the
    insert was answered. *)
Definition after_insert (answer : QueryOutcome) : list Event :=
  match answer with
  | Resolved rows =>
      [ESend 201
         (JObj [(lit "message", JStr (lit "Expense added successfully"));
                (lit "expense", first_row rows)])]
  | Failed reason =>
      [ELog (lit "Error adding expense:") (Rejection reason);
       ESend 500 (error_body "Failed to add expense to database")]
  end.

Section JsValueInduction.

Variable P : JsValue -> Prop.
Hypothesis P_undefined : P JUndefined.
Hypothesis P_null : P JNull.
Hypothesis P_bool : forall b, P (JBool b).
Hypothesis P_num : forall x, P (JNum x).
Hypothesis P_str : forall s, P (JStr s).
Hypothesis P_arr : forall items, Forall P items -> P (JArr items).
Hypothesis P_obj : forall props, P (JObj props).
Hypothesis P_date : forall t, P (JDate t).

(** Induction on a value through the elements of its arrays. *)
Fixpoint JsValue_array_ind (v : JsValue) : P v :=
  match v with
  | JUndefined => P_undefined
  | JNull => P_null
  | JBool b => P_bool b
  | JNum x => P_num x
  | JStr s => P_str s
  | JArr items =>
      P_arr items
        ((fix all (l : list JsValue) : Forall P l :=
            match l with
            | [] => Forall_nil P
            | x :: r => Forall_cons x (JsValue_array_ind x) (all r)
            end) items)
  | JObj props => P_obj props
  | JDate t => P_date t
  end.

End JsValueInduction.

(** A Number that is NaN or carries the sign [s]. *)
Definition signed (s : bool) (x : Number) : Prop :=
  match x with
  | S754_zero s' | S754_infinity s' | S754_finite s' _ _ => s' = s
  | S754_nan => True
  end.

Definition head_digit (s : JsString) : Prop :=
  match s with
  | c :: _ => is_digit c = true
  | [] => False
  end.

Definition all_digits (s : JsString) : Prop :=
  Forall (fun c => is_digit c = true) s.

(** The natural number a string of digits writes. *)
Definition value_of (ds : JsString) : Z := Z.of_N (digits_value ds).

(** The Number value of [h] hundredths: the binary64 number nearest to
    [h / 100]. *)
Definition number_of_hundredths (h : Z) : Number :=
  number_of_decimal (h <? 0) (Z.to_N (Z.abs h)) (-2).

(** What a create request ends in. *)
Inductive create_path {St : Type}
          (pool : St -> JsString -> list JsValue -> QueryOutcome * St)
          (body : JsValue) (st : St) : list Event * St -> Prop :=
| create_threw :
    create_path pool body st ([EErrorPage 500; ELog [] TypeError], st)
| create_rejected (message : string) :
    In message ["Item name is required and cannot be empty";
                "Amount is required";
                "Amount must be a positive number"]%string ->
    create_path pool body st ([ESend 400 (error_body message)], st)
| create_accepted (name : JsString) (amount category : JsValue) (x : Number) :
    destructure_body body = Normal (JStr name, amount, category) ->
    trim name <> [] ->
    is_nullish amount = false ->
    parseFloat amount = Normal x ->
    js_le pos_zero x = true ->
    let params := [JStr (trim name); JNum x; expenseCategory category] in
    create_path pool body st
      (EQuery insert_text params (fst (pool st insert_text params))
         :: after_insert (fst (pool st insert_text params)),
       snd (pool st insert_text params)).

(** What the catch block of a handler leaves: the console line and the
    500 response. *)
Definition caught (label message : string) (e : Thrown) : list Event :=
  [ELog (lit label) e; ESend 500 (error_body message)].

Definition after_list (answer : QueryOutcome) : list Event :=
  match answer with
  | Resolved rows => [ESend 200 (JObj [(lit "expenses", JArr rows)])]
  | Failed reason =>
      caught "Error fetching expenses:"
        "Failed to fetch expenses from database" (Rejection reason)
  end.

Definition after_total (answer : QueryOutcome) : list Event :=
  let failed :=
    caught "Error calculating total spending:"
      "Failed to calculate total spending" in
  match answer with
  | Resolved rows =>
      match cbind (get_property (first_row rows) (lit "total")) parseFloat with
      | Normal total => [ESend 200 (JObj [(lit "total", JNum total)])]
      | Abrupt e => failed e
      end
  | Failed reason => failed (Rejection reason)
  end.

(** The responses of a request: one, with a status the API documents. *)
Definition answered_once (evs : list Event) : Prop :=
  exists status,
    responses evs = [status] /\ In status [200; 201; 400; 404; 500].

(** No failure goes unreported: a statement the pool rejected is answered
    500 and its reason is on the console. *)
Definition failures_reported (evs : list Event) : Prop :=
  forall text params reason,
    In (EQuery text params (Failed reason)) evs ->
    responses evs = [500] /\ In (Rejection reason) (logged evs).

(** The rows a category parameter selects: all of them when the parameter
    is absent or empty. *)
Definition matching (c : option JsString) (db : Table.Database)
  : list Table.Expense :=
  if ToBoolean (category_param c)
  then filter (Table.category_is c) (Table.expenses db)
  else Table.expenses db.

Definition sum_of_amounts (rows : list Table.Expense) : Z :=
  fold_right (fun r acc => Table.amount r + acc) 0 rows.

(** The text of the total the table answers with. *)
Definition total_text (rows : list Table.Expense) : JsString :=
  match rows with
  | [] => lit "0"
  | _ => Table.numeric_out (sum_of_amounts rows)
  end.

(** The total as a Number: zero over no row, the Number value of the sum
    otherwise. *)
Definition total_number (rows : list Table.Expense) : Number :=
  match rows with
  | [] => pos_zero
  | _ => number_of_hundredths (sum_of_amounts rows)
  end.

(** Rows from the newest to the oldest. *)
Definition newest_first (rows : list Table.Expense) : Prop :=
  Sorted (fun a b => Table.created_at b <= Table.created_at a) rows.

(** The table after the row [i] is deleted. *)
Definition without (i : Z) (db : Table.Database) : Table.Database :=
  {| Table.expenses :=
       filter (fun r => negb (Table.id r =? i)) (Table.expenses db);
     Table.next_id := Table.next_id db; Table.now := Table.now db |}.

(** *** Vocabulary of the further properties *)

(** A string of white space only, the empty string included. *)
Definition blank (s : JsString) : bool := forallb is_white_space s.

(** No white space at the start of the string. *)
Definition starts_clean (s : JsString) : Prop :=
  match s with
  | c :: _ => is_white_space c = false
  | [] => True
  end.

(** No white space at the end of the string. *)
Definition ends_clean (s : JsString) : Prop := starts_clean (rev s).

(** The seven statements of the source. *)
Definition statement_texts : list JsString :=
  [lit "INSERT INTO expenses (item_name, amount, category) VALUES ($1, $2, $3) RETURNING *";
   lit "SELECT * FROM expenses ORDER BY created_at DESC";
   lit "SELECT * FROM expenses WHERE category = $1 ORDER BY created_at DESC";
   lit "SELECT COALESCE(SUM(amount), 0) as total FROM expenses";
   lit "SELECT COALESCE(SUM(amount), 0) as total FROM expenses WHERE category = $1";
   lit "SELECT * FROM expenses WHERE id = $1";
   lit "DELETE FROM expenses WHERE id = $1"].

(** The messages of the error responses of the source. *)
Definition error_messages : list string :=
  ["Item name is required and cannot be empty";
   "Amount is required";
   "Amount must be a positive number";
   "Failed to add expense to database";
   "Failed to fetch expenses from database";
   "Failed to calculate total spending";
   "Invalid expense ID";
   "Expense not found";
   "Failed to delete expense from database"]%string.

(** The statements that only read. *)
Definition read_texts : list JsString :=
  [lit "SELECT * FROM expenses ORDER BY created_at DESC";
   lit "SELECT * FROM expenses WHERE category = $1 ORDER BY created_at DESC";
   lit "SELECT COALESCE(SUM(amount), 0) as total FROM expenses";
   lit "SELECT COALESCE(SUM(amount), 0) as total FROM expenses WHERE category = $1";
   lit "SELECT * FROM expenses WHERE id = $1"].

(** The requests of the API. *)
Inductive Request :=
| Health
| CreateExpense (body : JsValue)
| ListExpenses (category : JsValue)
| TotalExpenses (category : JsValue)
| DeleteExpense (id : JsString).

Definition handler (r : Request) : Prog unit :=
  match r with
  | Health => get_health
  | CreateExpense body => post_expenses body
  | ListExpenses category => get_expenses category
  | TotalExpenses category => get_total category
  | DeleteExpense id => delete_expense id
  end.

(** What the data model asks of a stored row: a name without white space at
    its ends, not empty and of 255 characters at most, an amount from zero
    up and below [10^8], one of the six labels. *)
Definition row_ok (r : Table.Expense) : Prop :=
  Table.item_name r <> []
  /\ trim (Table.item_name r) = Table.item_name r
  /\ Table.characters (Table.item_name r) <= 255
  /\ 0 <= Table.amount r < 10 ^ 10
  /\ exists c, Table.category r = Some c /\ In c validCategories.

(** The table keeps its rows well formed, their identifiers distinct and
    below the next value of the sequence. *)
Definition table_ok (db : Table.Database) : Prop :=
  Forall row_ok (Table.expenses db)
  /\ Forall (fun r => Table.id r < Table.next_id db) (Table.expenses db)
  /\ NoDup (map Table.id (Table.expenses db)).

(** The requests of a list of requests served one after the other. *)
Fixpoint serve_all (rs : list Request) (db : Table.Database)
  : Table.Database :=
  match rs with
  | [] => db
  | r :: rest => serve_all rest (snd (serve Table.query (handler r) db))
  end.

(** The labels the [finish] callback counts a response under. *)
Definition labels_of (r : Metrics.Finished) : Metrics.Labels :=
  (Metrics.method r, Metrics.route r,
   number_to_string (number_of_Z (Metrics.statusCode r))).

(** The metrics after the responses [rs] finished, in this order, from the
    start of the process. *)
Definition metrics_after (rs : list Metrics.Finished) : Metrics.State :=
  fold_left Metrics.on_finish rs Metrics.empty.

(** A response the middleware counts as an error. *)
Definition is_error (r : Metrics.Finished) : bool :=
  400 <=? Metrics.statusCode r.

(** * Properties *)

(** ** Strings and numbers *)

Lemma js_string_eqb_eq (a b : JsString) : js_string_eqb a b = true <-> a = b.
Proof.
  revert b; induction a as [|x a IH]; intros [|y b]; simpl;
    try (split; [discriminate | congruence]); try tauto.
  unfold code_unit_eqb. rewrite andb_true_iff, N.eqb_eq, IH.
  split; [intros [-> ->]; reflexivity | intros H; inversion H; auto].
Qed.

Lemma js_string_eqb_refl (a : JsString) : js_string_eqb a a = true.
Proof. apply js_string_eqb_eq; reflexivity. Qed.

Lemma js_string_eqb_neq (a b : JsString) : a <> b -> js_string_eqb a b = false.
Proof.
  intros H. destruct (js_string_eqb a b) eqn:E; [|reflexivity].
  apply js_string_eqb_eq in E; contradiction.
Qed.

(** The guard of the create handler, [isNaN(x) || x < 0], is the negation
    of [0 <= x]. *)
Lemma amount_guard (x : Number) :
  isNaN x || js_lt x pos_zero = negb (js_le pos_zero x).
Proof. destruct x as [[]|[]| |[] m e]; reflexivity. Qed.

(** The guard of the delete handler, [isNaN(x) || x <= 0], is the negation
    of [0 < x]. *)
Lemma id_guard (x : Number) :
  isNaN x || js_le x pos_zero = negb (js_lt pos_zero x).
Proof. destruct x as [[]|[]| |[] m e]; reflexivity. Qed.

(** ** The create handler, path by path *)

Lemma item_name_present (name : JsString) :
  trim name <> [] -> item_name_missing (JStr name) = Normal false.
Proof.
  intros H. unfold item_name_missing.
  destruct name as [|c r]; [contradiction|]. simpl.
  rewrite js_string_eqb_neq by assumption. reflexivity.
Qed.


Section AnyPool.

Context {St : Type}.
Variable pool : St -> JsString -> list JsValue -> QueryOutcome * St.

(** A handler that only answers leaves the pool alone. *)
Lemma serve_respond (status : Z) (body : JsValue) (st : St) :
  serve pool (respond status body) st = ([ESend status body], st).
Proof. reflexivity. Qed.

(** The accepted path: the insert is issued with the trimmed name, the
    number and the normalised category; its answer decides between 201
    and 500. *)
Lemma post_expenses_accepted
      (body amount category : JsValue) (name : JsString) (x : Number)
      (st : St) :
  destructure_body body = Normal (JStr name, amount, category) ->
  trim name <> [] ->
  is_nullish amount = false ->
  parseFloat amount = Normal x ->
  js_le pos_zero x = true ->
  let params := [JStr (trim name); JNum x; expenseCategory category] in
  serve pool (post_expenses body) st
  = (EQuery insert_text params (fst (pool st insert_text params))
       :: after_insert (fst (pool st insert_text params)),
     snd (pool st insert_text params)).
Proof.
  intros Hbody Hname Hamount Hparse Hle params.
  unfold serve, post_expenses. rewrite Hbody. simpl.
  rewrite (item_name_present name Hname). simpl.
  rewrite Hamount, Hparse. simpl.
  rewrite amount_guard, Hle. simpl.
  destruct (pool st insert_text _) as [[rows|reason] st1]; reflexivity.
Qed.

(** The rejected path of the amount check. *)
Lemma post_expenses_bad_amount
      (body amount category : JsValue) (name : JsString) (x : Number) :
  destructure_body body = Normal (JStr name, amount, category) ->
  trim name <> [] ->
  is_nullish amount = false ->
  parseFloat amount = Normal x ->
  js_le pos_zero x = false ->
  post_expenses body
  = respond 400 (error_body "Amount must be a positive number").
Proof.
  intros Hbody Hname Hamount Hparse Hle.
  unfold post_expenses. rewrite Hbody. simpl.
  rewrite (item_name_present name Hname). simpl.
  rewrite Hamount, Hparse. simpl.
  rewrite amount_guard, Hle. reflexivity.
Qed.

End AnyPool.


(** ** Exceptions of the built-ins *)

Lemma join_with_abrupt (f : JsValue -> Completion JsString)
      (l : list JsValue) :
  Forall (fun v => forall e, f v = Abrupt e -> e = TypeError) l ->
  forall first e, join_with f l first = Abrupt e -> e = TypeError.
Proof.
  induction 1 as [|x r Hx Hr IH]; intros first e; simpl; [discriminate|].
  assert (Hhead : forall e0,
             match x with
             | JUndefined | JNull => Normal []
             | _ => f x
             end = Abrupt e0 -> e0 = TypeError).
  { intros e0. destruct x; try discriminate; apply Hx. }
  destruct (match x with JUndefined | JNull => Normal [] | _ => f x end)
    as [sx|e0]; simpl.
  - destruct (join_with f r false) as [sr|e1] eqn:E; simpl;
      [discriminate|].
    intros H; inversion H; subst. exact (IH _ _ E).
  - intros H; inversion H; subst. apply Hhead; reflexivity.
Qed.

(** The only exception ToString raises is a TypeError. *)
Lemma ToString_abrupt (v : JsValue) :
  forall e, ToString v = Abrupt e -> e = TypeError.
Proof.
  induction v as [ | | b | x | s | items IH | props | t]
    using JsValue_array_ind; simpl; intros e; try discriminate.
  - apply join_with_abrupt; assumption.
  - destruct (lookup _ props); [|discriminate].
    intros H; inversion H; reflexivity.
Qed.

Lemma parseFloat_abrupt (v : JsValue) (e : Thrown) :
  parseFloat v = Abrupt e -> e = TypeError.
Proof.
  unfold parseFloat. destruct (ToString v) eqn:E; simpl; [discriminate|].
  intros H; inversion H; subst. exact (ToString_abrupt _ _ E).
Qed.

Lemma get_property_abrupt (v : JsValue) (key : JsString) (e : Thrown) :
  get_property v key = Abrupt e -> e = TypeError.
Proof.
  destruct v; simpl; try discriminate;
    try (intros H; inversion H; reflexivity).
  destruct (lookup key props); discriminate.
Qed.

Lemma destructure_body_abrupt (body : JsValue) (e : Thrown) :
  destructure_body body = Abrupt e -> e = TypeError.
Proof.
  unfold destructure_body.
  destruct (get_property body (lit "itemName")) eqn:E1; simpl;
    [|intros H; inversion H; subst; exact (get_property_abrupt _ _ _ E1)].
  destruct (get_property body (lit "amount")) eqn:E2; simpl;
    [|intros H; inversion H; subst; exact (get_property_abrupt _ _ _ E2)].
  destruct (get_property body (lit "category")) eqn:E3; simpl;
    [discriminate
    |intros H; inversion H; subst; exact (get_property_abrupt _ _ _ E3)].
Qed.

Lemma call_trim_abrupt (v : JsValue) (e : Thrown) :
  call_trim v = Abrupt e -> e = TypeError.
Proof. destruct v; simpl; intros H; inversion H; reflexivity. Qed.

Lemma item_name_missing_abrupt (v : JsValue) (e : Thrown) :
  item_name_missing v = Abrupt e -> e = TypeError.
Proof.
  unfold item_name_missing. destruct (negb (ToBoolean v)); [discriminate|].
  destruct (call_trim v) eqn:E; simpl; [discriminate|].
  intros H; inversion H; subst. exact (call_trim_abrupt _ _ E).
Qed.

(** ** Rounding keeps the sign *)

Lemma binary_round_aux_signed (s : bool) (m e : Z) (l : location) :
  signed s (binary_round_aux prec emax s m e l).
Proof.
  unfold binary_round_aux.
  destruct (shr_fexp prec emax m e l) as [mrs e1].
  destruct (shr_fexp prec emax _ e1 loc_Exact) as [mrs2 e2].
  destruct (shr_m mrs2); simpl; auto.
  destruct (e2 <=? _); simpl; auto.
Qed.

Lemma binary_round_signed (s : bool) (m : positive) (e : Z) :
  signed s (binary_round prec emax s m e).
Proof.
  unfold binary_round.
  destruct (shl_align m e _) as [mz ez]. apply binary_round_aux_signed.
Qed.

Lemma signed_negative_not_positive (x : Number) :
  signed true x -> js_lt pos_zero x = false.
Proof.
  destruct x as [[]|[]| |[] m e]; simpl; intros H;
    try discriminate; reflexivity.
Qed.

(** ** Validation of a create request: the amount *)

Lemma finite_not_negative (x : Number) :
  is_finite x = true -> js_lt x pos_zero = false -> js_le pos_zero x = true.
Proof.
  destruct x as [[]|[]| |[] m e]; simpl; intros H1 H2;
    try discriminate; reflexivity.
Qed.

Lemma nan_or_negative (x : Number) :
  isNaN x = true \/ js_lt x pos_zero = true -> js_le pos_zero x = false.
Proof.
  intros H. generalize (amount_guard x).
  destruct (js_le pos_zero x); [|reflexivity].
  destruct H as [-> | ->]; simpl; try discriminate.
  rewrite orb_true_r. discriminate.
Qed.

(** C1, as amended.  For a create request whose item name passed the first
    check and whose amount is present: when [parseFloat(amount)] is NaN or
    below zero the request is answered 400 with the message of the amount
    check and the pool is not called; when it is a finite number that is not
    below zero (zero included) the request is accepted: the insert is issued
    with that number. *)
Theorem create_amount_check
        {St : Type} (pool : St -> JsString -> list JsValue -> QueryOutcome * St)
        (body amount category : JsValue) (name : JsString) (x : Number)
        (st : St) :
  destructure_body body = Normal (JStr name, amount, category) ->
  trim name <> [] ->
  is_nullish amount = false ->
  parseFloat amount = Normal x ->
  (isNaN x = true \/ js_lt x pos_zero = true ->
   serve pool (post_expenses body) st
   = ([ESend 400 (error_body "Amount must be a positive number")], st))
  /\ (is_finite x = true -> js_lt x pos_zero = false ->
      let params := [JStr (trim name); JNum x; expenseCategory category] in
      serve pool (post_expenses body) st
      = (EQuery insert_text params (fst (pool st insert_text params))
           :: after_insert (fst (pool st insert_text params)),
         snd (pool st insert_text params))).
Proof.
  intros Hbody Hname Hamount Hparse. split.
  - intros H. apply nan_or_negative in H.
    rewrite (post_expenses_bad_amount body amount category name x);
      auto using serve_respond.
  - intros Hfinite Hlt params.
    apply post_expenses_accepted with (amount := amount); auto.
    apply finite_not_negative; assumption.
Qed.

Lemma create_amount_check_witness :
  let body := create_body (JStr (lit "Coffee")) (JNum pos_zero) JUndefined in
  let params := [JStr (lit "Coffee"); JNum pos_zero; JStr (lit "Other")] in
  serve Table.query (post_expenses body) Table.empty
  = (EQuery insert_text params
       (fst (Table.query Table.empty insert_text params))
       :: after_insert (fst (Table.query Table.empty insert_text params)),
     snd (Table.query Table.empty insert_text params)).
Proof.
  apply (create_amount_check Table.query
           (create_body (JStr (lit "Coffee")) (JNum pos_zero) JUndefined)
           (JNum pos_zero) JUndefined (lit "Coffee") pos_zero Table.empty);
    try reflexivity.
  vm_compute. discriminate.
Defined.

(** C1, as stated, fails on two requests whose amount is present.  With an
    empty item name and the amount [-5] the answer carries the message of
    the item name check, not that of the amount check.  With the amount
    [Infinity], which [parseFloat] reads as a number that is not finite, the
    request is not answered 400: the insert is issued (and the table refuses
    the value). *)
Lemma create_amount_claim_counterexample :
  serve Table.query
    (post_expenses (create_body (JStr []) (JStr (lit "-5")) JUndefined))
    Table.empty
  = ([ESend 400 (error_body "Item name is required and cannot be empty")],
     Table.empty)
  /\ parseFloat (JStr (lit "Infinity")) = Normal Infinity
  /\ is_finite Infinity = false
  /\ queries
       (fst (serve Table.query
               (post_expenses
                  (create_body (JStr (lit "Coffee")) (JStr (lit "Infinity"))
                     JUndefined))
               Table.empty))
     = [(insert_text,
         [JStr (lit "Coffee"); JNum Infinity; JStr (lit "Other")])]
  /\ responses
       (fst (serve Table.query
               (post_expenses
                  (create_body (JStr (lit "Coffee")) (JStr (lit "Infinity"))
                     JUndefined))
               Table.empty))
     = [500].
Proof. repeat split; vm_compute; reflexivity. Qed.

(** ** Validation of a delete request *)

Lemma delete_expense_invalid
      {St : Type} (pool : St -> JsString -> list JsValue -> QueryOutcome * St)
      (id : JsString) (st : St) :
  js_lt pos_zero (parseInt_string id) = false ->
  serve pool (delete_expense id) st
  = ([ESend 400 (error_body "Invalid expense ID")], st).
Proof.
  intros Hid. unfold delete_expense. rewrite id_guard, Hid. reflexivity.
Qed.

(** [parseInt] of a string with a minus sign after its leading white space
    is never above zero. *)
Lemma parseInt_starts_with_minus (id : JsString) :
  starts_with_minus id -> js_lt pos_zero (parseInt_string id) = false.
Proof.
  unfold starts_with_minus. intros H.
  apply signed_negative_not_positive. unfold parseInt_string.
  destruct (trim_start id) as [|c s]; [contradiction|]. subst c.
  change (read_sign (45%N :: s)) with (true, s).
  cbv beta iota.
  destruct (starts_with (lit "0x") s || starts_with (lit "0X") s).
  - destruct (read_radix_digits 16 (skipn 2 s) None) as [[|p]|]; simpl; auto.
    apply binary_round_signed.
  - destruct (read_radix_digits 10 s None) as [[|p]|]; simpl; auto.
    apply binary_round_signed.
Qed.

Lemma starts_with_zero_other (c : code_unit) (p s : JsString) :
  c <> 48%N -> starts_with (48%N :: p) (c :: s) = false.
Proof.
  intros H.
  change (starts_with (48%N :: p) (c :: s))
    with (code_unit_eqb 48%N c && starts_with p s).
  replace (code_unit_eqb 48%N c) with false; [reflexivity|].
  symmetry. apply N.eqb_neq. congruence.
Qed.

(** [parseInt] of a string in which no digit follows the white space and
    the sign is NaN. *)
Lemma parseInt_no_leading_digit (id : JsString) :
  no_leading_digit id -> parseInt_string id = NaN.
Proof.
  unfold no_leading_digit, after_sign, parseInt_string.
  destruct (read_sign (trim_start id)) as [neg s1]. cbn [snd].
  destruct s1 as [|c r]; [reflexivity|]. intros Hdigit.
  assert (H48 : c <> 48%N) by (intros ->; discriminate).
  change (lit "0x") with (48%N :: lit "x").
  change (lit "0X") with (48%N :: lit "X").
  rewrite !starts_with_zero_other by assumption. cbv beta iota. unfold orb.
  unfold read_radix_digits, radix_digit_value.
  change (10 =? 16)%N with false. cbv iota. rewrite Hdigit. reflexivity.
Qed.

(** [parseInt] of a string that reads as zero is a zero. *)
Lemma parseInt_reads_zero (id : JsString) :
  reads_zero id -> exists neg, parseInt_string id = S754_zero neg.
Proof.
  unfold reads_zero, after_sign, parseInt_string.
  destruct (read_sign (trim_start id)) as [neg s1]. cbn [snd].
  destruct s1 as [|c s]; [contradiction|]. intros [-> Hs]. exists neg.
  destruct s as [|d r]; [reflexivity|].
  destruct Hs as [Hdigit [Hx HX]].
  match goal with
  | |- context [if ?b then _ else _] => assert (E : b = false)
  end.
  { change (starts_with (lit "0x") (48%N :: d :: r))
      with (code_unit_eqb 120%N d && true).
    change (starts_with (lit "0X") (48%N :: d :: r))
      with (code_unit_eqb 88%N d && true).
    replace (code_unit_eqb 120%N d) with false
      by (symmetry; apply N.eqb_neq; congruence).
    replace (code_unit_eqb 88%N d) with false
      by (symmetry; apply N.eqb_neq; congruence).
    reflexivity. }
  rewrite E. cbv beta iota.
  unfold read_radix_digits, radix_digit_value.
  change (10 =? 16)%N with false. cbv iota.
  change (is_digit 48%N) with true. cbv iota. rewrite Hdigit. reflexivity.
Qed.

(** C2, as amended.  A path identifier that [parseInt] does not read as a
    number above zero is answered 400 with the message of an invalid
    identifier, and the pool is not called.  So are the identifier [0] and
    every identifier that reads as zero, every identifier with a minus sign
    after its leading white space, and every identifier in which no digit
    follows the leading white space and the sign: the empty one, a blank
    one, and one that starts with any other character. *)
Theorem delete_rejects_invalid_id
        {St : Type} (pool : St -> JsString -> list JsValue -> QueryOutcome * St)
        (st : St) :
  let rejected (id : JsString) :=
    serve pool (delete_expense id) st
    = ([ESend 400 (error_body "Invalid expense ID")], st) in
  (forall id, js_lt pos_zero (parseInt_string id) = false -> rejected id)
  /\ rejected (lit "0")
  /\ (forall id, reads_zero id -> rejected id)
  /\ (forall id, starts_with_minus id -> rejected id)
  /\ (forall id, no_leading_digit id -> rejected id).
Proof.
  intros rejected.
  assert (H : forall id, js_lt pos_zero (parseInt_string id) = false ->
                         rejected id).
  { intros id Hid. apply delete_expense_invalid. exact Hid. }
  split; [|split; [|split; [|split]]].
  - exact H.
  - apply H. reflexivity.
  - intros id Hid. apply H.
    destruct (parseInt_reads_zero id Hid) as [[] ->]; reflexivity.
  - intros id Hid. apply H, parseInt_starts_with_minus, Hid.
  - intros id Hid. apply H.
    rewrite (parseInt_no_leading_digit id Hid). reflexivity.
Qed.

Lemma delete_rejects_invalid_id_witness :
  serve Table.query (delete_expense (lit "abc")) Table.empty
  = ([ESend 400 (error_body "Invalid expense ID")], Table.empty)
  /\ serve Table.query (delete_expense (lit " -1")) Table.empty
     = ([ESend 400 (error_body "Invalid expense ID")], Table.empty)
  /\ serve Table.query (delete_expense (lit "+0.5")) Table.empty
     = ([ESend 400 (error_body "Invalid expense ID")], Table.empty)
  /\ serve Table.query (delete_expense (lit "0x")) Table.empty
     = ([ESend 400 (error_body "Invalid expense ID")], Table.empty).
Proof.
  split; [|split; [|split]].
  - apply (proj2 (proj2 (proj2 (proj2
             (delete_rejects_invalid_id Table.query Table.empty))))).
    reflexivity.
  - apply (proj1 (proj2 (proj2 (proj2
             (delete_rejects_invalid_id Table.query Table.empty))))).
    reflexivity.
  - apply (proj1 (proj2 (proj2
             (delete_rejects_invalid_id Table.query Table.empty)))).
    vm_compute. repeat split; discriminate.
  - apply (proj1 (delete_rejects_invalid_id Table.query Table.empty)).
    reflexivity.
Defined.

(** C2, as stated, fails on identifiers that are no numbers but start with
    digits: [parseInt] reads the digits and leaves the rest.  The
    identifiers [1abc] and [1.9] are read as 1, pass the check, and the row
    1 is deleted with the answer 200; [0x1A] is read as 26 and reaches the
    existence query. *)
Lemma delete_invalid_id_claim_counterexample :
  serve Table.query (delete_expense (lit "1abc"))
    {| Table.expenses :=
         [{| Table.id := 1; Table.item_name := lit "Coffee";
             Table.amount := 875; Table.category := Some (lit "Other");
             Table.created_at := 10 |}];
       Table.next_id := 2; Table.now := 30 |}
  = ([EQuery select_by_id_text [JNum (number_of_Z 1)]
        (Resolved
           [Table.row_value
              {| Table.id := 1; Table.item_name := lit "Coffee";
                 Table.amount := 875; Table.category := Some (lit "Other");
                 Table.created_at := 10 |}]);
      EQuery delete_text [JNum (number_of_Z 1)] (Resolved []);
      ESend 200
        (JObj [(lit "message", JStr (lit "Expense deleted successfully"));
               (lit "id", JNum (number_of_Z 1))])],
     {| Table.expenses := []; Table.next_id := 2; Table.now := 30 |})
  /\ responses
       (fst (serve Table.query (delete_expense (lit "1.9"))
               {| Table.expenses :=
                    [{| Table.id := 1; Table.item_name := lit "Coffee";
                        Table.amount := 875;
                        Table.category := Some (lit "Other");
                        Table.created_at := 10 |}];
                  Table.next_id := 2; Table.now := 30 |}))
     = [200]
  /\ parseInt_string (lit "0x1A") = number_of_Z 26
  /\ serve Table.query (delete_expense (lit "0x1A")) Table.empty
     = ([EQuery select_by_id_text [JNum (number_of_Z 26)] (Resolved []);
         ESend 404 (error_body "Expense not found")], Table.empty).
Proof. repeat split; vm_compute; reflexivity. Qed.

(** ** Every path of the create handler *)

Lemma item_name_missing_false (v : JsValue) :
  item_name_missing v = Normal false ->
  exists name, v = JStr name /\ trim name <> [].
Proof.
  unfold item_name_missing. destruct (ToBoolean v); simpl; [|discriminate].
  destruct v; simpl; try discriminate.
  intros H. exists s. split; [reflexivity|].
  intros E. rewrite E in H. discriminate.
Qed.

Lemma post_expenses_paths
      {St : Type} (pool : St -> JsString -> list JsValue -> QueryOutcome * St)
      (body : JsValue) (st : St) :
  create_path pool body st (serve pool (post_expenses body) st).
Proof.
  destruct (destructure_body body) as [[[itemName amount] category]|e] eqn:Hb.
  2:{ unfold serve, post_expenses. rewrite Hb. simpl.
      rewrite (destructure_body_abrupt _ _ Hb). constructor. }
  destruct (item_name_missing itemName) as [[|]|e] eqn:Hm.
  - unfold serve, post_expenses. rewrite Hb. simpl. rewrite Hm. simpl.
    apply create_rejected. simpl; auto.
  - destruct (item_name_missing_false _ Hm) as [name [-> Hname]].
    destruct (is_nullish amount) eqn:Ha.
    { unfold serve, post_expenses. rewrite Hb. simpl. rewrite Hm. simpl.
      rewrite Ha. simpl. apply create_rejected. simpl; auto. }
    destruct (parseFloat amount) as [x|e] eqn:Hp.
    2:{ unfold serve, post_expenses. rewrite Hb. simpl. rewrite Hm. simpl.
        rewrite Ha, Hp. simpl.
        rewrite (parseFloat_abrupt _ _ Hp). constructor. }
    destruct (js_le pos_zero x) eqn:Hx.
    + rewrite (post_expenses_accepted pool body amount category name x st)
        by assumption.
      apply create_accepted with (amount := amount); assumption.
    + rewrite (post_expenses_bad_amount body amount category name x)
        by assumption.
      rewrite serve_respond. apply create_rejected. simpl; auto.
  - unfold serve, post_expenses. rewrite Hb. simpl. rewrite Hm. simpl.
    rewrite (item_name_missing_abrupt _ _ Hm). constructor.
Qed.

(** ** Every path of the read and delete handlers *)

Section AnyPoolPaths.

Context {St : Type}.
Variable pool : St -> JsString -> list JsValue -> QueryOutcome * St.

Lemma get_expenses_path (category : JsValue) (st : St) :
  let '(text, params) := list_query category in
  serve pool (get_expenses category) st
  = (EQuery text params (fst (pool st text params))
       :: after_list (fst (pool st text params)),
     snd (pool st text params)).
Proof.
  unfold serve, get_expenses.
  destruct (list_query category) as [text params]. simpl.
  destruct (pool st text params) as [[rows|reason] st1]; reflexivity.
Qed.

Lemma get_total_path (category : JsValue) (st : St) :
  let '(text, params) := total_query category in
  serve pool (get_total category) st
  = (EQuery text params (fst (pool st text params))
       :: after_total (fst (pool st text params)),
     snd (pool st text params)).
Proof.
  unfold serve, get_total.
  destruct (total_query category) as [text params]. simpl.
  destruct (pool st text params) as [[rows|reason] st1]; simpl;
    [|reflexivity].
  destruct (get_property (first_row rows) (lit "total")) as [field|e];
    simpl; [|reflexivity].
  destruct (parseFloat field) as [total|e]; reflexivity.
Qed.

(** The delete handler on an identifier that passed the check: the
    existence query, then the delete statement only when a row came
    back. *)
Lemma delete_expense_path (id : JsString) (st : St) :
  js_lt pos_zero (parseInt_string id) = true ->
  let expenseId := JNum (parseInt_string id) in
  let failed :=
    caught "Error deleting expense:"
      "Failed to delete expense from database" in
  let '(found, st1) := pool st select_by_id_text [expenseId] in
  serve pool (delete_expense id) st
  = match found with
    | Failed reason =>
        (EQuery select_by_id_text [expenseId] found
           :: failed (Rejection reason), st1)
    | Resolved [] =>
        ([EQuery select_by_id_text [expenseId] found;
          ESend 404 (error_body "Expense not found")], st1)
    | Resolved (_ :: _) =>
        let '(deleted, st2) := pool st1 delete_text [expenseId] in
        (EQuery select_by_id_text [expenseId] found
           :: EQuery delete_text [expenseId] deleted
           :: match deleted with
              | Resolved _ =>
                  [ESend 200
                     (JObj [(lit "message",
                              JStr (lit "Expense deleted successfully"));
                            (lit "id", expenseId)])]
              | Failed reason => failed (Rejection reason)
              end, st2)
    end.
Proof.
  intros Hid. unfold serve, delete_expense.
  rewrite id_guard, Hid. simpl.
  destruct (pool st select_by_id_text _) as [[[|r rows]|reason] st1];
    try reflexivity.
  simpl.
  destruct (pool st1 delete_text _) as [[rows'|reason] st2]; reflexivity.
Qed.

End AnyPoolPaths.

(** ** The query builder *)

Lemma insert_desc_In (r x : Table.Expense) (l : list Table.Expense) :
  In x (Table.insert_desc r l) <-> x = r \/ In x l.
Proof.
  induction l as [|y l IH]; simpl.
  - split; intros [H|H]; auto.
  - destruct (Table.created_at y <=? Table.created_at r); simpl.
    + split; intros [H|H]; auto.
    + rewrite IH. split; intros [H|[H|H]]; auto.
Qed.

(** Ordering the rows neither drops nor invents one. *)
Lemma order_by_created_at_desc_In (x : Table.Expense)
      (l : list Table.Expense) :
  In x (Table.order_by_created_at_desc l) <-> In x l.
Proof.
  induction l as [|y l IH]; simpl; [tauto|].
  rewrite insert_desc_In, IH. split; intros [H|H]; auto.
Qed.

Lemma insert_desc_sorted (r : Table.Expense) (l : list Table.Expense) :
  newest_first l -> newest_first (Table.insert_desc r l).
Proof.
  unfold newest_first. induction 1 as [|x l Hl IH Hx]; simpl.
  - repeat constructor.
  - destruct (Table.created_at x <=? Table.created_at r) eqn:E.
    + apply Z.leb_le in E. repeat constructor; assumption.
    + apply Z.leb_gt in E. constructor; [exact IH|].
      destruct l as [|y l]; simpl.
      * constructor. lia.
      * destruct (Table.created_at y <=? Table.created_at r);
          constructor; [lia|]. inversion Hx; assumption.
Qed.

Lemma order_by_created_at_desc_sorted (l : list Table.Expense) :
  newest_first (Table.order_by_created_at_desc l).
Proof.
  induction l as [|x l IH]; simpl; [constructor|].
  apply insert_desc_sorted, IH.
Qed.

Lemma table_list_query (c : option JsString) (db : Table.Database) :
  let '(text, params) := list_query (category_param c) in
  Table.query db text params
  = (Resolved (map Table.row_value
                 (Table.order_by_created_at_desc (matching c db))), db).
Proof.
  unfold matching. destruct c as [[|u s]|]; reflexivity.
Qed.

Lemma matching_all (c : option JsString) (db : Table.Database) :
  c = None \/ c = Some [] -> matching c db = Table.expenses db.
Proof. intros [-> | ->]; reflexivity. Qed.

Lemma matching_category (s : JsString) (db : Table.Database)
      (r : Table.Expense) :
  s <> [] ->
  In r (matching (Some s) db)
  <-> In r (Table.expenses db) /\ Table.category r = Some s.
Proof.
  intros Hs. unfold matching. destruct s as [|u s]; [contradiction|].
  cbn [category_param ToBoolean]. rewrite filter_In.
  unfold Table.category_is. destruct (Table.category r) as [c|].
  - rewrite js_string_eqb_eq. split; intros [H1 H2]; split; congruence.
  - split; intros [H1 H2]; discriminate.
Qed.

(** C3.  With the category absent or empty the list and total queries have
    no predicate and no parameter, the list ordered by [created_at]
    descending; with any other string an equality predicate on [category]
    is appended, bound to that very string, whether or not it is one of the
    six labels.  The query built is the one statement the handler issues.
    On the table the list comes newest first, with every row when the
    category is absent or empty and with the rows of exactly that category
    otherwise. *)
Theorem read_queries_filter_by_bound_parameter :
  (forall category,
      category = JUndefined \/ category = JStr [] ->
      list_query category
      = (lit "SELECT * FROM expenses ORDER BY created_at DESC", [])
      /\ total_query category
         = (lit "SELECT COALESCE(SUM(amount), 0) as total FROM expenses", []))
  /\ (forall s,
         s <> [] ->
         list_query (JStr s)
         = (lit "SELECT * FROM expenses WHERE category = $1 ORDER BY created_at DESC",
            [JStr s])
         /\ total_query (JStr s)
            = (lit "SELECT COALESCE(SUM(amount), 0) as total FROM expenses WHERE category = $1",
               [JStr s]))
  /\ (forall (St : Type)
             (pool : St -> JsString -> list JsValue -> QueryOutcome * St)
             (st : St) (category : JsValue),
         queries (fst (serve pool (get_expenses category) st))
         = [list_query category]
         /\ queries (fst (serve pool (get_total category) st))
            = [total_query category])
  /\ (forall (db : Table.Database) (c : option JsString),
         let listed := Table.order_by_created_at_desc (matching c db) in
         responses_sent
           (fst (serve Table.query (get_expenses (category_param c)) db))
         = [(200, JObj [(lit "expenses", JArr (map Table.row_value listed))])]
         /\ newest_first listed
         /\ (c = None \/ c = Some [] ->
             forall r, In r listed <-> In r (Table.expenses db))
         /\ (forall s, c = Some s -> s <> [] ->
                       forall r, In r listed
                                 <-> In r (Table.expenses db)
                                     /\ Table.category r = Some s)).
Proof.
  split; [|split; [|split]].
  - intros category [-> | ->]; split; reflexivity.
  - intros [|c s] Hs; [contradiction|]. split; reflexivity.
  - intros St pool st category. split.
    + generalize (get_expenses_path pool category st).
      destruct (list_query category) as [text params]. intros ->. simpl.
      destruct (fst (pool st text params)); reflexivity.
    + generalize (get_total_path pool category st).
      destruct (total_query category) as [text params]. intros ->. simpl.
      unfold after_total.
      destruct (fst (pool st text params)) as [rows|reason];
        [|reflexivity].
      destruct (cbind _ parseFloat); reflexivity.
  - intros db c listed. split; [|split; [|split]].
    + generalize (get_expenses_path Table.query (category_param c) db).
      generalize (table_list_query c db).
      destruct (list_query (category_param c)) as [text params].
      intros -> ->. reflexivity.
    + apply order_by_created_at_desc_sorted.
    + intros Hc r. unfold listed.
      rewrite order_by_created_at_desc_In, (matching_all c db Hc). tauto.
    + intros s -> Hs r. unfold listed.
      rewrite order_by_created_at_desc_In. apply matching_category, Hs.
Qed.

Lemma read_queries_filter_by_bound_parameter_witness :
  list_query (JStr (lit "Groceries"))
  = (lit "SELECT * FROM expenses WHERE category = $1 ORDER BY created_at DESC",
     [JStr (lit "Groceries")])
  /\ total_query (JStr [])
     = (lit "SELECT COALESCE(SUM(amount), 0) as total FROM expenses", []).
Proof.
  split.
  - apply (proj1 (proj2 read_queries_filter_by_bound_parameter)).
    vm_compute. discriminate.
  - apply (proj1 read_queries_filter_by_bound_parameter).
    right. reflexivity.
Defined.

(** ** One response for every request *)

Ltac answered status :=
  exists status; split; [reflexivity | simpl; tauto].

Ltac reported :=
  let H := fresh in
  intros ? ? ? H; simpl in H;
  repeat (destruct H as [H|H]; [try discriminate|]);
  try contradiction;
  try (inversion H; subst; split; [reflexivity | simpl; auto]).

(** C4.  Whatever the body, the query string or the path identifier, and
    whatever the pool answers, a request served by Express gets exactly one
    response, with status 200, 201, 400, 404 or 500; a statement that the
    pool rejects is answered 500 and logged.  A body that makes the create
    handler throw (an [itemName] that is not a string, for one) is answered
    500 by the final handler of the framework. *)
Theorem every_request_answered_once
        {St : Type} (pool : St -> JsString -> list JsValue -> QueryOutcome * St)
        (st : St) :
  let well_answered (handler : Prog unit) :=
    answered_once (fst (serve pool handler st))
    /\ failures_reported (fst (serve pool handler st)) in
  (forall body, well_answered (post_expenses body))
  /\ (forall category, well_answered (get_expenses category))
  /\ (forall category, well_answered (get_total category))
  /\ (forall id, well_answered (delete_expense id)).
Proof.
  intros well_answered. unfold well_answered. split; [|split; [|split]].
  - intros body.
    destruct (post_expenses_paths pool body st)
      as [ | message Hm | name amount category x _ _ _ _ _ params]; simpl.
    + split; [answered 500 | reported].
    + split; [answered 400 | reported].
    + destruct (fst (pool st insert_text params)) as [rows|reason]; simpl;
        (split; [first [answered 201 | answered 500] | reported]).
  - intros category. generalize (get_expenses_path pool category st).
    destruct (list_query category) as [text params]. intros ->. simpl.
    destruct (fst (pool st text params)) as [rows|reason]; simpl;
      (split; [first [answered 200 | answered 500] | reported]).
  - intros category. generalize (get_total_path pool category st).
    destruct (total_query category) as [text params]. intros ->. simpl.
    unfold after_total.
    destruct (fst (pool st text params)) as [rows|reason]; simpl;
      [destruct (cbind _ parseFloat); simpl|];
      (split; [first [answered 200 | answered 500] | reported]).
  - intros id. destruct (js_lt pos_zero (parseInt_string id)) eqn:Hid.
    + generalize (delete_expense_path pool id st Hid). cbv zeta.
      destruct (pool st select_by_id_text _) as [[[|r rows]|reason] st1].
      * intros ->. simpl. split; [answered 404 | reported].
      * destruct (pool st1 delete_text _) as [[rows'|reason] st2];
          intros ->; simpl;
          (split; [first [answered 200 | answered 500] | reported]).
      * intros ->. simpl. split; [answered 500 | reported].
    + rewrite (delete_expense_invalid pool id st Hid). simpl.
      split; [answered 400 | reported].
Qed.

Lemma every_request_answered_once_witness :
  answered_once
    (fst (serve Table.query
            (post_expenses
               (create_body (JNum (number_of_Z 123)) (JNum (number_of_Z 5))
                  JUndefined))
            Table.empty)).
Proof.
  apply (proj1 (every_request_answered_once Table.query Table.empty)).
Defined.

(** An [itemName] that is not a string and is not falsy makes the handler
    itself throw before it responds: [itemName.trim] is not a function.  The
    one response is the error page of the framework. *)
Lemma post_expenses_item_name_not_a_string :
  let body :=
    create_body (JNum (number_of_Z 123)) (JNum (number_of_Z 5)) JUndefined in
  run Table.query (post_expenses body) Table.empty
  = ([], Abrupt TypeError, Table.empty)
  /\ serve Table.query (post_expenses body) Table.empty
     = ([EErrorPage 500; ELog [] TypeError], Table.empty).
Proof. split; reflexivity. Qed.

(** ** The order of the checks of a create request *)



(** ** The category of a create request *)

Lemma includes_iff (array : list JsString) (v : JsValue) :
  includes array v = true <-> exists c, In c array /\ v = JStr c.
Proof.
  unfold includes. rewrite existsb_exists. split.
  - intros [c [Hin Heq]]. destruct v; simpl in Heq; try discriminate.
    apply js_string_eqb_eq in Heq. subst. eauto.
  - intros [c [Hin ->]]. exists c. split; [assumption|].
    apply js_string_eqb_refl.
Qed.

Lemma expenseCategory_valid (category : JsValue) :
  exists c, expenseCategory category = JStr c /\ In c validCategories.
Proof.
  unfold expenseCategory.
  destruct (ToBoolean category && includes validCategories category) eqn:E.
  - apply andb_true_iff in E. destruct E as [_ E].
    apply includes_iff in E. destruct E as [c [Hin ->]]. eauto.
  - exists (lit "Other"). split; [reflexivity|]. simpl; tauto.
Qed.

Lemma expenseCategory_member (c : JsString) :
  In c validCategories -> expenseCategory (JStr c) = JStr c.
Proof.
  intros H. simpl in H.
  repeat (destruct H as [<- | H]; [reflexivity|]). contradiction.
Qed.

Lemma expenseCategory_other (category : JsValue) :
  (forall c, In c validCategories -> category <> JStr c) ->
  expenseCategory category = JStr (lit "Other").
Proof.
  intros H. unfold expenseCategory.
  destruct (includes validCategories category) eqn:E.
  - apply includes_iff in E. destruct E as [c [Hin Heq]].
    exfalso. exact (H c Hin Heq).
  - rewrite andb_false_r. reflexivity.
Qed.

(** The table answers the insert of the create handler with [insert]. *)
Lemma table_query_insert (db : Table.Database) (p1 p2 p3 : JsValue) :
  Table.query db insert_text [p1; p2; p3] = Table.insert db p1 p2 p3.
Proof. reflexivity. Qed.

Lemma destructure_body_category (body itemName amount category : JsValue) :
  destructure_body body = Normal (itemName, amount, category) ->
  get_property body (lit "category") = Normal category.
Proof.
  unfold destructure_body.
  destruct (get_property body (lit "itemName")); simpl; [|discriminate].
  destruct (get_property body (lit "amount")); simpl; [|discriminate].
  destruct (get_property body (lit "category")); simpl; [|discriminate].
  intros H; inversion H; reflexivity.
Qed.

(** C6.  The category bound by a create request is one of the six labels:
    the supplied one when it is one of them, [Other] otherwise (absent,
    another string, another kind of value).  A create request answered 201
    by the table has stored a row with that category and returned it. *)
Theorem stored_category_is_valid :
  (forall category,
      exists c, expenseCategory category = JStr c /\ In c validCategories)
  /\ (forall c, In c validCategories -> expenseCategory (JStr c) = JStr c)
  /\ (forall category,
         (forall c, In c validCategories -> category <> JStr c) ->
         expenseCategory category = JStr (lit "Other"))
  /\ (forall db body evs db',
         serve Table.query (post_expenses body) db = (evs, db') ->
         responses evs = [201] ->
         exists r c category,
           get_property body (lit "category") = Normal category
           /\ expenseCategory category = JStr c
           /\ In c validCategories
           /\ Table.expenses db' = Table.expenses db ++ [r]
           /\ Table.category r = Some c
           /\ In (ESend 201
                    (JObj [(lit "message",
                             JStr (lit "Expense added successfully"));
                           (lit "expense", Table.row_value r)])) evs).
Proof.
  split; [exact expenseCategory_valid|].
  split; [exact expenseCategory_member|].
  split; [exact expenseCategory_other|].
  intros db body evs db' Hserve Hresp.
  pose proof (post_expenses_paths Table.query body db) as P.
  rewrite Hserve in P.
  inversion P as [ | message Hm | name amount category x Hbody _ _ _ _ params];
    subst; try discriminate.
  destruct (expenseCategory_valid category) as [c [Hc Hin]].
  subst params. rewrite table_query_insert in *.
  unfold Table.insert in *. rewrite Hc in *.
  cbn [Table.prepare_value] in *.
  destruct (Table.has_nul (trim name) || Table.has_nul c);
    [discriminate|].
  destruct (Table.numeric_10_2_in (number_to_string x)) as [h|];
    [|discriminate].
  destruct ((Table.characters (trim name) <=? 255)
            && (Table.characters c <=? 50));
    [|discriminate].
  destruct (0 <=? h); [|discriminate].
  eexists; exists c, category.
  split; [exact (destructure_body_category _ _ _ _ Hbody)|].
  split; [exact Hc|]. split; [assumption|].
  split; [reflexivity|]. split; [reflexivity|].
  simpl. right. left. reflexivity.
Qed.

Lemma stored_category_is_valid_witness :
  expenseCategory (JStr (lit "Bills")) = JStr (lit "Bills")
  /\ exists r c category,
      get_property
        (create_body (JStr (lit "Coffee")) (JStr (lit "8.75"))
           (JStr (lit "Groceries")))
        (lit "category") = Normal category
      /\ expenseCategory category = JStr c
      /\ In c validCategories
      /\ Table.expenses
           (snd (serve Table.query
                   (post_expenses
                      (create_body (JStr (lit "Coffee")) (JStr (lit "8.75"))
                         (JStr (lit "Groceries"))))
                   Table.empty))
         = Table.expenses Table.empty ++ [r]
      /\ Table.category r = Some c
      /\ In (ESend 201
               (JObj [(lit "message", JStr (lit "Expense added successfully"));
                      (lit "expense", Table.row_value r)]))
            (fst (serve Table.query
                    (post_expenses
                       (create_body (JStr (lit "Coffee")) (JStr (lit "8.75"))
                          (JStr (lit "Groceries"))))
                    Table.empty)).
Proof.
  split.
  - apply (proj1 (proj2 stored_category_is_valid)). simpl; tauto.
  - apply (proj2 (proj2 (proj2 stored_category_is_valid))).
    + apply surjective_pairing.
    + vm_compute. reflexivity.
Defined.

(** ** Case of the category *)

(** C9.  Membership in the six labels is equality of strings, case
    included: [food], [FOOD] and any other spelling that differs from a
    label only by the case of its letters is bound as [Other]. *)
Theorem category_match_is_case_sensitive :
  expenseCategory (JStr (lit "food")) = JStr (lit "Other")
  /\ expenseCategory (JStr (lit "FOOD")) = JStr (lit "Other")
  /\ (forall s label,
         In label validCategories ->
         same_ignoring_case s label = true ->
         s <> label ->
         expenseCategory (JStr s) = JStr (lit "Other")).
Proof.
  split; [reflexivity|]. split; [reflexivity|].
  intros s label Hlabel Hcase Hneq.
  apply expenseCategory_other. intros c Hc Heq.
  inversion Heq; subst c. clear Heq.
  simpl in Hlabel, Hc.
  repeat (destruct Hc as [<- | Hc]);
    repeat (destruct Hlabel as [<- | Hlabel]);
    try contradiction; try (apply Hneq; reflexivity);
    vm_compute in Hcase; discriminate.
Qed.

Lemma category_match_is_case_sensitive_witness :
  expenseCategory (JStr (lit "tRANSPORT")) = JStr (lit "Other").
Proof.
  apply (proj2 (proj2 category_match_is_case_sensitive)
           (lit "tRANSPORT") (lit "Transport")).
  - simpl; tauto.
  - reflexivity.
  - vm_compute. discriminate.
Defined.

(** ** Rounding never gives NaN *)

Lemma shr_1_nonneg (mrs : shr_record) :
  0 <= shr_m mrs -> 0 <= shr_m (shr_1 mrs).
Proof.
  destruct mrs as [m r s]. simpl.
  destruct m as [|[p|p|]|p]; simpl; intros H; lia.
Qed.

Lemma iter_shr_1_nonneg (p : positive) (mrs : shr_record) :
  0 <= shr_m mrs -> 0 <= shr_m (iter_pos shr_1 p mrs).
Proof.
  revert mrs. induction p as [p IH|p IH|]; intros mrs H; simpl.
  - apply IH, IH, shr_1_nonneg, H.
  - apply IH, IH, H.
  - apply shr_1_nonneg, H.
Qed.

Lemma shr_fexp_nonneg (m e : Z) (l : location) :
  0 <= m -> 0 <= shr_m (fst (shr_fexp prec emax m e l)).
Proof.
  intros H. unfold shr_fexp, shr.
  assert (H0 : 0 <= shr_m (shr_record_of_loc m l)).
  { destruct l as [|[]]; exact H. }
  destruct (fexp prec emax (Zdigits2 m + e) - e); simpl; auto.
  apply iter_shr_1_nonneg, H0.
Qed.

Lemma round_nearest_even_nonneg (m : Z) (l : location) :
  0 <= m -> 0 <= round_nearest_even m l.
Proof.
  intros H. destruct l as [|[]]; simpl; try lia.
  destruct (Z.even m); lia.
Qed.

Lemma binary_round_aux_not_nan (s : bool) (m e : Z) (l : location) :
  0 <= m -> isNaN (binary_round_aux prec emax s m e l) = false.
Proof.
  intros H. unfold binary_round_aux.
  pose proof (shr_fexp_nonneg m e l H) as H1.
  destruct (shr_fexp prec emax m e l) as [mrs e1]. simpl in H1.
  pose proof (shr_fexp_nonneg _ e1 loc_Exact
                (round_nearest_even_nonneg _ (loc_of_shr_record mrs) H1)) as H2.
  destruct (shr_fexp prec emax _ e1 loc_Exact) as [mrs2 e2]. simpl in H2.
  destruct (shr_m mrs2); try reflexivity; [|lia].
  destruct (e2 <=? _); reflexivity.
Qed.

Lemma binary_round_not_nan (s : bool) (m : positive) (e : Z) :
  isNaN (binary_round prec emax s m e) = false.
Proof.
  unfold binary_round. destruct (shl_align m e _) as [mz ez].
  apply binary_round_aux_not_nan. lia.
Qed.

Lemma number_of_decimal_not_nan (neg : bool) (m : N) (e10 : Z) :
  isNaN (number_of_decimal neg m e10) = false.
Proof.
  unfold number_of_decimal. destruct m as [|p]; [reflexivity|].
  destruct (0 <=? e10); [apply binary_round_not_nan|].
  unfold SFdiv, SFdiv_core_binary.
  set (mm := match _ - _ - _ with Z0 => _ | Zpos _ => _ | Zneg _ => _ end).
  assert (Hm : 0 <= mm).
  { subst mm. destruct (_ - _ - _); try lia. apply Z.shiftl_nonneg. lia. }
  pose proof (Z.div_pos mm (Z.pos (Z.to_pos (10 ^ (- e10)))) Hm ltac:(lia)) as Hq.
  unfold Z.div in Hq.
  destruct (Z.div_eucl mm _) as [q r]. simpl in Hq.
  apply binary_round_aux_not_nan. exact Hq.
Qed.

(** ** The text of a [NUMERIC] value reads as a number *)

Lemma is_digit_digit_char (d : Z) :
  0 <= d < 10 -> is_digit (digit_char d) = true.
Proof.
  intros H. unfold is_digit, digit_char.
  apply andb_true_iff; split; apply N.leb_le; lia.
Qed.

Lemma decimal_digits_fuel_head (fuel : nat) :
  forall n acc,
    0 <= n ->
    head_digit acc \/ (acc = [] /\ fuel <> O) ->
    head_digit (decimal_digits_fuel fuel n acc).
Proof.
  induction fuel as [|f IH]; intros n acc Hn H; simpl.
  - destruct H as [H | [_ H]]; [exact H | contradiction].
  - destruct (n <? 10) eqn:E.
    + apply Z.ltb_lt in E. simpl. apply is_digit_digit_char. lia.
    + apply IH.
      * apply Z.div_pos; lia.
      * left. simpl. apply is_digit_digit_char.
        apply Z.mod_pos_bound. lia.
Qed.

Lemma decimal_digits_head (n : Z) : 0 <= n -> head_digit (decimal_digits n).
Proof.
  intros H. unfold decimal_digits. apply decimal_digits_fuel_head; auto.
Qed.

Lemma digit_not_white_space (c : code_unit) :
  is_digit c = true -> is_white_space c = false.
Proof.
  unfold is_digit, is_white_space. intros H.
  apply andb_true_iff in H. destruct H as [H1 H2].
  apply N.leb_le in H1, H2. cbv zeta.
  repeat match goal with
         | |- context [Z.of_N c =? ?k] =>
             replace (Z.of_N c =? k) with false
               by (symmetry; apply Z.eqb_neq; lia)
         end.
  replace (8192 <=? Z.of_N c) with false by (symmetry; apply Z.leb_gt; lia).
  reflexivity.
Qed.

Lemma decimal_digits_fuel_all (fuel : nat) :
  forall n acc, 0 <= n -> all_digits acc ->
                all_digits (decimal_digits_fuel fuel n acc).
Proof.
  induction fuel as [|f IH]; intros n acc Hn Hacc; simpl; [exact Hacc|].
  destruct (n <? 10) eqn:E.
  - apply Z.ltb_lt in E. constructor; [|exact Hacc].
    apply is_digit_digit_char. lia.
  - apply IH; [apply Z.div_pos; lia|].
    constructor; [|exact Hacc].
    apply is_digit_digit_char. apply Z.mod_pos_bound. lia.
Qed.

Lemma decimal_digits_all (n : Z) : 0 <= n -> all_digits (decimal_digits n).
Proof.
  intros H. apply decimal_digits_fuel_all; [exact H | constructor].
Qed.

Lemma span_digits_app (ds rest : JsString) :
  all_digits ds ->
  span_digits (ds ++ rest)
  = (ds ++ fst (span_digits rest), snd (span_digits rest)).
Proof.
  induction 1 as [|c ds Hc Hds IH]; simpl.
  - destruct (span_digits rest); reflexivity.
  - rewrite Hc, IH. reflexivity.
Qed.

Lemma fold_digits (ds : JsString) (acc : N) :
  Z.of_N (fold_left (fun a c => (a * 10 + digit_value c)%N) ds acc)
  = Z.of_N acc * 10 ^ Z.of_nat (List.length ds) + value_of ds.
Proof.
  unfold value_of, digits_value. revert acc.
  induction ds as [|c ds IH]; intros acc.
  - simpl. lia.
  - cbn [fold_left List.length]. rewrite IH, (IH (0 * 10 + digit_value c)%N).
    rewrite Nat2Z.inj_succ, Z.pow_succ_r by lia. lia.
Qed.

Lemma value_of_cons (c : code_unit) (ds : JsString) :
  value_of (c :: ds)
  = Z.of_N (digit_value c) * 10 ^ Z.of_nat (List.length ds) + value_of ds.
Proof.
  unfold value_of at 1, digits_value. cbn [fold_left].
  rewrite fold_digits. lia.
Qed.

Lemma value_of_app (a b : JsString) :
  value_of (a ++ b) = value_of a * 10 ^ Z.of_nat (List.length b) + value_of b.
Proof.
  unfold value_of at 1, digits_value. rewrite fold_left_app.
  rewrite fold_digits. reflexivity.
Qed.

Lemma digit_value_digit_char (d : Z) :
  0 <= d < 10 -> Z.of_N (digit_value (digit_char d)) = d.
Proof. intros H. unfold digit_value, digit_char. lia. Qed.

Lemma decimal_digits_fuel_value (fuel : nat) :
  forall n acc,
    0 <= n < 2 ^ Z.of_nat fuel ->
    value_of (decimal_digits_fuel fuel n acc)
    = n * 10 ^ Z.of_nat (List.length acc) + value_of acc.
Proof.
  induction fuel as [|f IH]; intros n acc Hn.
  - simpl in *. assert (n = 0) by lia. subst. lia.
  - cbn [decimal_digits_fuel]. destruct (n <? 10) eqn:E.
    + apply Z.ltb_lt in E.
      rewrite value_of_cons, digit_value_digit_char by lia. reflexivity.
    + apply Z.ltb_ge in E.
      rewrite Nat2Z.inj_succ, Z.pow_succ_r in Hn by lia.
      rewrite IH.
      * rewrite value_of_cons, digit_value_digit_char
          by (apply Z.mod_pos_bound; lia).
        cbn [List.length]. rewrite Nat2Z.inj_succ, Z.pow_succ_r by lia.
        pose proof (Z.div_mod n 10 ltac:(lia)). nia.
      * split; [apply Z.div_pos; lia|].
        apply Z.div_lt_upper_bound; lia.
Qed.

Lemma decimal_digits_value (n : Z) : 0 <= n -> value_of (decimal_digits n) = n.
Proof.
  intros H. unfold decimal_digits.
  rewrite decimal_digits_fuel_value.
  - simpl. change (value_of []) with 0. lia.
  - split; [exact H|].
    rewrite Nat2Z.inj_succ, Z2Nat.id by apply Z.log2_nonneg.
    destruct (Z.eq_dec n 0) as [->|Hn]; [reflexivity|].
    apply Z.log2_spec. lia.
Qed.

Lemma value_of_pad2 (m : Z) : 0 <= m < 100 -> value_of (pad2 m) = m.
Proof.
  intros H. unfold pad2.
  assert (0 <= m / 10 < 10).
  { split; [apply Z.div_pos; lia | apply Z.div_lt_upper_bound; lia]. }
  pose proof (Z.mod_pos_bound m 10 ltac:(lia)).
  rewrite !value_of_cons, !digit_value_digit_char by lia.
  change (value_of []) with 0. simpl List.length.
  pose proof (Z.div_mod m 10 ltac:(lia)). lia.
Qed.

Lemma pad2_all (m : Z) : 0 <= m < 100 -> all_digits (pad2 m).
Proof.
  intros H. unfold pad2.
  assert (0 <= m / 10 < 10).
  { split; [apply Z.div_pos; lia | apply Z.div_lt_upper_bound; lia]. }
  pose proof (Z.mod_pos_bound m 10 ltac:(lia)).
  repeat constructor; apply is_digit_digit_char; lia.
Qed.

Lemma span_digits_all (ds : JsString) :
  all_digits ds -> span_digits ds = (ds, []).
Proof.
  induction 1 as [|c ds Hc Hds IH]; simpl; [reflexivity|].
  rewrite Hc, IH. reflexivity.
Qed.

(** A decimal with two places, read after its sign. *)
Lemma read_unsigned_decimal (neg : bool) (c : code_unit) (ds : JsString)
      (m : Z) :
  all_digits (c :: ds) -> 0 <= m < 100 ->
  (let '(int_digits, s2) := span_digits (c :: ds ++ lit "." ++ pad2 m) in
   let '(frac_digits, s3) :=
     match s2 with
     | c0 :: r => if (c0 =? 46)%N then span_digits r else ([], s2)
     | [] => ([], s2)
     end in
   match int_digits ++ frac_digits with
   | [] => None
   | x :: l =>
       let '(e, s4) := read_exponent s3 in
       Some (DecFinite neg (digits_value (x :: l))
               (e - Z.of_nat (List.length frac_digits)), s4)
   end)
  = Some (DecFinite neg (Z.to_N (value_of (c :: ds) * 100 + m)) (-2), []).
Proof.
  intros Hds Hm.
  change (c :: ds ++ lit "." ++ pad2 m) with ((c :: ds) ++ 46%N :: pad2 m).
  rewrite (span_digits_app (c :: ds) (46%N :: pad2 m) Hds).
  change (span_digits (46%N :: pad2 m)) with (@nil code_unit, 46%N :: pad2 m).
  cbn [fst snd]. rewrite app_nil_r.
  change (46 =? 46)%N with true. cbv iota.
  rewrite (span_digits_all (pad2 m) (pad2_all m Hm)).
  change ((c :: ds) ++ pad2 m) with (c :: (ds ++ pad2 m)). cbv iota.
  change (read_exponent []) with (0, @nil code_unit). cbv iota.
  change (c :: ds ++ pad2 m) with ((c :: ds) ++ pad2 m).
  f_equal. f_equal. f_equal.
  apply N2Z.inj. fold (value_of ((c :: ds) ++ pad2 m)).
  rewrite value_of_app, value_of_pad2 by exact Hm.
  unfold pad2. cbn [List.length].
  assert (0 <= value_of (c :: ds)) by (unfold value_of; lia).
  rewrite Z2N.id by lia. reflexivity.
Qed.

Lemma digit_not_sign (c : code_unit) :
  is_digit c = true ->
  (c =? 43)%N = false /\ (c =? 45)%N = false /\ code_unit_eqb 73%N c = false.
Proof.
  intros H. repeat split; apply N.eqb_neq; intros E; subst; discriminate.
Qed.

Lemma read_decimal_after_sign (c : code_unit) (s : JsString) :
  is_digit c = true ->
  read_decimal_literal (c :: s)
  = (let '(int_digits, s2) := span_digits (c :: s) in
     let '(frac_digits, s3) :=
       match s2 with
       | c0 :: r => if (c0 =? 46)%N then span_digits r else ([], s2)
       | [] => ([], s2)
       end in
     match int_digits ++ frac_digits with
     | [] => None
     | x :: l =>
         let '(e, s4) := read_exponent s3 in
         Some (DecFinite false (digits_value (x :: l))
                 (e - Z.of_nat (List.length frac_digits)), s4)
     end).
Proof.
  intros H. destruct (digit_not_sign c H) as [H1 [H2 H3]].
  unfold read_decimal_literal, read_sign. rewrite H1, H2.
  change (lit "Infinity") with (73%N :: lit "nfinity").
  change (starts_with (73%N :: lit "nfinity") (c :: s))
    with (code_unit_eqb 73%N c && starts_with (lit "nfinity") s).
  rewrite H3. reflexivity.
Qed.

Lemma read_decimal_minus (c : code_unit) (s : JsString) :
  is_digit c = true ->
  read_decimal_literal (45%N :: c :: s)
  = (let '(int_digits, s2) := span_digits (c :: s) in
     let '(frac_digits, s3) :=
       match s2 with
       | c0 :: r => if (c0 =? 46)%N then span_digits r else ([], s2)
       | [] => ([], s2)
       end in
     match int_digits ++ frac_digits with
     | [] => None
     | x :: l =>
         let '(e, s4) := read_exponent s3 in
         Some (DecFinite true (digits_value (x :: l))
                 (e - Z.of_nat (List.length frac_digits)), s4)
     end).
Proof.
  intros H. destruct (digit_not_sign c H) as [H1 [H2 H3]].
  unfold read_decimal_literal.
  change (read_sign (45%N :: c :: s)) with (true, c :: s). cbv beta iota.
  change (lit "Infinity") with (73%N :: lit "nfinity").
  change (starts_with (73%N :: lit "nfinity") (c :: s))
    with (code_unit_eqb 73%N c && starts_with (lit "nfinity") s).
  rewrite H3. reflexivity.
Qed.

(** The text of a [NUMERIC] value is read as the decimal it writes. *)
Lemma parseFloat_numeric_out (h : Z) :
  parseFloat_string (Table.numeric_out h) = number_of_hundredths h.
Proof.
  unfold Table.numeric_out, number_of_hundredths, parseFloat_string.
  pose proof (decimal_digits_all (Z.abs h / 100)
                ltac:(apply Z.div_pos; lia)) as Hall.
  pose proof (decimal_digits_value (Z.abs h / 100)
                ltac:(apply Z.div_pos; lia)) as Hval.
  pose proof (decimal_digits_head (Z.abs h / 100)
                ltac:(apply Z.div_pos; lia)) as Hhead.
  destruct (decimal_digits (Z.abs h / 100)) as [|c ds]; [contradiction|].
  simpl in Hhead.
  pose proof (Z.mod_pos_bound (Z.abs h) 100 ltac:(lia)) as Hm.
  pose proof (Z.div_mod (Z.abs h) 100 ltac:(lia)) as Hdm.
  destruct (h <? 0).
  - change (lit "-" ++ (c :: ds) ++ lit "." ++ pad2 (Z.abs h mod 100))
      with (45%N :: c :: ds ++ lit "." ++ pad2 (Z.abs h mod 100)).
    change (trim_start (45%N :: ?s)) with (45%N :: s).
    rewrite (read_decimal_minus c _ Hhead).
    rewrite (read_unsigned_decimal true c ds _ Hall Hm).
    simpl number_of_literal. rewrite Hval. f_equal. lia.
  - change ([] ++ (c :: ds) ++ lit "." ++ pad2 (Z.abs h mod 100))
      with (c :: ds ++ lit "." ++ pad2 (Z.abs h mod 100)).
    change (trim_start (c :: ?s))
      with (if is_white_space c then trim_start s else c :: s).
    rewrite (digit_not_white_space c Hhead).
    rewrite (read_decimal_after_sign c _ Hhead).
    rewrite (read_unsigned_decimal false c ds _ Hall Hm).
    simpl number_of_literal. rewrite Hval. f_equal. lia.
Qed.

(** ** The handlers on the table *)

Lemma total_row_text (rows : list Table.Expense) :
  Table.total_row rows = JObj [(lit "total", JStr (total_text rows))].
Proof. destruct rows; reflexivity. Qed.

Lemma table_total_query (c : option JsString) (db : Table.Database) :
  let '(text, params) := total_query (category_param c) in
  Table.query db text params
  = (Resolved [Table.total_row (matching c db)], db).
Proof.
  unfold matching. destruct c as [[|u s]|]; reflexivity.
Qed.

Lemma total_text_number (rows : list Table.Expense) :
  parseFloat_string (total_text rows) = total_number rows.
Proof.
  destruct rows; [reflexivity|]. apply parseFloat_numeric_out.
Qed.

Lemma total_number_not_nan (rows : list Table.Expense) :
  isNaN (total_number rows) = false.
Proof.
  destruct rows; [reflexivity|]. apply number_of_decimal_not_nan.
Qed.

(** C7.  On the table, a total request with an optional category string is
    answered 200 with one number: [0] when no row matches, and otherwise
    the Number value of the sum of the amounts of the matching rows (the
    binary64 number nearest to it).  It is never NaN, which JSON would carry
    as null.  Over the amounts [25.50] and [5.00] it is [30.5]. *)
Theorem total_is_the_sum_as_a_number :
  (forall (db : Table.Database) (c : option JsString),
      let '(text, params) := total_query (category_param c) in
      let rows := matching c db in
      serve Table.query (get_total (category_param c)) db
      = ([EQuery text params (Resolved [Table.total_row rows]);
          ESend 200 (JObj [(lit "total", JNum (total_number rows))])], db)
      /\ isNaN (total_number rows) = false
      /\ (rows = [] -> total_number rows = pos_zero)
      /\ (rows <> [] ->
          total_number rows = number_of_hundredths (sum_of_amounts rows)))
  /\ (forall r1 r2 next clock,
         Table.amount r1 = 2550 -> Table.amount r2 = 500 ->
         serve Table.query (get_total JUndefined)
           {| Table.expenses := [r1; r2];
              Table.next_id := next; Table.now := clock |}
         = ([EQuery
               (lit "SELECT COALESCE(SUM(amount), 0) as total FROM expenses")
               []
               (Resolved [JObj [(lit "total", JStr (lit "30.50"))]]);
             ESend 200
               (JObj [(lit "total", JNum (number_of_decimal false 305 (-1)))])],
            {| Table.expenses := [r1; r2];
               Table.next_id := next; Table.now := clock |})).
Proof.
  split.
  - intros db c.
    generalize (get_total_path Table.query (category_param c) db).
    generalize (table_total_query c db).
    destruct (total_query (category_param c)) as [text params].
    intros -> ->. cbv zeta. split; [|split; [|split]].
    + unfold fst, snd, after_total. rewrite total_row_text.
      change (cbind (get_property (first_row [JObj [(lit "total", ?v)]])
                       (lit "total")) parseFloat)
        with (parseFloat v).
      unfold parseFloat. cbn [ToString cbind].
      rewrite total_text_number. reflexivity.
    + apply total_number_not_nan.
    + intros ->. reflexivity.
    + intros H. destruct (matching c db); [contradiction | reflexivity].
  - intros [i1 n1 a1 c1 t1] [i2 n2 a2 c2 t2] next clock. simpl.
    intros -> ->. reflexivity.
Qed.

Lemma total_is_the_sum_as_a_number_witness :
  let r1 := {| Table.id := 1; Table.item_name := lit "Lunch at cafeteria";
               Table.amount := 2550; Table.category := Some (lit "Food");
               Table.created_at := 10 |} in
  let r2 := {| Table.id := 2; Table.item_name := lit "Bus fare";
               Table.amount := 500; Table.category := Some (lit "Transport");
               Table.created_at := 20 |} in
  responses
    (fst (serve Table.query (get_total JUndefined)
            {| Table.expenses := [r1; r2];
               Table.next_id := 3; Table.now := 30 |}))
  = [200].
Proof.
  intros r1 r2.
  rewrite (proj2 total_is_the_sum_as_a_number r1 r2 3 30 eq_refl eq_refl).
  reflexivity.
Defined.

(** ** Delete, then list *)

Lemma table_select_by_id (db : Table.Database) (p : JsValue) (i : Z) :
  Table.id_param p = Some (Some i) ->
  Table.query db select_by_id_text [p]
  = (Resolved (map Table.row_value
                 (filter (fun r => Table.id r =? i) (Table.expenses db))),
     db).
Proof.
  intros H.
  change (Table.query db select_by_id_text [p])
    with (match Table.id_param p with
          | Some i =>
              (Resolved (map Table.row_value
                           (filter (Table.id_is i) (Table.expenses db))), db)
          | None =>
              Table.failure db "invalid input syntax for type integer"
          end).
  rewrite H. reflexivity.
Qed.

Lemma table_delete (db : Table.Database) (p : JsValue) (i : Z) :
  Table.id_param p = Some (Some i) ->
  Table.query db delete_text [p]
  = (Resolved [],
     {| Table.expenses :=
          filter (fun r => negb (Table.id r =? i)) (Table.expenses db);
        Table.next_id := Table.next_id db; Table.now := Table.now db |}).
Proof.
  intros H.
  change (Table.query db delete_text [p])
    with (match Table.id_param p with
          | Some i =>
              (Resolved [],
               {| Table.expenses :=
                    filter (fun r => negb (Table.id_is i r))
                      (Table.expenses db);
                  Table.next_id := Table.next_id db;
                  Table.now := Table.now db |})
          | None =>
              Table.failure db "invalid input syntax for type integer"
          end).
  rewrite H. reflexivity.
Qed.

Lemma filter_none {A : Type} (f : A -> bool) (l : list A) :
  (forall x, In x l -> f x = false) -> filter f l = [].
Proof.
  induction l as [|y l IH]; simpl; intros H; [reflexivity|].
  rewrite (H y) by auto. apply IH. auto.
Qed.

Lemma filter_some {A : Type} (f : A -> bool) (l : list A) (x : A) :
  In x l -> f x = true -> filter f l <> [].
Proof.
  intros Hin Hf E.
  assert (H : In x (filter f l)) by (apply filter_In; auto).
  rewrite E in H. exact H.
Qed.

(** C8.  A delete request with a valid identifier.  Whatever the pool: when
    the existence query returns no row the answer is 404 and no delete
    statement is issued; when it returns a row the delete statement is
    issued and, once it succeeds, the answer is 200 with the identifier.
    On the table: an identifier that no row has is answered 404 and the
    table is unchanged; an identifier that a row has is answered 200, and a
    list request after it shows the remaining rows, none with that
    identifier. *)
Theorem delete_checks_then_deletes :
  (forall (St : Type)
          (pool : St -> JsString -> list JsValue -> QueryOutcome * St)
          (st : St) (id : JsString),
      js_lt pos_zero (parseInt_string id) = true ->
      let expenseId := JNum (parseInt_string id) in
      (forall st1,
          pool st select_by_id_text [expenseId] = (Resolved [], st1) ->
          serve pool (delete_expense id) st
          = ([EQuery select_by_id_text [expenseId] (Resolved []);
              ESend 404 (error_body "Expense not found")], st1))
      /\ (forall row rows st1 deleted st2,
             pool st select_by_id_text [expenseId]
             = (Resolved (row :: rows), st1) ->
             pool st1 delete_text [expenseId] = (Resolved deleted, st2) ->
             serve pool (delete_expense id) st
             = ([EQuery select_by_id_text [expenseId] (Resolved (row :: rows));
                 EQuery delete_text [expenseId] (Resolved deleted);
                 ESend 200
                   (JObj [(lit "message",
                            JStr (lit "Expense deleted successfully"));
                          (lit "id", expenseId)])], st2)))
  /\ (forall (db : Table.Database) (id : JsString) (i : Z),
         js_lt pos_zero (parseInt_string id) = true ->
         Table.id_param (JNum (parseInt_string id)) = Some (Some i) ->
         ((forall r, In r (Table.expenses db) -> Table.id r <> i) ->
          serve Table.query (delete_expense id) db
          = ([EQuery select_by_id_text [JNum (parseInt_string id)]
                (Resolved []);
              ESend 404 (error_body "Expense not found")], db))
         /\ ((exists r, In r (Table.expenses db) /\ Table.id r = i) ->
             let listed :=
               Table.order_by_created_at_desc
                 (Table.expenses (without i db)) in
             responses (fst (serve Table.query (delete_expense id) db))
             = [200]
             /\ snd (serve Table.query (delete_expense id) db) = without i db
             /\ serve Table.query (get_expenses JUndefined) (without i db)
                = ([EQuery
                      (lit "SELECT * FROM expenses ORDER BY created_at DESC")
                      [] (Resolved (map Table.row_value listed));
                    ESend 200
                      (JObj [(lit "expenses",
                               JArr (map Table.row_value listed))])],
                   without i db)
             /\ (forall r, In r listed -> Table.id r <> i)
             /\ (forall r, In r (Table.expenses db) -> Table.id r <> i ->
                           In r listed))).
Proof.
  split.
  - intros St pool st id Hid expenseId. split.
    + intros st1 H.
      generalize (delete_expense_path pool id st Hid). cbv zeta.
      fold expenseId. rewrite H. auto.
    + intros row rows st1 deleted st2 H1 H2.
      generalize (delete_expense_path pool id st Hid). cbv zeta.
      fold expenseId. rewrite H1, H2. auto.
  - intros db id i Hid Hparam. split.
    + intros Hnone.
      generalize (delete_expense_path Table.query id db Hid). cbv zeta.
      rewrite (table_select_by_id db _ i Hparam).
      rewrite filter_none; [auto|].
      intros r Hr. apply Z.eqb_neq. auto.
    + intros [r [Hr Hri]] listed.
      generalize (delete_expense_path Table.query id db Hid). cbv zeta.
      rewrite (table_select_by_id db _ i Hparam).
      destruct (filter (fun r0 => Table.id r0 =? i) (Table.expenses db))
        as [|r0 rest] eqn:E.
      { exfalso. apply (filter_some _ _ r Hr) in E; [exact E|].
        apply Z.eqb_eq. exact Hri. }
      simpl map. rewrite (table_delete db _ i Hparam). intros ->.
      split; [reflexivity|]. split; [reflexivity|].
      split; [reflexivity|]. split.
      * intros x Hx. unfold listed in Hx.
        apply (proj1 (order_by_created_at_desc_In _ _)) in Hx.
        simpl in Hx. apply filter_In in Hx. destruct Hx as [_ Hx].
        apply negb_true_iff, Z.eqb_neq in Hx. exact Hx.
      * intros x Hx Hxi. unfold listed.
        apply (proj2 (order_by_created_at_desc_In _ _)).
        simpl. apply filter_In. split; [exact Hx|].
        apply negb_true_iff, Z.eqb_neq. exact Hxi.
Qed.

Lemma delete_checks_then_deletes_witness :
  let coffee := {| Table.id := 1; Table.item_name := lit "Coffee";
                   Table.amount := 875; Table.category := Some (lit "Other");
                   Table.created_at := 10 |} in
  let lunch := {| Table.id := 2; Table.item_name := lit "Lunch";
                  Table.amount := 2550; Table.category := Some (lit "Food");
                  Table.created_at := 20 |} in
  let db := {| Table.expenses := [coffee; lunch];
               Table.next_id := 3; Table.now := 30 |} in
  responses (fst (serve Table.query (delete_expense (lit "1")) db)) = [200]
  /\ snd (serve Table.query (delete_expense (lit "1")) db) = without 1 db
  /\ Table.expenses (without 1 db) = [lunch]
  /\ serve Table.query (delete_expense (lit "7")) db
     = ([EQuery select_by_id_text [JNum (parseInt_string (lit "7"))]
           (Resolved []);
         ESend 404 (error_body "Expense not found")], db).
Proof.
  intros coffee lunch db.
  pose proof (proj2 delete_checks_then_deletes db (lit "1") 1
                eq_refl eq_refl) as [_ H1].
  pose proof (proj2 delete_checks_then_deletes db (lit "7") 7
                eq_refl eq_refl) as [H7 _].
  destruct H1 as [Ha [Hb _]].
  { exists coffee. split; [left; reflexivity | reflexivity]. }
  split; [exact Ha|]. split; [exact Hb|]. split; [reflexivity|].
  apply H7. intros r [<- | [<- | []]]; discriminate.
Defined.

(** ** What the responses carry *)

(** C10.  The create and list responses carry the rows as the pool
    delivered them, unchanged: [rows[0]] under [expense], the array of rows
    under [expenses].  Only the total is converted, with [parseFloat].  On
    the table an amount therefore shows as the text of the [NUMERIC] value
    in a listed row and as a Number in a total. *)
Theorem rows_are_returned_as_delivered :
  (forall (St : Type)
          (pool : St -> JsString -> list JsValue -> QueryOutcome * St)
          (st : St),
      (forall body name amount category x rows st1,
          destructure_body body = Normal (JStr name, amount, category) ->
          trim name <> [] ->
          is_nullish amount = false ->
          parseFloat amount = Normal x ->
          js_le pos_zero x = true ->
          let params := [JStr (trim name); JNum x; expenseCategory category] in
          pool st insert_text params = (Resolved rows, st1) ->
          serve pool (post_expenses body) st
          = ([EQuery insert_text params (Resolved rows);
              ESend 201
                (JObj [(lit "message", JStr (lit "Expense added successfully"));
                       (lit "expense", first_row rows)])], st1))
      /\ (forall category rows st1,
             pool st (fst (list_query category)) (snd (list_query category))
             = (Resolved rows, st1) ->
             serve pool (get_expenses category) st
             = ([EQuery (fst (list_query category))
                   (snd (list_query category)) (Resolved rows);
                 ESend 200 (JObj [(lit "expenses", JArr rows)])], st1))
      /\ (forall category rows st1 field total,
             pool st (fst (total_query category)) (snd (total_query category))
             = (Resolved rows, st1) ->
             get_property (first_row rows) (lit "total") = Normal field ->
             parseFloat field = Normal total ->
             serve pool (get_total category) st
             = ([EQuery (fst (total_query category))
                   (snd (total_query category)) (Resolved rows);
                 ESend 200 (JObj [(lit "total", JNum total)])], st1)))
  /\ (let lunch := {| Table.id := 1; Table.item_name := lit "Lunch";
                      Table.amount := 2550;
                      Table.category := Some (lit "Food");
                      Table.created_at := 1770201000000000 |} in
      let db := {| Table.expenses := [lunch];
                   Table.next_id := 2; Table.now := 1770201000000000 |} in
      let row := JObj [(lit "id", JNum (number_of_Z 1));
                       (lit "item_name", JStr (lit "Lunch"));
                       (lit "amount", JStr (lit "25.50"));
                       (lit "category", JStr (lit "Food"));
                       (lit "created_at", JDate 1770201000000)] in
      responses_sent (fst (serve Table.query (get_expenses JUndefined) db))
      = [(200, JObj [(lit "expenses", JArr [row])])]
      /\ responses_sent (fst (serve Table.query (get_total JUndefined) db))
         = [(200, JObj [(lit "total",
                          JNum (number_of_decimal false 255 (-1)))])]).
Proof.
  split.
  - intros St pool st. split; [|split].
    + intros body name amount category x rows st1
             Hbody Hname Hamount Hparse Hx params Hpool.
      rewrite (post_expenses_accepted pool body amount category name x st)
        by assumption.
      fold params. rewrite Hpool. reflexivity.
    + intros category rows st1.
      generalize (get_expenses_path pool category st).
      destruct (list_query category) as [text params]. simpl.
      intros -> ->. reflexivity.
    + intros category rows st1 field total.
      generalize (get_total_path pool category st).
      destruct (total_query category) as [text params]. simpl.
      intros -> -> Hfield Hparse. simpl. unfold after_total.
      rewrite Hfield. simpl. rewrite Hparse. reflexivity.
  - split; reflexivity.
Qed.

Lemma rows_are_returned_as_delivered_witness :
  serve Table.query (get_expenses (JStr (lit "Food"))) Table.empty
  = ([EQuery
        (lit "SELECT * FROM expenses WHERE category = $1 ORDER BY created_at DESC")
        [JStr (lit "Food")] (Resolved []);
      ESend 200 (JObj [(lit "expenses", JArr [])])], Table.empty).
Proof.
  apply (proj1 (proj2 (proj1 rows_are_returned_as_delivered
                         Table.Database Table.query Table.empty))
           (JStr (lit "Food")) [] Table.empty).
  reflexivity.
Defined.

(** ** Trimming *)

Lemma trim_start_clean (s : JsString) : starts_clean (trim_start s).
Proof.
  induction s as [|c s IH]; simpl; [exact I|].
  destruct (is_white_space c) eqn:E; [exact IH | exact E].
Qed.

Lemma trim_start_fixed (s : JsString) : starts_clean s -> trim_start s = s.
Proof. destruct s as [|c s]; simpl; [reflexivity|]. intros ->. reflexivity. Qed.

Lemma trim_start_blank (s : JsString) : trim_start s = [] <-> blank s = true.
Proof.
  unfold blank. induction s as [|c s IH]; simpl; [tauto|].
  destruct (is_white_space c); simpl; [exact IH|].
  split; discriminate.
Qed.

Lemma blank_rev (s : JsString) : blank (rev s) = blank s.
Proof.
  unfold blank. induction s as [|c s IH]; simpl; [reflexivity|].
  rewrite forallb_app, IH. simpl. rewrite andb_true_r. apply andb_comm.
Qed.

Lemma trim_end_clean (s : JsString) : ends_clean (trim_end s).
Proof.
  unfold ends_clean, trim_end. rewrite rev_involutive. apply trim_start_clean.
Qed.

Lemma trim_end_fixed (s : JsString) : ends_clean s -> trim_end s = s.
Proof.
  unfold ends_clean, trim_end. intros H.
  rewrite (trim_start_fixed _ H). apply rev_involutive.
Qed.

(** What [trim_start] removes is a prefix of white space. *)
Lemma trim_start_split (s : JsString) :
  exists p, s = p ++ trim_start s /\ blank p = true.
Proof.
  induction s as [|c s [p [Hp Hb]]]; simpl.
  - exists []. split; reflexivity.
  - destruct (is_white_space c) eqn:E.
    + exists (c :: p). split; [simpl; congruence|].
      unfold blank in *. simpl. rewrite E. exact Hb.
    + exists []. split; reflexivity.
Qed.

Lemma trim_end_split (s : JsString) :
  exists q, s = trim_end s ++ q /\ blank q = true.
Proof.
  destruct (trim_start_split (rev s)) as [p [Hp Hb]].
  exists (rev p). split.
  - unfold trim_end. rewrite <- rev_app_distr, <- Hp. symmetry.
    apply rev_involutive.
  - rewrite blank_rev. exact Hb.
Qed.

Lemma starts_clean_prefix (a b : JsString) :
  starts_clean (a ++ b) -> a <> [] -> starts_clean a.
Proof. destruct a; simpl; [contradiction | auto]. Qed.

Lemma starts_clean_blank (s : JsString) :
  starts_clean s -> blank s = true -> s = [].
Proof.
  destruct s as [|c s]; [reflexivity|]. unfold blank. simpl.
  intros ->. discriminate.
Qed.

Lemma trim_end_starts_clean (s : JsString) :
  starts_clean s -> starts_clean (trim_end s).
Proof.
  intros H. destruct (trim_end_split s) as [q [Hq Hb]].
  destruct (trim_end s) as [|c t] eqn:E; [exact I|].
  rewrite Hq in H. exact H.
Qed.

Lemma trim_clean (s : JsString) :
  starts_clean (trim s) /\ ends_clean (trim s).
Proof.
  unfold trim. split.
  - apply trim_end_starts_clean, trim_start_clean.
  - apply trim_end_clean.
Qed.

Lemma trim_fixed (s : JsString) :
  starts_clean s -> ends_clean s -> trim s = s.
Proof.
  intros H1 H2. unfold trim.
  rewrite (trim_start_fixed s H1). apply trim_end_fixed, H2.
Qed.

Lemma trim_idempotent (s : JsString) : trim (trim s) = trim s.
Proof. destruct (trim_clean s). apply trim_fixed; assumption. Qed.

Lemma trim_end_blank (s : JsString) : trim_end s = [] <-> blank s = true.
Proof.
  unfold trim_end. rewrite <- blank_rev, <- trim_start_blank.
  split; intros H.
  - apply (f_equal (@rev code_unit)) in H.
    rewrite rev_involutive in H. exact H.
  - rewrite H. reflexivity.
Qed.

Lemma blank_app (a b : JsString) : blank (a ++ b) = blank a && blank b.
Proof. apply forallb_app. Qed.

Lemma trim_blank (s : JsString) : trim s = [] <-> blank s = true.
Proof.
  unfold trim. rewrite trim_end_blank. split; intros H.
  - destruct (trim_start_split s) as [p [Hp Hb]].
    rewrite Hp, blank_app, Hb, H. reflexivity.
  - apply trim_start_blank in H. rewrite H. reflexivity.
Qed.

(** What [trim] removes is white space, at both ends. *)
Lemma trim_split (s : JsString) :
  exists p q, s = p ++ trim s ++ q /\ blank p = true /\ blank q = true.
Proof.
  destruct (trim_start_split s) as [p [Hp Hbp]].
  destruct (trim_end_split (trim_start s)) as [q [Hq Hbq]].
  exists p, q. unfold trim. rewrite <- Hq. auto.
Qed.

(** ** Statements and error bodies *)

Ltac in_list := simpl; repeat (first [left; reflexivity | right]).

Ltac query_in H :=
  simpl in H; repeat (destruct H as [H|H]; [inversion H; subst; clear H|]);
  try contradiction.

(** X1.  Whatever the request and whatever the pool answers, a handler sends
    the pool only the seven statement texts of the source, two at most: the
    health route none; a create request none, or the one insert bound to a
    name, a Number and one of the six labels; a list or total request the
    one statement of the query builder; a delete request nothing, the
    existence query, or the existence query and then the delete, both bound
    to the identifier [parseInt] read.  What the request carries reaches
    the pool in the parameters only. *)
Theorem statement_texts_are_fixed
        {St : Type} (pool : St -> JsString -> list JsValue -> QueryOutcome * St)
        (st : St) (r : Request) :
  let issued := queries (fst (serve pool (handler r) st)) in
  (forall text params, In (text, params) issued -> In text statement_texts)
  /\ (List.length issued <= 2)%nat
  /\ (match r with
      | Health => issued = []
      | CreateExpense _ =>
          issued = []
          \/ exists name x c,
              In c validCategories
              /\ issued = [(insert_text, [JStr name; JNum x; JStr c])]
      | ListExpenses c => issued = [list_query c]
      | TotalExpenses c => issued = [total_query c]
      | DeleteExpense id =>
          let expenseId := JNum (parseInt_string id) in
          issued = []
          \/ issued = [(select_by_id_text, [expenseId])]
          \/ issued = [(select_by_id_text, [expenseId]);
                       (delete_text, [expenseId])]
      end).
Proof.
  destruct r as [|body|c|c|id]; cbn [handler].
  - simpl. split; [intros ? ? []|]. split; [lia | reflexivity].
  - destruct (post_expenses_paths pool body st)
      as [ | message Hm | name amount category x _ _ _ _ _ params]; cbv zeta.
    + simpl. split; [intros ? ? []|]. split; [lia | left; reflexivity].
    + simpl. split; [intros ? ? []|]. split; [lia | left; reflexivity].
    + assert (E : queries
                    (fst (EQuery insert_text params
                            (fst (pool st insert_text params))
                            :: after_insert (fst (pool st insert_text params)),
                          snd (pool st insert_text params)))
                  = [(insert_text, params)]).
      { simpl. destruct (fst (pool st insert_text params)); reflexivity. }
      rewrite E. split; [|split].
      * intros text ps H. query_in H. in_list.
      * simpl. lia.
      * right. destruct (expenseCategory_valid category) as [l [Hl Hin]].
        exists (trim name), x, l. split; [exact Hin|].
        unfold params. rewrite Hl. reflexivity.
  - generalize (get_expenses_path pool c st).
    destruct (list_query c) as [text params] eqn:E. intros ->. cbv zeta.
    assert (Q : queries
                  (fst (EQuery text params (fst (pool st text params))
                          :: after_list (fst (pool st text params)),
                        snd (pool st text params)))
                = [(text, params)]).
    { simpl. destruct (fst (pool st text params)); reflexivity. }
    rewrite Q. split; [|split; [simpl; lia | reflexivity]].
    intros t ps H. query_in H.
    unfold list_query in E. destruct (ToBoolean c); inversion E; in_list.
  - generalize (get_total_path pool c st).
    destruct (total_query c) as [text params] eqn:E. intros ->. cbv zeta.
    assert (Q : queries
                  (fst (EQuery text params (fst (pool st text params))
                          :: after_total (fst (pool st text params)),
                        snd (pool st text params)))
                = [(text, params)]).
    { simpl. unfold after_total.
      destruct (fst (pool st text params)); [|reflexivity].
      destruct (cbind _ parseFloat); reflexivity. }
    rewrite Q. split; [|split; [simpl; lia | reflexivity]].
    intros t ps H. query_in H.
    unfold total_query in E. destruct (ToBoolean c); inversion E; in_list.
  - destruct (js_lt pos_zero (parseInt_string id)) eqn:Hid.
    + generalize (delete_expense_path pool id st Hid). cbv zeta.
      destruct (pool st select_by_id_text _) as [[[|row rows]|reason] st1].
      * intros ->. simpl. split; [|split; [lia | auto]].
        intros t ps H. query_in H. in_list.
      * destruct (pool st1 delete_text _) as [[rows'|reason] st2];
          intros ->; simpl; (split; [|split; [lia | auto]]);
          intros t ps H; query_in H; in_list.
      * intros ->. simpl. split; [|split; [lia | auto]].
        intros t ps H. query_in H. in_list.
    + rewrite (delete_expense_invalid pool id st Hid). simpl.
      split; [intros ? ? []|]. split; [lia | auto].
Qed.

Lemma statement_texts_are_fixed_witness :
  In (lit "SELECT * FROM expenses WHERE id = $1") statement_texts.
Proof.
  apply (proj1 (statement_texts_are_fixed Table.query Table.empty
                  (DeleteExpense (lit "7")))
           (lit "SELECT * FROM expenses WHERE id = $1")
           [JNum (parseInt_string (lit "7"))]).
  vm_compute. left. reflexivity.
Defined.

Ltac sent_in H :=
  simpl in H; repeat (destruct H as [H|H]; [try discriminate H|]);
  try contradiction.

Ltac fixed_message H :=
  sent_in H; inversion H; subst; first [lia | eexists; split; [|reflexivity]; in_list].

(** X2.  Every response with a status of 400 or more carries
    [{ error: message }] with one of the nine messages of the source, so
    the reason the pool rejected a statement with is never part of a
    response; the error page of a failure outside the [try] blocks has the
    status 500. *)
Theorem error_bodies_are_fixed
        {St : Type} (pool : St -> JsString -> list JsValue -> QueryOutcome * St)
        (st : St) (r : Request) :
  let evs := fst (serve pool (handler r) st) in
  (forall status body,
      In (ESend status body) evs -> 400 <= status ->
      exists message, In message error_messages /\ body = error_body message)
  /\ (forall status, In (EErrorPage status) evs -> status = 500).
Proof.
  destruct r as [|body|c|c|id]; cbn [handler]; cbv zeta.
  - simpl. split.
    + intros status body H Hs. fixed_message H.
    + intros status H. sent_in H.
  - destruct (post_expenses_paths pool body st)
      as [ | message Hm | name amount category x _ _ _ _ _ params]; simpl.
    + split.
      * intros status b H Hs. sent_in H.
      * intros status H. sent_in H. inversion H. reflexivity.
    + split.
      * intros status b H Hs. sent_in H. inversion H; subst.
        exists message. split; [|reflexivity].
        simpl in Hm. simpl. tauto.
      * intros status H. sent_in H.
    + destruct (fst (pool st insert_text params)) as [rows|reason]; simpl;
        (split; [intros status b H Hs; fixed_message H
                | intros status H; sent_in H]).
  - generalize (get_expenses_path pool c st).
    destruct (list_query c) as [text params]. intros ->. simpl.
    destruct (fst (pool st text params)) as [rows|reason]; simpl;
      (split; [intros status b H Hs; fixed_message H
              | intros status H; sent_in H]).
  - generalize (get_total_path pool c st).
    destruct (total_query c) as [text params]. intros ->. simpl.
    unfold after_total.
    destruct (fst (pool st text params)) as [rows|reason]; simpl;
      [destruct (cbind _ parseFloat); simpl|];
      (split; [intros status b H Hs; fixed_message H
              | intros status H; sent_in H]).
  - destruct (js_lt pos_zero (parseInt_string id)) eqn:Hid.
    + generalize (delete_expense_path pool id st Hid). cbv zeta.
      destruct (pool st select_by_id_text _) as [[[|row rows]|reason] st1].
      * intros ->. simpl.
        split; [intros status b H Hs; fixed_message H
               | intros status H; sent_in H].
      * destruct (pool st1 delete_text _) as [[rows'|reason] st2];
          intros ->; simpl;
          (split; [intros status b H Hs; fixed_message H
                  | intros status H; sent_in H]).
      * intros ->. simpl.
        split; [intros status b H Hs; fixed_message H
               | intros status H; sent_in H].
    + rewrite (delete_expense_invalid pool id st Hid). simpl.
      split; [intros status b H Hs; fixed_message H
             | intros status H; sent_in H].
Qed.

Lemma error_bodies_are_fixed_witness :
  exists message,
    In message error_messages
    /\ error_body "Expense not found" = error_body message.
Proof.
  apply (proj1 (error_bodies_are_fixed Table.query Table.empty
                  (DeleteExpense (lit "7")))
           404 (error_body "Expense not found")).
  - vm_compute. right. left. reflexivity.
  - lia.
Defined.

(** ** The item name of a create request *)

Lemma item_name_missing_blank (s : JsString) :
  item_name_missing (JStr s) = Normal (blank s).
Proof.
  unfold item_name_missing. destruct s as [|c s]; [reflexivity|].
  cbn [ToBoolean negb call_trim cbind]. f_equal.
  destruct (blank (c :: s)) eqn:E.
  - apply trim_blank in E. rewrite E. reflexivity.
  - apply js_string_eqb_neq. intros H. apply trim_blank in H. congruence.
Qed.

Lemma not_blank_trim (s : JsString) : blank s = false -> trim s <> [].
Proof. intros E H. apply trim_blank in H. congruence. Qed.

(** X3.  A create request whose item name is a string is answered 400 with
    the message of the item name, and nothing else happens, exactly when
    the name is blank: empty or white space only.  Otherwise this rejection
    is not sent, and a statement that reaches the pool binds the trimmed
    name, which is not empty, has no white space at either end and is left
    as it is by a second [trim]. *)
Theorem item_name_rejected_iff_blank
        {St : Type} (pool : St -> JsString -> list JsValue -> QueryOutcome * St)
        (st : St) (body amount category : JsValue) (s : JsString) :
  destructure_body body = Normal (JStr s, amount, category) ->
  let rejection :=
    ESend 400 (error_body "Item name is required and cannot be empty") in
  let evs := fst (serve pool (post_expenses body) st) in
  (blank s = true -> serve pool (post_expenses body) st = ([rejection], st))
  /\ (blank s = false ->
      ~ In rejection evs
      /\ forall text params,
          In (text, params) (queries evs) ->
          exists x c,
            params = [JStr (trim s); JNum x; c]
            /\ trim s <> []
            /\ starts_clean (trim s) /\ ends_clean (trim s)
            /\ trim (trim s) = trim s).
Proof.
  intros Hbody rejection evs. split.
  - intros Hb. unfold serve, post_expenses. rewrite Hbody. simpl.
    rewrite item_name_missing_blank, Hb. reflexivity.
  - intros Hb. pose proof (not_blank_trim s Hb) as Hn.
    subst evs.
    destruct (is_nullish amount) eqn:Ha.
    { assert (E : serve pool (post_expenses body) st
                  = ([ESend 400 (error_body "Amount is required")], st)).
      { unfold serve, post_expenses. rewrite Hbody. simpl.
        rewrite item_name_missing_blank, Hb. simpl. rewrite Ha. reflexivity. }
      rewrite E. simpl. split; [|intros ? ? []].
      intros [H|[]]. vm_compute in H. discriminate H. }
    destruct (parseFloat amount) as [x|e] eqn:Hp.
    2:{ assert (E : fst (serve pool (post_expenses body) st)
                    = [EErrorPage (error_status e); ELog [] e]).
        { unfold serve, post_expenses. rewrite Hbody. simpl.
          rewrite item_name_missing_blank, Hb. simpl. rewrite Ha, Hp.
          reflexivity. }
        rewrite E. simpl. split; [|intros ? ? []].
        intros [H|[H|[]]]; discriminate H. }
    destruct (js_le pos_zero x) eqn:Hx.
    + rewrite (post_expenses_accepted pool body amount category s x st)
        by assumption.
      cbn [fst]. split.
      * simpl. intros [H|H]; [discriminate H|].
        destruct (fst (pool st insert_text _)); simpl in H.
        -- destruct H as [H|[]]. vm_compute in H. discriminate H.
        -- destruct H as [H|[H|[]]]; [discriminate H|].
           vm_compute in H. discriminate H.
      * intros text params H.
        assert (E : (text, params)
                    = (insert_text,
                       [JStr (trim s); JNum x; expenseCategory category])).
        { simpl in H. destruct H as [H|H]; [symmetry; exact H|].
          destruct (fst (pool st insert_text _)); simpl in H; contradiction. }
        inversion E; subst. exists x, (expenseCategory category).
        destruct (trim_clean s). auto using trim_idempotent.
    + rewrite (post_expenses_bad_amount body amount category s x)
        by assumption.
      rewrite serve_respond. simpl. split; [|intros ? ? []].
      intros [H|[]]. vm_compute in H. discriminate H.
Qed.

Lemma item_name_rejected_iff_blank_witness :
  serve Table.query
    (post_expenses
       (create_body (JStr (lit "   ")) (JNum (number_of_Z 5)) JUndefined))
    Table.empty
  = ([ESend 400 (error_body "Item name is required and cannot be empty")],
     Table.empty).
Proof.
  apply (proj1 (item_name_rejected_iff_blank Table.query Table.empty
                  (create_body (JStr (lit "   ")) (JNum (number_of_Z 5))
                     JUndefined)
                  (JNum (number_of_Z 5)) JUndefined (lit "   ")
                  eq_refl)).
  reflexivity.
Defined.

(** ** Amounts that pass the check *)

Lemma number_of_decimal_signed (neg : bool) (m : N) (e10 : Z) :
  signed neg (number_of_decimal neg m e10).
Proof.
  unfold number_of_decimal. destruct m as [|p]; [reflexivity|].
  destruct (0 <=? e10); [apply binary_round_signed|].
  unfold SFdiv. destruct (SFdiv_core_binary _ _ _ _ _ _) as [[q e] l].
  replace (xorb neg false) with neg by (destruct neg; reflexivity).
  apply binary_round_aux_signed.
Qed.

Lemma signed_not_nan_not_negative (x : Number) :
  signed false x -> isNaN x = false -> js_le pos_zero x = true.
Proof.
  destruct x as [[]|[]| |[] m e]; simpl; intros H1 H2;
    try discriminate; reflexivity.
Qed.

Lemma number_of_decimal_not_negative (m : N) (e10 : Z) :
  js_le pos_zero (number_of_decimal false m e10) = true.
Proof.
  apply signed_not_nan_not_negative;
    [apply number_of_decimal_signed | apply number_of_decimal_not_nan].
Qed.

(** A string that starts with a digit is read as a number that is not
    negative, whatever follows the digits. *)
Lemma read_decimal_digit_first (c : code_unit) (s : JsString) :
  is_digit c = true ->
  exists m e rest,
    read_decimal_literal (c :: s) = Some (DecFinite false m e, rest).
Proof.
  intros H. rewrite (read_decimal_after_sign c s H).
  simpl span_digits. rewrite H.
  destruct (span_digits s) as [ds rest].
  destruct (match rest with
            | [] => ([], rest)
            | c0 :: r => if (c0 =? 46)%N then span_digits r else ([], rest)
            end) as [frac s3].
  simpl. destruct (read_exponent s3) as [e s4]. eauto.
Qed.

Lemma parseFloat_string_digit_first (s : JsString) :
  head_digit s -> js_le pos_zero (parseFloat_string s) = true.
Proof.
  destruct s as [|c s]; simpl; [contradiction|]. intros H.
  unfold parseFloat_string.
  change (trim_start (c :: s))
    with (if is_white_space c then trim_start s else c :: s).
  rewrite (digit_not_white_space c H).
  destruct (read_decimal_digit_first c s H) as [m [e [rest ->]]].
  apply number_of_decimal_not_negative.
Qed.

Lemma scaled_floor_nonneg (num den p : Z) :
  0 <= num -> 0 <= den -> 0 <= scaled_floor num den p.
Proof.
  intros Hn Hd. unfold scaled_floor. destruct (0 <=? p) eqn:E.
  - apply Z.leb_le in E. apply Z_div_nonneg_nonneg; [exact Hn|].
    apply Z.mul_nonneg_nonneg; [exact Hd | apply Z.pow_nonneg; lia].
  - apply Z_div_nonneg_nonneg; [|exact Hd].
    apply Z.mul_nonneg_nonneg; [exact Hn | apply Z.pow_nonneg; lia].
Qed.

Lemma shortest_candidate_nonneg (x : Number) (num den n k s n' : Z) :
  0 <= num -> 0 <= den ->
  shortest_candidate x num den n k = Some (s, n') -> 0 <= s.
Proof.
  intros Hn Hd. unfold shortest_candidate.
  pose proof (scaled_floor_nonneg num den (n - k) Hn Hd) as Hlo.
  set (lo := scaled_floor num den (n - k)) in *.
  assert (Hhi : 0 <= fst (if lo + 1 =? 10 ^ k
                          then (10 ^ (k - 1), n + 1) else (lo + 1, n))).
  { destruct (lo + 1 =? 10 ^ k); simpl; [apply Z.pow_nonneg|]; lia. }
  destruct (if lo + 1 =? 10 ^ k then (10 ^ (k - 1), n + 1) else (lo + 1, n))
    as [hi hi_n]. simpl in Hhi.
  destruct (number_eqb _ x); destruct (number_eqb _ x);
    try destruct (compare_with_middle num den lo (n - k));
    try destruct (Z.even lo);
    intros H; inversion H; subst; assumption.
Qed.

Lemma shortest_digits_nonneg (fuel : nat) (x : Number) (num den : Z) :
  0 <= num -> 0 <= den ->
  forall n k s n' k',
    shortest_digits fuel x num den n k = (s, n', k') -> 0 <= s.
Proof.
  intros Hn Hd. induction fuel as [|f IH]; intros n k s n' k'; simpl.
  - destruct (shortest_candidate x num den n k) as [[s0 n0]|] eqn:E.
    + intros H; inversion H; subst.
      exact (shortest_candidate_nonneg _ _ _ _ _ _ _ Hn Hd E).
    + intros H; inversion H; subst. apply scaled_floor_nonneg; assumption.
  - destruct (shortest_candidate x num den n k) as [[s0 n0]|] eqn:E.
    + intros H; inversion H; subst.
      exact (shortest_candidate_nonneg _ _ _ _ _ _ _ Hn Hd E).
    + apply IH.
Qed.

Lemma head_digit_app (a b : JsString) : head_digit a -> head_digit (a ++ b).
Proof. destruct a; simpl; [contradiction | auto]. Qed.

Lemma head_digit_firstn (n : nat) (a : JsString) :
  head_digit a -> head_digit (firstn (S n) a).
Proof. destruct a; simpl; [contradiction | auto]. Qed.

Lemma layout_digits_head (s n k : Z) : 0 <= s -> head_digit (layout_digits s n k).
Proof.
  intros Hs. pose proof (decimal_digits_head s Hs) as Hd.
  unfold layout_digits.
  destruct ((k <=? n) && (n <=? 21)); [apply head_digit_app, Hd|].
  destruct ((0 <? n) && (n <=? 21)) eqn:E.
  - apply andb_true_iff in E. destruct E as [E _]. apply Z.ltb_lt in E.
    destruct (Z.to_nat n) as [|m] eqn:En; [lia|].
    apply head_digit_app, head_digit_firstn, Hd.
  - destruct ((-6 <? n) && (n <=? 0)); [reflexivity|].
    destruct (k =? 1); [apply head_digit_app, Hd|].
    apply head_digit_app, (head_digit_firstn 0), Hd.
Qed.

Lemma exact_fraction_nonneg (m : positive) (e : Z) :
  0 <= fst (exact_fraction m e) /\ 0 <= snd (exact_fraction m e).
Proof.
  unfold exact_fraction. destruct (0 <=? e); cbn [fst snd].
  - split; [|lia]. apply Z.mul_nonneg_nonneg; [lia|].
    apply Z.pow_nonneg; lia.
  - split; [lia|]. apply Z.pow_nonneg; lia.
Qed.

(** The text of a Number that is not negative reads back as a Number that
    is not negative. *)
Lemma parseFloat_number_not_negative (x : Number) :
  js_le pos_zero x = true ->
  js_le pos_zero (parseFloat_string (number_to_string x)) = true.
Proof.
  destruct x as [s|[]| |[] m e]; intros H;
    try (simpl in H; discriminate H); clear H.
  - reflexivity.
  - reflexivity.
  - apply parseFloat_string_digit_first.
    unfold number_to_string. cbv zeta.
    pose proof (exact_fraction_nonneg m e) as Hnd.
    destruct (exact_fraction m e) as [num den]. cbn [fst snd] in Hnd.
    match goal with
    | |- context [shortest_digits ?f ?x ?a ?b ?c ?d] =>
        destruct (shortest_digits f x a b c d) as [[s n] k] eqn:Es
    end.
    change (head_digit (layout_digits s n k)).
    apply layout_digits_head.
    destruct Hnd as [Hn Hd].
    exact (shortest_digits_nonneg _ _ _ _ Hn Hd _ _ _ _ _ Es).
Qed.

(** X4.  With a name that is not blank, an amount that is a Number from zero
    up, or a string that starts with a digit, passes the amount checks:
    [parseFloat] reads a Number that is not below zero, whatever follows
    the digits, and the handler sends the one insert, bound to the trimmed
    name, this Number and the label of the category. *)
Theorem amounts_that_pass
        {St : Type} (pool : St -> JsString -> list JsValue -> QueryOutcome * St)
        (st : St) (body amount category : JsValue) (name : JsString) :
  destructure_body body = Normal (JStr name, amount, category) ->
  blank name = false ->
  (exists x, amount = JNum x /\ js_le pos_zero x = true)
  \/ (exists c s, amount = JStr (c :: s) /\ is_digit c = true) ->
  exists y,
    parseFloat amount = Normal y
    /\ js_le pos_zero y = true
    /\ queries (fst (serve pool (post_expenses body) st))
       = [(insert_text, [JStr (trim name); JNum y; expenseCategory category])].
Proof.
  intros Hbody Hname Hamount.
  assert (H : exists y, parseFloat amount = Normal y
                        /\ js_le pos_zero y = true
                        /\ is_nullish amount = false).
  { destruct Hamount as [[x [-> Hx]] | [c [s [-> Hc]]]].
    - exists (parseFloat_string (number_to_string x)).
      split; [reflexivity|]. split; [|reflexivity].
      apply parseFloat_number_not_negative, Hx.
    - exists (parseFloat_string (c :: s)).
      split; [reflexivity|]. split; [|reflexivity].
      apply parseFloat_string_digit_first. exact Hc. }
  destruct H as [y [Hp [Hy Hn]]]. exists y.
  split; [exact Hp|]. split; [exact Hy|].
  rewrite (post_expenses_accepted pool body amount category name y st);
    auto using not_blank_trim.
  simpl. destruct (fst (pool st insert_text _)); reflexivity.
Qed.

Lemma amounts_that_pass_witness :
  exists y,
    parseFloat (JStr (lit "12 cedis")) = Normal y
    /\ js_le pos_zero y = true
    /\ queries
         (fst (serve Table.query
                 (post_expenses
                    (create_body (JStr (lit "Bus fare"))
                       (JStr (lit "12 cedis")) JUndefined))
                 Table.empty))
       = [(insert_text,
           [JStr (trim (lit "Bus fare")); JNum y; expenseCategory JUndefined])].
Proof.
  apply (amounts_that_pass Table.query Table.empty
           (create_body (JStr (lit "Bus fare")) (JStr (lit "12 cedis"))
              JUndefined)
           (JStr (lit "12 cedis")) JUndefined (lit "Bus fare")).
  - reflexivity.
  - reflexivity.
  - right. exists 49%N, (lit "2 cedis"). split; reflexivity.
Defined.

(** A string whose first character after the white space cannot start a
    number is read as NaN. *)
Lemma parseFloat_string_not_numeric (s : JsString) :
  match trim_start s with
  | [] => True
  | c :: _ =>
      is_digit c = false
      /\ c <> 43%N /\ c <> 45%N /\ c <> 46%N /\ c <> 73%N
  end ->
  parseFloat_string s = NaN.
Proof.
  unfold parseFloat_string. destruct (trim_start s) as [|c r]; [reflexivity|].
  intros [Hd [H1 [H2 [H3 H4]]]].
  unfold read_decimal_literal, read_sign.
  apply N.eqb_neq in H1, H2, H3.
  rewrite H1, H2.
  change (lit "Infinity") with (73%N :: lit "nfinity").
  change (starts_with (73%N :: lit "nfinity") (c :: r))
    with (code_unit_eqb 73%N c && starts_with (lit "nfinity") r).
  replace (code_unit_eqb 73%N c) with false
    by (symmetry; apply N.eqb_neq; congruence).
  simpl. rewrite Hd, H3. reflexivity.
Qed.

(** X5.  With a name that is not blank, an amount that is a boolean, an empty
    array, an object without a [toString] of its own, or a string that
    after its leading white space is empty or starts with no digit, sign,
    point or [I], is answered 400 with the message of a positive number;
    the pool is not called. *)
Theorem amounts_that_are_no_number
        {St : Type} (pool : St -> JsString -> list JsValue -> QueryOutcome * St)
        (st : St) (body amount category : JsValue) (name : JsString) :
  destructure_body body = Normal (JStr name, amount, category) ->
  blank name = false ->
  (exists b, amount = JBool b)
  \/ amount = JArr []
  \/ (exists props, amount = JObj props
                    /\ lookup (lit "toString") props = None)
  \/ (exists s, amount = JStr s
                /\ match trim_start s with
                   | [] => True
                   | c :: _ =>
                       is_digit c = false
                       /\ c <> 43%N /\ c <> 45%N /\ c <> 46%N /\ c <> 73%N
                   end) ->
  serve pool (post_expenses body) st
  = ([ESend 400 (error_body "Amount must be a positive number")], st).
Proof.
  intros Hbody Hname Hamount.
  assert (H : parseFloat amount = Normal NaN /\ is_nullish amount = false).
  { destruct Hamount as [[b ->] | [-> | [[props [-> Hp]] | [s [-> Hs]]]]].
    - destruct b; split; reflexivity.
    - split; reflexivity.
    - split; [|reflexivity]. unfold parseFloat. simpl. rewrite Hp.
      reflexivity.
    - split; [|reflexivity]. unfold parseFloat. simpl.
      rewrite (parseFloat_string_not_numeric s Hs). reflexivity. }
  destruct H as [Hp Hn].
  rewrite (post_expenses_bad_amount body amount category name NaN);
    auto using not_blank_trim, serve_respond.
Qed.

Lemma amounts_that_are_no_number_witness :
  serve Table.query
    (post_expenses
       (create_body (JStr (lit "Coffee")) (JStr (lit "  $5")) JUndefined))
    Table.empty
  = ([ESend 400 (error_body "Amount must be a positive number")],
     Table.empty).
Proof.
  apply (amounts_that_are_no_number Table.query Table.empty
           (create_body (JStr (lit "Coffee")) (JStr (lit "  $5")) JUndefined)
           (JStr (lit "  $5")) JUndefined (lit "Coffee")).
  - reflexivity.
  - reflexivity.
  - right. right. right. exists (lit "  $5"). split; [reflexivity|].
    vm_compute. repeat split; discriminate.
Defined.

(** ** The table under the handlers *)

(** A statement that only reads leaves the table as it was, whatever its
    parameters. *)
Lemma read_statements_keep_table (db : Table.Database) (text : JsString)
      (params : list JsValue) :
  In text read_texts -> snd (Table.query db text params) = db.
Proof.
  intros H. unfold read_texts in H.
  repeat (destruct H as [<- | H]); try contradiction;
    destruct params as [|p [|q l]]; try reflexivity.
  - change (snd match Table.prepare_value p with
                | Some c =>
                    (Resolved
                       (map Table.row_value
                          (Table.order_by_created_at_desc
                             (filter (Table.category_is c)
                                (Table.expenses db)))), db)
                | None => Table.failure db "invalid parameter"
                end = db).
    destruct (Table.prepare_value p); reflexivity.
  - change (snd match Table.prepare_value p with
                | Some c =>
                    (Resolved
                       [Table.total_row
                          (filter (Table.category_is c) (Table.expenses db))],
                     db)
                | None => Table.failure db "invalid parameter"
                end = db).
    destruct (Table.prepare_value p); reflexivity.
  - change (snd match Table.id_param p with
                | Some i =>
                    (Resolved
                       (map Table.row_value
                          (filter (Table.id_is i) (Table.expenses db))), db)
                | None =>
                    Table.failure db "invalid input syntax for type integer"
                end = db).
    destruct (Table.id_param p); reflexivity.
Qed.

Lemma list_query_reads (category : JsValue) :
  In (fst (list_query category)) read_texts.
Proof.
  unfold list_query. destruct (ToBoolean category); simpl; auto.
Qed.

Lemma total_query_reads (category : JsValue) :
  In (fst (total_query category)) read_texts.
Proof.
  unfold total_query. destruct (ToBoolean category); simpl; auto 6.
Qed.

Lemma get_expenses_keeps_table (category : JsValue) (db : Table.Database) :
  snd (serve Table.query (get_expenses category) db) = db.
Proof.
  generalize (get_expenses_path Table.query category db).
  generalize (list_query_reads category).
  destruct (list_query category) as [text params]. simpl.
  intros Hin ->. simpl. apply read_statements_keep_table, Hin.
Qed.

Lemma get_total_keeps_table (category : JsValue) (db : Table.Database) :
  snd (serve Table.query (get_total category) db) = db.
Proof.
  generalize (get_total_path Table.query category db).
  generalize (total_query_reads category).
  destruct (total_query category) as [text params]. simpl.
  intros Hin ->. simpl. apply read_statements_keep_table, Hin.
Qed.

(** What [NUMERIC(10, 2)] accepts is below its bound. *)
Lemma numeric_10_2_in_bound (text : JsString) (h : Z) :
  Table.numeric_10_2_in text = Some h -> - 10 ^ 10 < h < 10 ^ 10.
Proof.
  unfold Table.numeric_10_2_in.
  destruct (read_decimal_literal text) as [[[neg|neg m e10] [|c r]]|];
    try discriminate.
  cbv zeta.
  set (magnitude := if -2 <=? e10 then _ else _).
  assert (Hm : 0 <= magnitude).
  { unfold magnitude. destruct (-2 <=? e10) eqn:E.
    - apply Z.mul_nonneg_nonneg; [lia | apply Z.pow_nonneg; lia].
    - apply Z.leb_gt in E.
      assert (0 < 10 ^ (- e10 - 2)) by (apply Z.pow_pos_nonneg; lia).
      apply Z.div_pos; [|assumption].
      assert (0 <= 10 ^ (- e10 - 2) / 2) by (apply Z.div_pos; lia).
      lia. }
  destruct (magnitude <? 10 ^ 10) eqn:E; [|discriminate].
  apply Z.ltb_lt in E. intros H. injection H as <-.
  destruct neg; lia.
Qed.

Lemma table_ok_advance (db : Table.Database) :
  table_ok db ->
  table_ok {| Table.expenses := Table.expenses db;
              Table.next_id := Table.next_id db + 1;
              Table.now := Table.now db |}.
Proof.
  intros [H1 [H2 H3]]. split; [exact H1|]. split; [|exact H3].
  simpl. eapply Forall_impl; [|exact H2]. simpl. intros r Hr. lia.
Qed.

Lemma table_ok_filter (db : Table.Database) (f : Table.Expense -> bool) :
  table_ok db ->
  table_ok {| Table.expenses := filter f (Table.expenses db);
              Table.next_id := Table.next_id db;
              Table.now := Table.now db |}.
Proof.
  intros [H1 [H2 H3]]. unfold table_ok. simpl.
  split; [|split].
  - apply Forall_forall. intros r Hr. apply filter_In in Hr.
    exact (proj1 (Forall_forall _ _) H1 r (proj1 Hr)).
  - apply Forall_forall. intros r Hr. apply filter_In in Hr.
    exact (proj1 (Forall_forall _ _) H2 r (proj1 Hr)).
  - revert H3. generalize (Table.expenses db) as l.
    induction l as [|x l IH]; simpl; [auto|].
    intros H. inversion H as [|? ? Hx Hl]; subst.
    destruct (f x); simpl; [|auto].
    constructor; [|auto].
    intros Hin. apply Hx. apply in_map_iff in Hin.
    destruct Hin as [y [Hy Hin]]. apply filter_In in Hin.
    apply in_map_iff. exists y. tauto.
Qed.

(** The insert statement with the parameters the create handler binds: the
    row it adds is well formed and takes the next identifier. *)
Lemma insert_keeps_ok (db : Table.Database) (name c : JsString) (x : Number) :
  table_ok db ->
  name <> [] -> trim name = name -> In c validCategories ->
  table_ok (snd (Table.insert db (JStr name) (JNum x) (JStr c))).
Proof.
  intros Hdb Hname Htrim Hc. unfold Table.insert.
  change (Table.prepare_value (JStr name)) with (Some (Some name)).
  change (Table.prepare_value (JNum x)) with (Some (Some (number_to_string x))).
  change (Table.prepare_value (JStr c)) with (Some (Some c)).
  cbv beta iota zeta.
  destruct (Table.has_nul name || Table.has_nul c); [exact Hdb|].
  destruct (Table.numeric_10_2_in (number_to_string x)) as [h|] eqn:Eh;
    [|exact Hdb].
  destruct ((Table.characters name <=? 255) && (Table.characters c <=? 50))
    eqn:E; [|exact Hdb].
  destruct (0 <=? h) eqn:E3; [|exact (table_ok_advance db Hdb)].
  apply andb_true_iff in E. destruct E as [E1 E2].
  apply Z.leb_le in E1, E3.
  pose proof (numeric_10_2_in_bound _ _ Eh) as Hb.
  destruct Hdb as [H1 [H2 H3]]. unfold table_ok. simpl.
  split; [|split].
  - apply Forall_app. split; [exact H1|]. constructor; [|constructor].
    unfold row_ok. simpl. repeat split; auto; try lia.
    exists c. auto.
  - apply Forall_app. split.
    + eapply Forall_impl; [|exact H2]. simpl. intros r Hr. lia.
    + constructor; [simpl; lia | constructor].
  - rewrite map_app. simpl.
    apply NoDup_app; [exact H3 | repeat constructor; auto |].
    intros i Hi [<-|[]].
    apply in_map_iff in Hi. destruct Hi as [r [Hr Hin]].
    pose proof (proj1 (Forall_forall _ _) H2 r Hin) as Hlt. simpl in Hlt. lia.
Qed.

Lemma delete_statement_keeps_ok (db : Table.Database) (p : JsValue) :
  table_ok db -> table_ok (snd (Table.query db delete_text [p])).
Proof.
  intros Hdb.
  change (table_ok
            (snd match Table.id_param p with
                 | Some i =>
                     (Resolved [],
                      {| Table.expenses :=
                           filter (fun r => negb (Table.id_is i r))
                             (Table.expenses db);
                         Table.next_id := Table.next_id db;
                         Table.now := Table.now db |})
                 | None =>
                     Table.failure db "invalid input syntax for type integer"
                 end)).
  destruct (Table.id_param p); simpl; [|exact Hdb].
  apply table_ok_filter, Hdb.
Qed.

Lemma select_by_id_reads : In select_by_id_text read_texts.
Proof. unfold read_texts, select_by_id_text. simpl. auto 6. Qed.

(** One request keeps the table well formed. *)
Lemma handler_keeps_ok (r : Request) (db : Table.Database) :
  table_ok db -> table_ok (snd (serve Table.query (handler r) db)).
Proof.
  intros Hdb. destruct r as [|body|category|category|id]; simpl handler.
  - exact Hdb.
  - pose proof (post_expenses_paths Table.query body db) as P.
    inversion P as [| |name amount category x Hbody Hname Hnull Hx Hle params];
      subst; simpl; try exact Hdb.
    unfold params. rewrite table_query_insert.
    destruct (expenseCategory_valid category) as [c [-> Hc]].
    apply insert_keeps_ok; auto using trim_idempotent.
  - rewrite get_expenses_keeps_table. exact Hdb.
  - rewrite get_total_keeps_table. exact Hdb.
  - destruct (js_lt pos_zero (parseInt_string id)) eqn:Hid.
    2:{ rewrite (delete_expense_invalid Table.query id db Hid). exact Hdb. }
    generalize (delete_expense_path Table.query id db Hid). cbv zeta.
    pose proof (read_statements_keep_table db select_by_id_text
                  [JNum (parseInt_string id)] select_by_id_reads) as Hsel.
    destruct (Table.query db select_by_id_text _) as [[[|row rows]|reason] db1];
      simpl in Hsel; subst db1.
    + intros ->. exact Hdb.
    + pose proof (delete_statement_keeps_ok db (JNum (parseInt_string id)) Hdb)
        as Hdel.
      destruct (Table.query db delete_text _) as [deleted db2].
      intros ->. exact Hdel.
    + intros ->. exact Hdb.
Qed.

(** X6.  The handlers keep the table of [init.sql] well formed.  From a table
    whose rows have a trimmed name that is not empty and of 255 characters
    at most, an amount from zero up within [NUMERIC(10, 2)], one of the six
    labels, and distinct identifiers below the sequence, any requests served
    one after the other leave such a table. *)
Theorem table_stays_well_formed (rs : list Request) (db : Table.Database) :
  table_ok db -> table_ok (serve_all rs db).
Proof.
  revert db. induction rs as [|r rs IH]; intros db Hdb; simpl; [exact Hdb|].
  apply IH, handler_keeps_ok, Hdb.
Qed.

Lemma table_stays_well_formed_witness :
  table_ok
    (serve_all
       [CreateExpense
          (create_body (JStr (lit " Coffee ")) (JStr (lit "8.75"))
             (JStr (lit "snacks")));
        ListExpenses (JStr (lit "Other"));
        DeleteExpense (lit "1");
        CreateExpense
          (create_body (JStr (lit "Bus fare")) (JNum (number_of_Z 5))
             JUndefined)]
       Table.empty).
Proof.
  apply table_stays_well_formed.
  split; [|split]; simpl; constructor.
Defined.

(** ** The read handlers on the table *)

Lemma table_get_expenses (c : option JsString) (db : Table.Database) :
  let listed :=
    map Table.row_value (Table.order_by_created_at_desc (matching c db)) in
  serve Table.query (get_expenses (category_param c)) db
  = ([EQuery (fst (list_query (category_param c)))
        (snd (list_query (category_param c))) (Resolved listed);
      ESend 200 (JObj [(lit "expenses", JArr listed)])], db).
Proof.
  generalize (get_expenses_path Table.query (category_param c) db).
  generalize (table_list_query c db).
  destruct (list_query (category_param c)) as [text params].
  intros -> ->. reflexivity.
Qed.

Lemma table_get_total (c : option JsString) (db : Table.Database) :
  serve Table.query (get_total (category_param c)) db
  = ([EQuery (fst (total_query (category_param c)))
        (snd (total_query (category_param c)))
        (Resolved [Table.total_row (matching c db)]);
      ESend 200 (JObj [(lit "total", JNum (total_number (matching c db)))])],
     db).
Proof.
  generalize (get_total_path Table.query (category_param c) db).
  generalize (table_total_query c db).
  destruct (total_query (category_param c)) as [text params].
  intros -> ->.
  unfold fst, snd, after_total. rewrite total_row_text.
  change (cbind (get_property (first_row [JObj [(lit "total", ?v)]])
                   (lit "total")) parseFloat)
    with (parseFloat v).
  unfold parseFloat. cbn [ToString cbind].
  rewrite total_text_number. reflexivity.
Qed.

Lemma matching_unknown_label (s : JsString) (db : Table.Database) :
  table_ok db -> s <> [] -> ~ In s validCategories ->
  matching (Some s) db = [].
Proof.
  intros [Hrows _] Hne Hs. unfold matching.
  assert (H : filter (Table.category_is (Some s)) (Table.expenses db) = []).
  { apply filter_none. intros r Hr.
    pose proof (proj1 (Forall_forall _ _) Hrows r Hr) as [_ [_ [_ [_ Hc]]]].
    destruct Hc as [c [Hc Hin]]. unfold Table.category_is. rewrite Hc.
    destruct (js_string_eqb c s) eqn:E; [|reflexivity].
    apply js_string_eqb_eq in E. subst c. contradiction. }
  destruct s as [|u s]; [contradiction | exact H].
Qed.

(** X7.  On a well-formed table a filter on a category that is not empty and
    not one of the six labels, [food] for one, selects nothing: the list
    request answers 200 without an expense, the total request answers 200
    with the total 0, read from the text [0] of [COALESCE]. *)
Theorem unknown_label_selects_nothing (db : Table.Database) (s : JsString) :
  table_ok db -> s <> [] -> ~ In s validCategories ->
  serve Table.query (get_expenses (JStr s)) db
  = ([EQuery
        (lit "SELECT * FROM expenses WHERE category = $1 ORDER BY created_at DESC")
        [JStr s] (Resolved []);
      ESend 200 (JObj [(lit "expenses", JArr [])])], db)
  /\ serve Table.query (get_total (JStr s)) db
     = ([EQuery
           (lit "SELECT COALESCE(SUM(amount), 0) as total FROM expenses WHERE category = $1")
           [JStr s] (Resolved [JObj [(lit "total", JStr (lit "0"))]]);
         ESend 200 (JObj [(lit "total", JNum pos_zero)])], db).
Proof.
  intros Hdb Hne Hs.
  pose proof (matching_unknown_label s db Hdb Hne Hs) as Hm.
  split.
  - generalize (table_get_expenses (Some s) db). cbv zeta.
    rewrite Hm. destruct s as [|u s]; [contradiction|]. auto.
  - generalize (table_get_total (Some s) db).
    rewrite Hm. destruct s as [|u s]; [contradiction|]. auto.
Qed.

Lemma unknown_label_selects_nothing_witness :
  let lunch := {| Table.id := 1; Table.item_name := lit "Lunch";
                  Table.amount := 2550; Table.category := Some (lit "Food");
                  Table.created_at := 20 |} in
  let db := {| Table.expenses := [lunch];
               Table.next_id := 2; Table.now := 30 |} in
  serve Table.query (get_expenses (JStr (lit "food"))) db
  = ([EQuery
        (lit "SELECT * FROM expenses WHERE category = $1 ORDER BY created_at DESC")
        [JStr (lit "food")] (Resolved []);
      ESend 200 (JObj [(lit "expenses", JArr [])])], db)
  /\ serve Table.query (get_total (JStr (lit "food"))) db
     = ([EQuery
           (lit "SELECT COALESCE(SUM(amount), 0) as total FROM expenses WHERE category = $1")
           [JStr (lit "food")] (Resolved [JObj [(lit "total", JStr (lit "0"))]]);
         ESend 200 (JObj [(lit "total", JNum pos_zero)])], db).
Proof.
  intros lunch db.
  apply (unknown_label_selects_nothing db (lit "food")).
  - split; [|split].
    + constructor; [|constructor]. unfold row_ok. simpl.
      split; [discriminate|]. split; [reflexivity|].
      split; [vm_compute; discriminate|]. split; [lia|].
      exists (lit "Food"). split; [reflexivity|]. simpl. auto.
    + constructor; [simpl; lia | constructor].
    + simpl. constructor; [simpl; tauto | constructor].
  - discriminate.
  - vm_compute. intros H.
    repeat (destruct H as [H|H]; [discriminate H|]). exact H.
Defined.

(** ** Create, then read *)

Lemma insert_desc_length (r : Table.Expense) (l : list Table.Expense) :
  List.length (Table.insert_desc r l) = S (List.length l).
Proof.
  induction l as [|x l IH]; simpl; [reflexivity|].
  destruct (Table.created_at x <=? Table.created_at r); simpl; congruence.
Qed.

Lemma order_by_created_at_desc_length (l : list Table.Expense) :
  List.length (Table.order_by_created_at_desc l) = List.length l.
Proof.
  induction l as [|x l IH]; simpl; [reflexivity|].
  rewrite insert_desc_length, IH. reflexivity.
Qed.

Lemma sum_of_amounts_app (a b : list Table.Expense) :
  sum_of_amounts (a ++ b) = sum_of_amounts a + sum_of_amounts b.
Proof.
  unfold sum_of_amounts. induction a as [|x a IH]; simpl; [reflexivity|].
  rewrite IH. lia.
Qed.

(** X8.  A create request answered 201 adds one row at the end of the table,
    with the next identifier of the sequence, the trimmed name, and the
    amount the column type reads from the shortest text of the Number
    [parseFloat] gave; the response carries this row.  The list request
    without a category that follows returns it, among one more row than the
    table had, and the total request returns the Number of the sum before
    plus its amount. *)
Theorem created_expense_is_read_back
        (db db' : Table.Database) (body : JsValue) (evs : list Event) :
  serve Table.query (post_expenses body) db = (evs, db') ->
  responses evs = [201] ->
  exists (r : Table.Expense) (name : JsString) (amount category : JsValue)
         (x : Number),
    destructure_body body = Normal (JStr name, amount, category)
    /\ parseFloat amount = Normal x
    /\ Table.expenses db' = Table.expenses db ++ [r]
    /\ Table.next_id db' = Table.next_id db + 1
    /\ Table.id r = Table.next_id db
    /\ Table.item_name r = trim name
    /\ Table.numeric_10_2_in (number_to_string x) = Some (Table.amount r)
    /\ responses_sent evs
       = [(201, JObj [(lit "message", JStr (lit "Expense added successfully"));
                      (lit "expense", Table.row_value r)])]
    /\ (let listed :=
          map Table.row_value
            (Table.order_by_created_at_desc (Table.expenses db')) in
        responses_sent (fst (serve Table.query (get_expenses JUndefined) db'))
        = [(200, JObj [(lit "expenses", JArr listed)])]
        /\ In (Table.row_value r) listed
        /\ List.length listed = S (List.length (Table.expenses db)))
    /\ responses_sent (fst (serve Table.query (get_total JUndefined) db'))
       = [(200,
           JObj [(lit "total",
                  JNum (number_of_hundredths
                          (sum_of_amounts (Table.expenses db)
                           + Table.amount r)))])].
Proof.
  intros Hserve Hresp.
  pose proof (post_expenses_paths Table.query body db) as P.
  rewrite Hserve in P.
  inversion P as [ | message Hm | name amount category x Hbody _ _ Hx _ params];
    subst; try discriminate.
  destruct (expenseCategory_valid category) as [c [Hc Hin]].
  subst params. rewrite table_query_insert in *.
  unfold Table.insert in *. rewrite Hc in *.
  cbn [Table.prepare_value] in *.
  destruct (Table.has_nul (trim name) || Table.has_nul c);
    [discriminate|].
  destruct (Table.numeric_10_2_in (number_to_string x)) as [h|] eqn:Eh;
    [|discriminate].
  destruct ((Table.characters (trim name) <=? 255)
            && (Table.characters c <=? 50));
    [|discriminate].
  destruct (0 <=? h); [|discriminate].
  cbn [fst snd after_insert].
  set (r := {| Table.id := Table.next_id db; Table.item_name := trim name;
               Table.amount := h; Table.category := Some c;
               Table.created_at := Table.now db |}).
  set (db1 := {| Table.expenses := Table.expenses db ++ [r];
                 Table.next_id := Table.next_id db + 1;
                 Table.now := Table.now db |}).
  exists r, name, amount, category, x.
  split; [exact Hbody|]. split; [exact Hx|].
  split; [reflexivity|]. split; [reflexivity|]. split; [reflexivity|].
  split; [reflexivity|]. split; [exact Eh|]. split; [reflexivity|].
  split.
  - cbv zeta.
    change (get_expenses JUndefined) with (get_expenses (category_param None)).
    rewrite (table_get_expenses None db1). cbv zeta.
    change (matching None db1) with (Table.expenses db ++ [r]).
    change (Table.expenses db1) with (Table.expenses db ++ [r]).
    split; [reflexivity|]. split.
    + apply in_map, order_by_created_at_desc_In, in_or_app.
      right. left. reflexivity.
    + rewrite length_map, order_by_created_at_desc_length, length_app.
      simpl. lia.
  - change (get_total JUndefined) with (get_total (category_param None)).
    rewrite (table_get_total None db1).
    change (matching None db1) with (Table.expenses db ++ [r]).
    unfold total_number.
    rewrite sum_of_amounts_app.
    replace (sum_of_amounts [r]) with (Table.amount r)
      by (unfold sum_of_amounts; simpl; lia).
    destruct (Table.expenses db ++ [r]) eqn:E; [|reflexivity].
    destruct (Table.expenses db); discriminate.
Qed.

Lemma created_expense_is_read_back_witness :
  let body :=
    create_body (JStr (lit " Coffee ")) (JStr (lit "8.755"))
      (JStr (lit "Food")) in
  exists (r : Table.Expense) (name : JsString) (amount category : JsValue)
         (x : Number),
    destructure_body body = Normal (JStr name, amount, category)
    /\ parseFloat amount = Normal x
    /\ Table.expenses (snd (serve Table.query (post_expenses body) Table.empty))
       = Table.expenses Table.empty ++ [r]
    /\ Table.item_name r = lit "Coffee"
    /\ Table.amount r = 876.
Proof.
  intros body.
  destruct (created_expense_is_read_back Table.empty
              (snd (serve Table.query (post_expenses body) Table.empty))
              body
              (fst (serve Table.query (post_expenses body) Table.empty)))
    as [r [name [amount [category [x H]]]]].
  - vm_compute. reflexivity.
  - vm_compute. reflexivity.
  - exists r, name, amount, category, x.
    destruct H as [Hb [Hx [Hrows [_ [_ [Hname [Hamount _]]]]]]].
    split; [exact Hb|]. split; [exact Hx|]. split; [exact Hrows|].
    assert (Hn : name = lit " Coffee " /\ x = parseFloat_string (lit "8.755")).
    { vm_compute in Hb. injection Hb as <- <- _.
      vm_compute in Hx. injection Hx as <-. split; reflexivity. }
    destruct Hn as [-> ->].
    split; [exact Hname|].
    assert (E : Table.numeric_10_2_in
                  (number_to_string (parseFloat_string (lit "8.755")))
                = Some 876) by (vm_compute; reflexivity).
    rewrite E in Hamount. injection Hamount as Ha. symmetry. exact Ha.
Defined.

(** ** Delete, twice *)

Lemma table_select_by_id_fails (db : Table.Database) (p : JsValue) :
  Table.id_param p = None ->
  Table.query db select_by_id_text [p]
  = Table.failure db "invalid input syntax for type integer".
Proof.
  intros H.
  change (Table.query db select_by_id_text [p])
    with (match Table.id_param p with
          | Some i =>
              (Resolved (map Table.row_value
                           (filter (Table.id_is i) (Table.expenses db))), db)
          | None =>
              Table.failure db "invalid input syntax for type integer"
          end).
  rewrite H. reflexivity.
Qed.

Lemma id_param_number (x : Number) :
  Table.id_param (JNum x) = None
  \/ exists i, Table.id_param (JNum x) = Some (Some i).
Proof.
  unfold Table.id_param. cbn [Table.prepare_value].
  destruct (Table.int4_in (number_to_string x)) as [i|]; simpl; eauto.
Qed.

(** The delete handler on the table, for an identifier the column type
    reads. *)
Lemma table_delete_expense (db : Table.Database) (id : JsString) (i : Z) :
  js_lt pos_zero (parseInt_string id) = true ->
  Table.id_param (JNum (parseInt_string id)) = Some (Some i) ->
  let expenseId := JNum (parseInt_string id) in
  let found := filter (fun r => Table.id r =? i) (Table.expenses db) in
  serve Table.query (delete_expense id) db
  = match found with
    | [] =>
        ([EQuery select_by_id_text [expenseId] (Resolved []);
          ESend 404 (error_body "Expense not found")], db)
    | _ :: _ =>
        ([EQuery select_by_id_text [expenseId]
            (Resolved (map Table.row_value found));
          EQuery delete_text [expenseId] (Resolved []);
          ESend 200
            (JObj [(lit "message", JStr (lit "Expense deleted successfully"));
                   (lit "id", expenseId)])], without i db)
    end.
Proof.
  intros Hid Hparam. cbv zeta.
  generalize (delete_expense_path Table.query id db Hid). cbv zeta.
  rewrite (table_select_by_id db _ i Hparam).
  destruct (filter (fun r => Table.id r =? i) (Table.expenses db))
    as [|r rows]; [auto|].
  cbn [map]. rewrite (table_delete db _ i Hparam). auto.
Qed.

Lemma without_none (db : Table.Database) (i : Z) :
  filter (fun r => Table.id r =? i) (Table.expenses (without i db)) = [].
Proof.
  apply filter_none. intros r Hr. unfold without in Hr. simpl in Hr.
  apply filter_In in Hr. destruct Hr as [_ Hr].
  destruct (Table.id r =? i); [discriminate | reflexivity].
Qed.

(** X9.  A delete request repeated on the table it left changes nothing more
    and is never answered 200; after a delete answered 200 the repeated
    request finds no row and is answered 404. *)
Theorem delete_again_finds_nothing (db : Table.Database) (id : JsString) :
  let db1 := snd (serve Table.query (delete_expense id) db) in
  snd (serve Table.query (delete_expense id) db1) = db1
  /\ responses (fst (serve Table.query (delete_expense id) db1)) <> [200]
  /\ (responses (fst (serve Table.query (delete_expense id) db)) = [200] ->
      serve Table.query (delete_expense id) db1
      = ([EQuery select_by_id_text [JNum (parseInt_string id)] (Resolved []);
          ESend 404 (error_body "Expense not found")], db1)).
Proof.
  cbv zeta.
  destruct (js_lt pos_zero (parseInt_string id)) eqn:Hid.
  2:{ repeat (rewrite (delete_expense_invalid Table.query id db Hid);
              cbn [fst snd]). simpl.
      split; [reflexivity|]. split; discriminate. }
  destruct (id_param_number (parseInt_string id)) as [Hp | [i Hp]].
  - assert (H : forall db0,
               serve Table.query (delete_expense id) db0
               = (EQuery select_by_id_text [JNum (parseInt_string id)]
                    (Failed (Table.pg_error
                               "invalid input syntax for type integer"))
                    :: caught "Error deleting expense:"
                         "Failed to delete expense from database"
                         (Rejection (Table.pg_error
                                       "invalid input syntax for type integer")),
                  db0)).
    { intros db0.
      generalize (delete_expense_path Table.query id db0 Hid). cbv zeta.
      rewrite (table_select_by_id_fails db0 _ Hp). auto. }
    repeat (rewrite H; cbn [fst snd]). simpl.
    split; [reflexivity|]. split; discriminate.
  - pose proof (table_delete_expense db id i Hid Hp) as H1.
    cbv zeta in H1.
    destruct (filter (fun r => Table.id r =? i) (Table.expenses db))
      as [|r rows] eqn:E.
    + repeat (rewrite H1; cbn [fst snd]). simpl.
      split; [reflexivity|]. split; discriminate.
    + repeat (rewrite H1; cbn [fst snd]).
      pose proof (table_delete_expense (without i db) id i Hid Hp) as H2.
      cbv zeta in H2. rewrite without_none in H2.
      repeat (rewrite H2; cbn [fst snd]). simpl.
      split; [reflexivity|]. split; [discriminate|]. reflexivity.
Qed.

Lemma delete_again_finds_nothing_witness :
  let coffee := {| Table.id := 1; Table.item_name := lit "Coffee";
                   Table.amount := 875; Table.category := Some (lit "Other");
                   Table.created_at := 10 |} in
  let db := {| Table.expenses := [coffee];
               Table.next_id := 2; Table.now := 30 |} in
  serve Table.query (delete_expense (lit "1"))
    (snd (serve Table.query (delete_expense (lit "1")) db))
  = ([EQuery select_by_id_text [JNum (parseInt_string (lit "1"))]
        (Resolved []);
      ESend 404 (error_body "Expense not found")],
     snd (serve Table.query (delete_expense (lit "1")) db)).
Proof.
  intros coffee db.
  apply (proj2 (proj2 (delete_again_finds_nothing db (lit "1")))).
  vm_compute. reflexivity.
Defined.

(** ** What the table refuses *)

(** X10.  The handler does not check the length of the item name.  A create
    request that passes the checks with a trimmed name of more than 255
    characters reaches the pool; [VARCHAR(255)] refuses it, the request is
    answered 500 with the message of a failed insert, the reason is on the
    console, and no row is added. *)
Theorem long_item_name_is_refused_by_the_table
        (db : Table.Database) (body amount category : JsValue)
        (name : JsString) (x : Number) :
  destructure_body body = Normal (JStr name, amount, category) ->
  is_nullish amount = false ->
  parseFloat amount = Normal x ->
  js_le pos_zero x = true ->
  255 < Table.characters (trim name) ->
  exists reason,
    fst (serve Table.query (post_expenses body) db)
    = [EQuery insert_text
         [JStr (trim name); JNum x; expenseCategory category]
         (Failed reason);
       ELog (lit "Error adding expense:") (Rejection reason);
       ESend 500 (error_body "Failed to add expense to database")]
    /\ Table.expenses (snd (serve Table.query (post_expenses body) db))
       = Table.expenses db.
Proof.
  intros Hbody Hnull Hx Hle Hlong.
  assert (Hname : trim name <> []).
  { intros E. rewrite E in Hlong. vm_compute in Hlong. discriminate. }
  rewrite (post_expenses_accepted Table.query body amount category name x db)
    by assumption.
  rewrite table_query_insert.
  destruct (expenseCategory_valid category) as [c [-> Hc]].
  unfold Table.insert. cbn [Table.prepare_value].
  apply Z.leb_gt in Hlong. rewrite Hlong. cbn [andb].
  destruct (Table.has_nul (trim name) || Table.has_nul c);
    [eexists; split; reflexivity|].
  destruct (Table.numeric_10_2_in (number_to_string x)); simpl;
    eexists; split; reflexivity.
Qed.

Lemma long_item_name_is_refused_by_the_table_witness :
  let body :=
    create_body (JStr (repeat 97%N 256)) (JStr (lit "5")) JUndefined in
  exists reason,
    fst (serve Table.query (post_expenses body) Table.empty)
    = [EQuery insert_text
         [JStr (trim (repeat 97%N 256)); JNum (parseFloat_string (lit "5"));
          expenseCategory JUndefined]
         (Failed reason);
       ELog (lit "Error adding expense:") (Rejection reason);
       ESend 500 (error_body "Failed to add expense to database")]
    /\ Table.expenses (snd (serve Table.query (post_expenses body) Table.empty))
       = Table.expenses Table.empty.
Proof.
  intros body.
  apply (long_item_name_is_refused_by_the_table Table.empty body
           (JStr (lit "5")) JUndefined (repeat 97%N 256)
           (parseFloat_string (lit "5"))).
  - reflexivity.
  - reflexivity.
  - reflexivity.
  - vm_compute. reflexivity.
  - vm_compute. reflexivity.
Defined.

(** ** The metrics middleware *)

Lemma labels_eqb_eq (a b : Metrics.Labels) :
  Metrics.labels_eqb a b = true <-> a = b.
Proof.
  destruct a as [[m1 r1] s1], b as [[m2 r2] s2]. unfold Metrics.labels_eqb.
  rewrite !andb_true_iff, !js_string_eqb_eq.
  split; [intros [[-> ->] ->]; reflexivity | intros H; inversion H; auto].
Qed.

Lemma labels_eqb_refl (a : Metrics.Labels) : Metrics.labels_eqb a a = true.
Proof. apply labels_eqb_eq. reflexivity. Qed.

Lemma total_inc (l : Metrics.Labels) (c : Metrics.Counter) :
  Metrics.total (Metrics.inc l c) = S (Metrics.total c).
Proof.
  induction c as [|[l' n] c IH]; simpl; [reflexivity|].
  destruct (Metrics.labels_eqb l l'); simpl; [reflexivity|].
  rewrite IH. apply Nat.add_succ_r.
Qed.

Lemma value_inc (k l : Metrics.Labels) (c : Metrics.Counter) :
  Metrics.value k (Metrics.inc l c)
  = ((if Metrics.labels_eqb k l then 1 else 0) + Metrics.value k c)%nat.
Proof.
  induction c as [|[l' n] c IH]; simpl.
  - destruct (Metrics.labels_eqb k l); reflexivity.
  - destruct (Metrics.labels_eqb l l') eqn:E; simpl.
    + apply labels_eqb_eq in E. subst l'.
      destruct (Metrics.labels_eqb k l); reflexivity.
    + destruct (Metrics.labels_eqb k l') eqn:E'; [|exact IH].
      apply labels_eqb_eq in E'. subst l'.
      destruct (Metrics.labels_eqb k l) eqn:E''; [|reflexivity].
      apply labels_eqb_eq in E''. subst l.
      rewrite labels_eqb_refl in E. discriminate.
Qed.

Lemma metrics_after_snoc (rs : list Metrics.Finished) (r : Metrics.Finished) :
  metrics_after (rs ++ [r]) = Metrics.on_finish (metrics_after rs) r.
Proof. unfold metrics_after. rewrite fold_left_app. reflexivity. Qed.

(** X11.  The [finish] callback of the metrics middleware counts every
    response once.  After the responses [rs] the request counter sums to
    their number, the error counter to the number of those with a status of
    400 or more, and the histogram has seen one duration for each; under
    each set of labels the two counters hold the number of responses, and
    of error responses, with these labels, so the error counter never
    exceeds the request counter. *)
Theorem metrics_count_every_response (rs : list Metrics.Finished) :
  let m := metrics_after rs in
  Metrics.total (Metrics.httpRequestsTotal m) = List.length rs
  /\ Metrics.total (Metrics.httpErrorsTotal m)
     = List.length (filter is_error rs)
  /\ List.length (Metrics.httpRequestDuration m) = List.length rs
  /\ (forall l,
         Metrics.value l (Metrics.httpRequestsTotal m)
         = List.length
             (filter (fun r => Metrics.labels_eqb l (labels_of r)) rs))
  /\ (forall l,
         Metrics.value l (Metrics.httpErrorsTotal m)
         = List.length
             (filter (fun r => Metrics.labels_eqb l (labels_of r) && is_error r)
                rs))
  /\ (forall l,
         (Metrics.value l (Metrics.httpErrorsTotal m)
          <= Metrics.value l (Metrics.httpRequestsTotal m))%nat).
Proof.
  cbv zeta.
  assert (H : Metrics.total (Metrics.httpRequestsTotal (metrics_after rs))
              = List.length rs
              /\ Metrics.total (Metrics.httpErrorsTotal (metrics_after rs))
                 = List.length (filter is_error rs)
              /\ List.length (Metrics.httpRequestDuration (metrics_after rs))
                 = List.length rs
              /\ (forall l,
                     Metrics.value l
                       (Metrics.httpRequestsTotal (metrics_after rs))
                     = List.length
                         (filter
                            (fun r => Metrics.labels_eqb l (labels_of r)) rs))
              /\ (forall l,
                     Metrics.value l
                       (Metrics.httpErrorsTotal (metrics_after rs))
                     = List.length
                         (filter
                            (fun r => Metrics.labels_eqb l (labels_of r)
                                      && is_error r) rs))).
  { induction rs as [|r rs IH] using rev_ind.
    - repeat split; reflexivity.
    - destruct IH as [H1 [H2 [H3 [H4 H5]]]].
      rewrite metrics_after_snoc, !filter_app, !length_app.
      unfold Metrics.on_finish. cbn [Metrics.httpRequestsTotal
        Metrics.httpErrorsTotal Metrics.httpRequestDuration filter].
      fold (labels_of r). fold (is_error r).
      split; [rewrite total_inc, H1; simpl; lia|].
      split; [destruct (is_error r); [rewrite total_inc|]; rewrite H2;
              simpl; lia|].
      split; [simpl; rewrite H3; lia|].
      split.
      + intros l. rewrite value_inc, H4, filter_app, length_app.
        cbn [filter].
        destruct (Metrics.labels_eqb l (labels_of r)); simpl; lia.
      + intros l. rewrite filter_app, length_app. cbn [filter].
        destruct (is_error r); [rewrite value_inc|]; rewrite H5;
          destruct (Metrics.labels_eqb l (labels_of r)); simpl; lia. }
  destruct H as [H1 [H2 [H3 [H4 H5]]]].
  repeat (split; [assumption|]).
  intros l. rewrite H4, H5. clear.
  induction rs as [|r rs IH]; simpl; [lia|].
  destruct (Metrics.labels_eqb l (labels_of r)); simpl; [|exact IH].
  destruct (is_error r); simpl; lia.
Qed.

(** A Number that is not NaN and not below zero. *)
Lemma number_of_Z_signed (n : Z) :
  0 <= n -> signed false (number_of_Z n) /\ isNaN (number_of_Z n) = false.
Proof.
  intros H. unfold number_of_Z, binary_normalize.
  destruct n as [|p|p]; [split; reflexivity | | lia].
  split; [apply binary_round_signed | apply binary_round_not_nan].
Qed.

Lemma SFdiv_not_negative (x : Number) (m : positive) (e : Z) :
  signed false x -> isNaN x = false ->
  signed false (SFdiv prec emax x (S754_finite false m e))
  /\ isNaN (SFdiv prec emax x (S754_finite false m e)) = false.
Proof.
  destruct x as [[]|[]| |[] mx ex]; simpl; intros H1 H2;
    try discriminate; try (split; reflexivity).
  change (signed false (SFdiv prec emax (S754_finite false mx ex)
                          (S754_finite false m e))
          /\ isNaN (SFdiv prec emax (S754_finite false mx ex)
                      (S754_finite false m e)) = false).
  unfold SFdiv, SFdiv_core_binary.
  set (mm := match _ - _ - _ with Z0 => _ | Zpos _ => _ | Zneg _ => _ end).
  assert (Hm : 0 <= mm).
  { subst mm. destruct (_ - _ - _); try lia. apply Z.shiftl_nonneg. lia. }
  pose proof (Z.div_pos mm (Z.pos m) Hm ltac:(lia)) as Hq.
  unfold Z.div in Hq.
  destruct (Z.div_eucl mm _) as [q r]. simpl in Hq.
  split; [apply binary_round_aux_signed|].
  apply binary_round_aux_not_nan. exact Hq.
Qed.

Lemma SFadd_not_negative (x y : Number) :
  signed false x -> isNaN x = false ->
  signed false y -> isNaN y = false ->
  signed false (SFadd prec emax x y)
  /\ isNaN (SFadd prec emax x y) = false.
Proof.
  destruct x as [[]|[]| |[] mx ex]; simpl; intros H1 H2;
    try discriminate;
    destruct y as [[]|[]| |[] my ey]; simpl; intros H3 H4;
    try discriminate; try (split; reflexivity).
  change (signed false (SFadd prec emax (S754_finite false mx ex)
                          (S754_finite false my ey))
          /\ isNaN (SFadd prec emax (S754_finite false mx ex)
                      (S754_finite false my ey)) = false).
  unfold SFadd, binary_normalize. cbn [cond_Zopp].
  destruct (Z.pos _ + Z.pos _) as [|p|p] eqn:E; try lia.
  split; [apply binary_round_signed | apply binary_round_not_nan].
Qed.

(** X12.  When the two integers of [process.hrtime] are not negative, the
    duration [seconds + nanoseconds / 1e9] the histogram observes is a
    Number that is neither NaN nor below zero. *)
Theorem observed_durations_are_not_negative (rs : list Metrics.Finished) :
  Forall (fun r => 0 <= Metrics.seconds r /\ 0 <= Metrics.nanoseconds r) rs ->
  Forall (fun observation =>
            isNaN (snd observation) = false
            /\ js_le pos_zero (snd observation) = true)
    (Metrics.httpRequestDuration (metrics_after rs)).
Proof.
  assert (Hd : forall r,
             0 <= Metrics.seconds r -> 0 <= Metrics.nanoseconds r ->
             isNaN (Metrics.duration r) = false
             /\ js_le pos_zero (Metrics.duration r) = true).
  { intros r Hs Hn. unfold Metrics.duration.
    destruct (number_of_Z_signed _ Hs) as [S1 S2].
    destruct (number_of_Z_signed _ Hn) as [N1 N2].
    assert (E : exists m e, number_of_decimal false 1 9 = S754_finite false m e)
      by (vm_compute; eauto).
    destruct E as [m [e ->]].
    destruct (SFdiv_not_negative _ m e N1 N2) as [D1 D2].
    destruct (SFadd_not_negative _ _ S1 S2 D1 D2) as [A1 A2].
    split; [exact A2 | apply signed_not_nan_not_negative; assumption]. }
  induction rs as [|r rs IH] using rev_ind; intros H.
  - constructor.
  - apply Forall_app in H. destruct H as [Hrs Hr].
    inversion Hr as [|? ? [Hs Hn] _]; subst.
    rewrite metrics_after_snoc. unfold Metrics.on_finish.
    cbn [Metrics.httpRequestDuration].
    constructor; [exact (Hd r Hs Hn) | exact (IH Hrs)].
Qed.

Lemma observed_durations_are_not_negative_witness :
  Forall (fun observation =>
            isNaN (snd observation) = false
            /\ js_le pos_zero (snd observation) = true)
    (Metrics.httpRequestDuration
       (metrics_after
          [{| Metrics.method := lit "GET";
              Metrics.route_path := Some (lit "/api/expenses");
              Metrics.path := lit "/api/expenses";
              Metrics.statusCode := 200;
              Metrics.seconds := 0;
              Metrics.nanoseconds := 2500000 |}])).
Proof.
  apply observed_durations_are_not_negative.
  constructor; [simpl; lia | constructor].
Defined.

(** ** Which requests change the rows *)

(** X13.  On the table, the health, list and total requests leave the table
    as it was, whatever the category; a delete request that is not answered
    200 leaves it as it was; a create request that is not answered 201
    leaves the rows as they were. *)
Theorem only_create_and_delete_change_the_rows
        (r : Request) (db : Table.Database) :
  let evs := fst (serve Table.query (handler r) db) in
  let db' := snd (serve Table.query (handler r) db) in
  match r with
  | Health | ListExpenses _ | TotalExpenses _ => db' = db
  | CreateExpense _ =>
      responses evs <> [201] ->
      Table.expenses db' = Table.expenses db /\ Table.now db' = Table.now db
  | DeleteExpense _ => responses evs <> [200] -> db' = db
  end.
Proof.
  cbv zeta. destruct r as [|body|category|category|id]; simpl handler.
  - reflexivity.
  - pose proof (post_expenses_paths Table.query body db) as P.
    inversion P as [| |name amount category x Hbody Hname Hnull Hx Hle params];
      subst; simpl; auto.
    unfold params. rewrite table_query_insert.
    destruct (expenseCategory_valid category) as [c [-> Hc]].
    unfold Table.insert. cbn [Table.prepare_value].
    destruct (Table.has_nul (trim name) || Table.has_nul c); simpl; auto.
    destruct (Table.numeric_10_2_in (number_to_string x)) as [h|];
      simpl; auto.
    destruct ((Table.characters (trim name) <=? 255)
              && (Table.characters c <=? 50)); simpl; auto.
    destruct (0 <=? h); simpl; auto.
    intros Hne. contradiction Hne. reflexivity.
  - apply get_expenses_keeps_table.
  - apply get_total_keeps_table.
  - destruct (js_lt pos_zero (parseInt_string id)) eqn:Hid.
    2:{ rewrite (delete_expense_invalid Table.query id db Hid). reflexivity. }
    destruct (id_param_number (parseInt_string id)) as [Hp | [i Hp]].
    + generalize (delete_expense_path Table.query id db Hid). cbv zeta.
      rewrite (table_select_by_id_fails db _ Hp). intros ->. reflexivity.
    + rewrite (table_delete_expense db id i Hid Hp). cbv zeta.
      destruct (filter (fun r => Table.id r =? i) (Table.expenses db));
        simpl; [reflexivity|].
      intros Hne. contradiction Hne. reflexivity.
Qed.

Lemma only_create_and_delete_change_the_rows_witness :
  let coffee := {| Table.id := 1; Table.item_name := lit "Coffee";
                   Table.amount := 875; Table.category := Some (lit "Other");
                   Table.created_at := 10 |} in
  let db := {| Table.expenses := [coffee];
               Table.next_id := 2; Table.now := 30 |} in
  snd (serve Table.query (delete_expense (lit "2")) db) = db.
Proof.
  intros coffee db.
  apply (only_create_and_delete_change_the_rows (DeleteExpense (lit "2")) db).
  vm_compute. discriminate.
Defined.

(** ** Create, then filter *)

(** X14.  The row a create request answered 201 adds carries one of the six
    labels, and a filter on a category that is not empty selects it exactly
    when the category is this label; the list request answers with the
    rows the filter selects.  A row created with an unknown or a missing
    category is so listed under [Other]. *)
Theorem created_expense_is_listed_under_its_label
        (db db' : Table.Database) (body : JsValue) (evs : list Event) :
  serve Table.query (post_expenses body) db = (evs, db') ->
  responses evs = [201] ->
  exists (r : Table.Expense) (c : JsString),
    Table.expenses db' = Table.expenses db ++ [r]
    /\ In c validCategories
    /\ Table.category r = Some c
    /\ forall s,
        s <> [] ->
        let listed :=
          map Table.row_value
            (Table.order_by_created_at_desc (matching (Some s) db')) in
        (In r (matching (Some s) db') <-> s = c)
        /\ responses_sent
             (fst (serve Table.query (get_expenses (JStr s)) db'))
           = [(200, JObj [(lit "expenses", JArr listed)])]
        /\ (s = c -> In (Table.row_value r) listed).
Proof.
  intros Hserve Hresp.
  pose proof (post_expenses_paths Table.query body db) as P.
  rewrite Hserve in P.
  inversion P as [ | message Hm | name amount category x Hbody _ _ Hx _ params];
    subst; try discriminate.
  destruct (expenseCategory_valid category) as [c [Hc Hin]].
  subst params. rewrite table_query_insert in *.
  unfold Table.insert in *. rewrite Hc in *.
  cbn [Table.prepare_value] in *.
  destruct (Table.has_nul (trim name) || Table.has_nul c);
    [discriminate|].
  destruct (Table.numeric_10_2_in (number_to_string x)) as [h|] eqn:Eh;
    [|discriminate].
  destruct ((Table.characters (trim name) <=? 255)
            && (Table.characters c <=? 50));
    [|discriminate].
  destruct (0 <=? h); [|discriminate].
  cbn [fst snd after_insert].
  set (r := {| Table.id := Table.next_id db; Table.item_name := trim name;
               Table.amount := h; Table.category := Some c;
               Table.created_at := Table.now db |}).
  set (db1 := {| Table.expenses := Table.expenses db ++ [r];
                 Table.next_id := Table.next_id db + 1;
                 Table.now := Table.now db |}).
  exists r, c.
  split; [reflexivity|]. split; [exact Hin|]. split; [reflexivity|].
  intros s Hs. cbv zeta.
  assert (Hiff : In r (matching (Some s) db1) <-> s = c).
  { rewrite (matching_category s db1 r Hs).
    change (Table.expenses db1) with (Table.expenses db ++ [r]).
    change (Table.category r) with (Some c).
    split.
    - intros [_ E]. congruence.
    - intros ->. split; [|reflexivity].
      apply in_or_app. right. left. reflexivity. }
  split; [exact Hiff|]. split.
  - change (JStr s) with (category_param (Some s)).
    rewrite (table_get_expenses (Some s) db1). reflexivity.
  - intros E. apply in_map, order_by_created_at_desc_In, Hiff, E.
Qed.

Lemma created_expense_is_listed_under_its_label_witness :
  let body :=
    create_body (JStr (lit "Coffee")) (JStr (lit "8.75"))
      (JStr (lit "snacks")) in
  exists (r : Table.Expense) (c : JsString),
    Table.expenses (snd (serve Table.query (post_expenses body) Table.empty))
    = Table.expenses Table.empty ++ [r]
    /\ In c validCategories
    /\ Table.category r = Some c.
Proof.
  intros body.
  destruct (created_expense_is_listed_under_its_label Table.empty
              (snd (serve Table.query (post_expenses body) Table.empty))
              body
              (fst (serve Table.query (post_expenses body) Table.empty)))
    as [r [c [H1 [H2 [H3 _]]]]].
  - vm_compute. reflexivity.
  - vm_compute. reflexivity.
  - exists r, c. auto.
Defined.

(** ** Worked examples *)

Example trim_example : trim (lit "  Coffee  ") = lit "Coffee".
Proof. reflexivity. Qed.

Example parseFloat_examples :
  parseFloat_string (lit "8.75") = number_of_decimal false 875 (-2)
  /\ parseFloat_string (lit " 12.5abc") = number_of_decimal false 125 (-1)
  /\ parseFloat_string (lit "1e3") = number_of_Z 1000
  /\ parseFloat_string (lit "-0") = neg_zero
  /\ parseFloat_string (lit "invalid") = NaN
  /\ parseFloat_string (lit "-Infinity") = S754_infinity true
  /\ parseFloat_string (lit "1e999") = Infinity
  /\ parseFloat (JArr [JNum (number_of_Z 5)]) = Normal (number_of_Z 5)
  /\ parseFloat (JBool true) = Normal NaN
  /\ parseFloat (JObj [(lit "toString", JNull)]) = Abrupt TypeError.
Proof. repeat split; vm_compute; reflexivity. Qed.

Example parseInt_examples :
  parseInt_string (lit "999") = number_of_Z 999
  /\ parseInt_string (lit "12abc") = number_of_Z 12
  /\ parseInt_string (lit "1.5") = number_of_Z 1
  /\ parseInt_string (lit "0x1A") = number_of_Z 26
  /\ parseInt_string (lit "-1") = number_of_Z (-1)
  /\ parseInt_string (lit "-0") = neg_zero
  /\ parseInt_string (lit "abc") = NaN.
Proof. repeat split; vm_compute; reflexivity. Qed.

Example number_to_string_examples :
  number_to_string (number_of_decimal false 255 (-1)) = lit "25.5"
  /\ number_to_string (number_of_decimal false 1 (-1)) = lit "0.1"
  /\ number_to_string (number_of_decimal true 875 (-2)) = lit "-8.75"
  /\ number_to_string (number_of_Z 999) = lit "999"
  /\ number_to_string (number_of_decimal false 1 21) = lit "1e+21"
  /\ number_to_string (number_of_decimal false 1 (-7)) = lit "1e-7"
  /\ number_to_string (number_of_decimal false 1 23) = lit "1e+23"
  /\ number_to_string (number_of_decimal false 5 (-324)) = lit "5e-324".
Proof. repeat split; vm_compute; reflexivity. Qed.

Example date_to_string_example :
  date_to_string 1770201000000
  = lit "Wed Feb 04 2026 10:30:00 GMT+0000 (Coordinated Universal Time)".
Proof. vm_compute. reflexivity. Qed.

(** An identifier that only starts with digits is read by those digits:
    [parseInt] stops at the first character that is not one. *)
Example delete_reads_leading_digits :
  queries (fst (serve Table.query (delete_expense (lit "12abc")) Table.empty))
  = [(select_by_id_text, [JNum (number_of_Z 12)])].
Proof. vm_compute. reflexivity. Qed.

(** The scenario of the specification: a create with a padded name and no
    category, then list, total, delete, list and total again. *)
Example coffee_scenario :
  let created :=
    serve Table.query
      (post_expenses
         (create_body (JStr (lit "  Coffee  "))
            (JNum (number_of_decimal false 875 (-2))) JUndefined))
      Table.empty in
  let coffee := {| Table.id := 1; Table.item_name := lit "Coffee";
                   Table.amount := 875; Table.category := Some (lit "Other");
                   Table.created_at := 0 |} in
  let db := snd created in
  let deleted := serve Table.query (delete_expense (lit "1")) db in
  responses_sent (fst created)
  = [(201, JObj [(lit "message", JStr (lit "Expense added successfully"));
                 (lit "expense", Table.row_value coffee)])]
  /\ Table.expenses db = [coffee]
  /\ responses_sent (fst (serve Table.query (get_expenses JUndefined) db))
     = [(200, JObj [(lit "expenses", JArr [Table.row_value coffee])])]
  /\ responses_sent (fst (serve Table.query (get_total JUndefined) db))
     = [(200, JObj [(lit "total",
                      JNum (number_of_decimal false 875 (-2)))])]
  /\ responses_sent (fst deleted)
     = [(200, JObj [(lit "message", JStr (lit "Expense deleted successfully"));
                    (lit "id", JNum (number_of_Z 1))])]
  /\ responses_sent
       (fst (serve Table.query (get_expenses JUndefined) (snd deleted)))
     = [(200, JObj [(lit "expenses", JArr [])])]
  /\ responses_sent
       (fst (serve Table.query (get_total JUndefined) (snd deleted)))
     = [(200, JObj [(lit "total", JNum pos_zero)])].
Proof. repeat split; vm_compute; reflexivity. Qed.
